(** * SVRF to ICV translator: lexer, structural parser, rule classifier,
      layer-expression rewriter and rule-block scanner.

    A shallow embedding of the Python sources
      - svrf_drc_parser.py          (module [SvrfDrcParser])
      - final_enhanced_translator.py (module [FinalEnhancedTranslator])
      - enhanced_svrf_parser.py      (module [EnhancedSvrfParser])
      - simple_svrf_parser.py        (modules [SimpleSvrfParser], [SimpleSvrfLines])
      - svrf_to_icv_translator.py    (module [SvrfToIcvTranslator])
    together with the properties stated about them.

    Modelling conventions.
      - A Python [str] is a [string]; the model covers ASCII text: the
        character classes of Python ([str.isdigit], [str.isalpha], [\w], [\s],
        ...) are given on code points below 128, and a character above that
        range belongs to no class.
      - A Python [int] used as a counter (line, column, index) is a [nat];
        brace balances, which can go negative, are [Z].
      - A Python [float] obtained by [float(s)] from a decimal numeral is the
        rational number the numeral denotes, a [Q].
      - [while] loops that the source does not bound are run with fuel:
        [None] means that the fuel ran out. *)

From Stdlib Require Import Bool Arith NArith ZArith QArith Lia List Ascii String.
From Stdlib Require Import DecimalString.
Import ListNotations.

Local Open Scope string_scope.
Local Open Scope list_scope.
Local Open Scope bool_scope.
Local Open Scope nat_scope.

(* ================================================================== *)
(** * Python built-ins used by the sources *)
(* ================================================================== *)

Module Py.

Definition chr (n : nat) : ascii := ascii_of_nat n.
Definition ord (c : ascii) : nat := nat_of_ascii c.

Definition NL : ascii := "010"%char.
Definition TAB : ascii := "009"%char.
Definition CR : ascii := "013"%char.
Definition DQUOTE : ascii := "034"%char.
Definition SQUOTE : ascii := "039"%char.
Definition BACKSLASH : ascii := "092"%char.

(** The one-character string. *)
Definition str1 (c : ascii) : string := String c EmptyString.

(** A double quote, as a string. *)
Definition dq : string := str1 DQUOTE.

Definition in_range (lo hi : nat) (c : ascii) : bool :=
  (lo <=? ord c) && (ord c <=? hi).

(** [c.isdigit()] *)
Definition isdigit (c : ascii) : bool := in_range 48 57 c.

(** [c.isalpha()] *)
Definition isalpha (c : ascii) : bool := in_range 65 90 c || in_range 97 122 c.

(** [c.isalnum()] *)
Definition isalnum (c : ascii) : bool := isalpha c || isdigit c.

(** [c.isspace()], also the class of [\s] and of [str.strip()]. *)
Definition isspace (c : ascii) : bool :=
  in_range 9 13 c || in_range 28 32 c.

(** [c.lower()] on one character. *)
Definition lower (c : ascii) : ascii :=
  if in_range 65 90 c then chr (ord c + 32) else c.

(** [len(s) == 0], i.e. [not s]. *)
Definition is_empty (s : string) : bool :=
  match s with EmptyString => true | _ => false end.

(** [s.startswith(p)] *)
Fixpoint startswith (p s : string) : bool :=
  match p, s with
  | EmptyString, _ => true
  | String a p', String b s' => Ascii.eqb a b && startswith p' s'
  | String _ _, EmptyString => false
  end.

(** [s[n:]] *)
Fixpoint drop (n : nat) (s : string) : string :=
  match n, s with
  | O, _ => s
  | S n', String _ s' => drop n' s'
  | S _, EmptyString => EmptyString
  end.

(** [s[:n]] *)
Fixpoint take (n : nat) (s : string) : string :=
  match n, s with
  | S n', String c s' => String c (take n' s')
  | _, _ => EmptyString
  end.

(** [p in s] for strings. *)
Fixpoint contains (p s : string) : bool :=
  startswith p s ||
  match s with
  | EmptyString => false
  | String _ s' => contains p s'
  end.

(** [s.count(c)] for a one-character [c]. *)
Fixpoint count (c : ascii) (s : string) : nat :=
  match s with
  | EmptyString => 0
  | String a s' => (if Ascii.eqb a c then 1 else 0) + count c s'
  end.

(** [s.lstrip()] *)
Fixpoint lstrip (s : string) : string :=
  match s with
  | String c s' => if isspace c then lstrip s' else s
  | EmptyString => EmptyString
  end.

(** [s.rstrip()] *)
Fixpoint rstrip (s : string) : string :=
  match s with
  | EmptyString => EmptyString
  | String c s' =>
      match rstrip s' with
      | EmptyString => if isspace c then EmptyString else str1 c
      | t => String c t
      end
  end.

(** [s.strip()] *)
Definition strip (s : string) : string := rstrip (lstrip s).

(** [sep.join(parts)] *)
Fixpoint join (sep : string) (parts : list string) : string :=
  match parts with
  | [] => EmptyString
  | [p] => p
  | p :: ps => p ++ sep ++ join sep ps
  end.

(** [s.replace(old, new)] for a non-empty [old]: occurrences are found from
    left to right and do not overlap.  [skip] counts the characters of the
    current occurrence that remain to be passed over. *)
Fixpoint replace_from (old new : string) (skip : nat) (s : string) : string :=
  match s with
  | EmptyString => EmptyString
  | String c s' =>
      match skip with
      | S k => replace_from old new k s'
      | O =>
          if startswith old s
          then new ++ replace_from old new (String.length old - 1) s'
          else String c (replace_from old new 0 s')
      end
  end.

Definition replace (old new s : string) : string := replace_from old new 0 s.

(** [s.split(c)[0]] for a one-character separator: the text before the first
    [c] (the whole string when [c] does not occur). *)
Fixpoint split_first (c : ascii) (s : string) : string :=
  match s with
  | EmptyString => EmptyString
  | String a s' => if Ascii.eqb a c then EmptyString else String a (split_first c s')
  end.

(** The longest prefix of [s] whose characters satisfy [p], and what follows. *)
Fixpoint span (p : ascii -> bool) (s : string) : string * string :=
  match s with
  | String c s' =>
      if p c then let (a, b) := span p s' in (String c a, b) else (EmptyString, s)
  | EmptyString => (EmptyString, EmptyString)
  end.

(** [s.split()]: the maximal runs of non-space characters. *)
Fixpoint split_ws_from (cur : string) (s : string) : list string :=
  match s with
  | EmptyString => if is_empty cur then [] else [cur]
  | String c s' =>
      if isspace c
      then (if is_empty cur then [] else [cur]) ++ split_ws_from EmptyString s'
      else split_ws_from (cur ++ str1 c) s'
  end.

Definition split_ws (s : string) : list string := split_ws_from EmptyString s.

(** The value of a run of decimal digits; [None] when a character is not a
    digit. *)
Fixpoint digits_value (acc : N) (s : string) : option N :=
  match s with
  | EmptyString => Some acc
  | String c r =>
      if isdigit c then digits_value (acc * 10 + N.of_nat (ord c - 48)) r else None
  end.

Fixpoint pow10 (k : nat) : positive :=
  match k with
  | O => 1%positive
  | S k' => (10 * pow10 k')%positive
  end.

(** [float(s)] for a string of digits and dots, the only strings the sources
    convert: digits with at most one dot and at least one digit denote a
    number; anything else is a [ValueError], here [None]. *)
Definition float (s : string) : option Q :=
  let (ip, r) := span isdigit s in
  match r with
  | EmptyString =>
      if is_empty ip then None
      else option_map (fun n => Z.of_N n # 1) (digits_value 0 ip)
  | String c fp =>
      if Ascii.eqb c "." && negb (is_empty ip && is_empty fp)
      then option_map (fun n => Z.of_N n # pow10 (String.length fp))
                      (digits_value 0 (ip ++ fp))
      else None
  end.

(** [int(x)] for a non-negative float [x]. *)
Definition int_of_float (x : Q) : Z := (Qnum x / Zpos (Qden x))%Z.

(** [str(n)] for a non-negative integer. *)
Definition str_of_nat (n : nat) : string :=
  NilZero.string_of_uint (Nat.to_uint n).

(** The outcome of a method: a value, an exception, or fuel exhausted in a
    loop that has not ended. *)
Inductive Res (A : Type) : Type :=
  | Done (a : A)
  | Raised (exn : string)
  | Timeout.
Arguments Done {A} a.
Arguments Raised {A} exn.
Arguments Timeout {A}.

Definition bind {A B : Type} (m : Res A) (k : A -> Res B) : Res B :=
  match m with
  | Done a => k a
  | Raised e => Raised e
  | Timeout => Timeout
  end.

Notation "x <- m ;; k" := (bind m (fun x => k))
  (at level 61, m at next level, right associativity).
Notation "' pat <- m ;; k" := (bind m (fun x => match x with pat => k end))
  (at level 61, pat pattern, m at next level, right associativity).

End Py.

(* ================================================================== *)
(** * svrf_drc_parser.py: the lexer *)
(* ================================================================== *)

Module SvrfDrcParser.

Import Py.

Inductive TokenType : Set :=
  | IDENTIFIER | NUMBER | STRING
  | LAYER | INCLUDE | LAYOUT | SYSTEM | GDSII
  | AND | OR | NOT | INSIDE | BY
  | INTERNAL1 | INTERNAL2 | EXTERNAL | EXTERNAL1
  | AREA | DENSITY | WINDOW | SINGULAR
  | LT | GT | EQ | ASSIGN
  | LBRACE | RBRACE | LPAREN | RPAREN | COMMA | SEMICOLON | AT
  | COMMENT | NEWLINE | EOF.

Definition TokenType_eq_dec (a b : TokenType) : {a = b} + {a <> b}.
Proof. decide equality. Defined.

Definition TokenType_eqb (a b : TokenType) : bool :=
  if TokenType_eq_dec a b then true else false.

Record Token : Set := mkToken {
  type : TokenType;
  value : string;
  line : nat;
  column : nat
}.

(** ** SVRFLexer

    The lexer object holds [text], [pos], [line] and [column]; the text is
    only ever read at and after [pos], so the state keeps [text[pos:]]. *)

Record Lexer : Set := mkLexer {
  rest : string;       (* text[pos:] *)
  lx_line : nat;
  lx_column : nat
}.

Definition keywords : list (string * TokenType) :=
  [ ("LAYER", LAYER); ("INCLUDE", INCLUDE); ("LAYOUT", LAYOUT);
    ("SYSTEM", SYSTEM); ("GDSII", GDSII); ("AND", AND); ("OR", OR);
    ("NOT", NOT); ("INSIDE", INSIDE); ("BY", BY);
    ("INTERNAL1", INTERNAL1); ("INTERNAL2", INTERNAL2);
    ("EXTERNAL", EXTERNAL); ("EXTERNAL1", EXTERNAL1); ("AREA", AREA);
    ("DENSITY", DENSITY); ("WINDOW", WINDOW); ("SINGULAR", SINGULAR) ].

(** [d.get(k, default)] *)
Fixpoint dict_get {V : Type} (d : list (string * V)) (k : string) (default : V) : V :=
  match d with
  | [] => default
  | (k', v) :: d' => if String.eqb k' k then v else dict_get d' k default
  end.

Definition current_char (lx : Lexer) : option ascii :=
  match rest lx with
  | EmptyString => None
  | String c _ => Some c
  end.

Definition peek_char (lx : Lexer) : option ascii :=
  match rest lx with
  | String _ (String c _) => Some c
  | _ => None
  end.

(** The effect of [advance] on [line] and [column] when the character at
    [pos] is [c]. *)
Definition advance_pos (c : ascii) (l col : nat) : nat * nat :=
  if Ascii.eqb c NL then (l + 1, 1) else (l, col + 1).

Definition advance (lx : Lexer) : Lexer :=
  match rest lx with
  | String c r =>
      let (l, col) := advance_pos c (lx_line lx) (lx_column lx) in
      mkLexer r l col
  | EmptyString => mkLexer EmptyString (lx_line lx) (lx_column lx + 1)
  end.

(** [c in ' \t\r'] *)
Definition is_blank (c : ascii) : bool :=
  Ascii.eqb c " " || Ascii.eqb c TAB || Ascii.eqb c CR.

Fixpoint skip_whitespace_from (s : string) (l col : nat) : Lexer :=
  match s with
  | String c r =>
      if is_blank c
      then let (l', col') := advance_pos c l col in skip_whitespace_from r l' col'
      else mkLexer s l col
  | EmptyString => mkLexer s l col
  end.

Definition skip_whitespace (lx : Lexer) : Lexer :=
  skip_whitespace_from (rest lx) (lx_line lx) (lx_column lx).

(** The loop of [read_comment], [read_number] and [read_identifier]:
    characters are appended to the value while [p] holds. *)
Fixpoint read_while (p : ascii -> bool) (s : string) (l col : nat) : string * Lexer :=
  match s with
  | String c r =>
      if p c
      then let (l', col') := advance_pos c l col in
           let (v, lx) := read_while p r l' col' in (String c v, lx)
      else (EmptyString, mkLexer s l col)
  | EmptyString => (EmptyString, mkLexer s l col)
  end.

Definition read_comment (lx : Lexer) : Token * Lexer :=
  let start_line := lx_line lx in
  let start_col := lx_column lx in
  if match current_char lx, peek_char lx with
     | Some c, Some d => Ascii.eqb c "/" && Ascii.eqb d "/"
     | _, _ => false
     end
  then
    let lx1 := advance (advance lx) in
    let (comment, lx2) :=
      read_while (fun c => negb (Ascii.eqb c NL)) (rest lx1) (lx_line lx1) (lx_column lx1) in
    (mkToken COMMENT (strip comment) start_line start_col, lx2)
  else (mkToken COMMENT (strip EmptyString) start_line start_col, lx).

(** The loop of [read_string], after the opening quote, and the optional
    closing quote. *)
Fixpoint read_string_from (quote_char : ascii) (s : string) (l col : nat)
  : string * Lexer :=
  match s with
  | EmptyString => (EmptyString, mkLexer s l col)
  | String c r =>
      if Ascii.eqb c quote_char then
        (* loop exit; the closing quote is skipped *)
        let (l', col') := advance_pos c l col in (EmptyString, mkLexer r l' col')
      else if Ascii.eqb c BACKSLASH then
        let (l1, col1) := advance_pos c l col in
        match r with
        | String d r' =>
            let (l2, col2) := advance_pos d l1 col1 in
            let (v, lx) := read_string_from quote_char r' l2 col2 in
            (String d v, lx)
        | EmptyString => (EmptyString, mkLexer r l1 col1)
        end
      else
        let (l', col') := advance_pos c l col in
        let (v, lx) := read_string_from quote_char r l' col' in
        (String c v, lx)
  end.

Definition read_string (lx : Lexer) : Token * Lexer :=
  let start_line := lx_line lx in
  let start_col := lx_column lx in
  match rest lx with
  | String quote_char _ =>
      let lx1 := advance lx in
      let (v, lx2) := read_string_from quote_char (rest lx1) (lx_line lx1) (lx_column lx1) in
      (mkToken STRING v start_line start_col, lx2)
  | EmptyString => (mkToken STRING EmptyString start_line start_col, advance lx)
  end.

Definition read_number (lx : Lexer) : Token * Lexer :=
  let (v, lx') :=
    read_while (fun c => isdigit c || Ascii.eqb c ".") (rest lx) (lx_line lx) (lx_column lx) in
  (mkToken NUMBER v (lx_line lx) (lx_column lx), lx').

Definition read_identifier (lx : Lexer) : Token * Lexer :=
  let (v, lx') :=
    read_while (fun c => isalnum c || Ascii.eqb c "_") (rest lx) (lx_line lx) (lx_column lx) in
  (mkToken (dict_get keywords v IDENTIFIER) v (lx_line lx) (lx_column lx), lx').

Definition single_char_tokens : list (ascii * TokenType) :=
  [ ("{"%char, LBRACE); ("}"%char, RBRACE); ("("%char, LPAREN);
    (")"%char, RPAREN); (","%char, COMMA); (";"%char, SEMICOLON);
    ("@"%char, AT); ("<"%char, LT); (">"%char, GT); ("="%char, ASSIGN) ].

Fixpoint char_lookup (d : list (ascii * TokenType)) (c : ascii) : option TokenType :=
  match d with
  | [] => None
  | (k, v) :: d' => if Ascii.eqb k c then Some v else char_lookup d' c
  end.

Definition opt_is (p : ascii -> bool) (o : option ascii) : bool :=
  match o with Some c => p c | None => false end.

(** One iteration of the [while self.current_char()] loop of [tokenize],
    entered with a current character: [None] is [break]; otherwise the
    tokens after the iteration and the lexer state. *)
Definition tokenize_step (lx0 : Lexer) (tokens : list Token)
  : option (list Token * Lexer) :=
  let lx := skip_whitespace lx0 in
  match current_char lx with
  | None => None
  | Some char =>
      if Ascii.eqb char "/" && opt_is (Ascii.eqb "/") (peek_char lx) then
        let (t, lx') := read_comment lx in Some (tokens ++ [t], lx')
      else if Ascii.eqb char NL then
        Some (tokens ++ [mkToken NEWLINE (str1 char) (lx_line lx) (lx_column lx)],
              advance lx)
      else if Ascii.eqb char DQUOTE || Ascii.eqb char SQUOTE then
        let (t, lx') := read_string lx in Some (tokens ++ [t], lx')
      else if isdigit char || (Ascii.eqb char "." && opt_is isdigit (peek_char lx)) then
        let (t, lx') := read_number lx in Some (tokens ++ [t], lx')
      else if isalpha char || Ascii.eqb char "_" then
        let (t, lx') := read_identifier lx in Some (tokens ++ [t], lx')
      else if Ascii.eqb char "=" && opt_is (Ascii.eqb "=") (peek_char lx) then
        Some (tokens ++ [mkToken EQ "==" (lx_line lx) (lx_column lx)],
              advance (advance lx))
      else
        match char_lookup single_char_tokens char with
        | Some ty =>
            Some (tokens ++ [mkToken ty (str1 char) (lx_line lx) (lx_column lx)],
                  advance lx)
        | None => Some (tokens, advance lx)   (* unknown character: skip it *)
        end
  end.

Fixpoint tokenize_loop (fuel : nat) (lx : Lexer) (tokens : list Token)
  : option (list Token * Lexer) :=
  match current_char lx with
  | None => Some (tokens, lx)
  | Some _ =>
      match tokenize_step lx tokens with
      | None => Some (tokens, skip_whitespace lx)
      | Some (tokens', lx') =>
          match fuel with
          | O => None
          | S fuel' => tokenize_loop fuel' lx' tokens'
          end
      end
  end.

(** [SVRFLexer(text).tokenize()]; the loop is given one unit of fuel per
    character of the text. *)
Definition tokenize (text : string) : option (list Token) :=
  match tokenize_loop (String.length text) (mkLexer text 1 1) [] with
  | Some (tokens, lx) =>
      Some (tokens ++ [mkToken EOF EmptyString (lx_line lx) (lx_column lx)])
  | None => None
  end.

Definition kinds (tokens : list Token) : list TokenType := map type tokens.

(** A character that starts no token whatever follows it: not blank, not a
    newline, not a quote, digit, letter, underscore or punctuation mark, and
    neither ['/'] nor ['.'], whose reading depends on the next character. *)
Definition unrecognized (c : ascii) : bool :=
  negb (is_blank c || Ascii.eqb c NL || Ascii.eqb c DQUOTE || Ascii.eqb c SQUOTE
        || isdigit c || isalpha c || Ascii.eqb c "_" || Ascii.eqb c "="
        || Ascii.eqb c "/" || Ascii.eqb c "."
        || match char_lookup single_char_tokens c with Some _ => true | None => false end).

(** ** SVRFParser

    The parser object holds the token list and [pos]; tokens are only read
    at and after [pos], so the state keeps [tokens[pos:]].  [advance] never
    moves past the last token, so this suffix is empty only when the token
    list is. *)

Record LayerDefinition : Set := mkLayerDefinition {
  name : string;
  gds_layer : option Z;
  expression : option string;
  layer_line : nat
}.

(** A value of the [additional_params] dictionary. *)
Inductive ParamValue : Set :=
  | PTrue
  | PWindow (dims : list Q).

Record DRCRule : Set := mkDRCRule {
  rule_name : string;
  description : string;
  rule_type : string;
  layer : string;
  constraint : string;
  rule_value : Q;
  rule_line : nat;
  additional_params : list (string * ParamValue)
}.

Record Parser : Set := mkParser {
  tokens : list Token;        (* tokens[pos:] *)
  layers : list LayerDefinition;
  rules : list DRCRule;
  includes : list string;
  errors : list string;
  warnings : list string
}.

(** A [while cond: body] loop over a state [S]. *)
Fixpoint while_ {S : Type} (fuel : nat) (cond : S -> bool) (body : S -> Res S) (s : S)
  : Res S :=
  if cond s then
    match fuel with
    | O => Timeout
    | Datatypes.S fuel' => s' <- body s ;; while_ fuel' cond body s'
    end
  else Done s.

Definition new_parser (toks : list Token) : Parser :=
  mkParser toks [] [] [] [] [].

Definition current_token (p : Parser) : option Token :=
  match tokens p with
  | [] => None
  | t :: _ => Some t
  end.

Definition set_tokens (p : Parser) (ts : list Token) : Parser :=
  mkParser ts (layers p) (rules p) (includes p) (errors p) (warnings p).

(** [advance]: [if self.pos < len(self.tokens) - 1: self.pos += 1]. *)
Definition p_advance (p : Parser) : Parser :=
  match tokens p with
  | _ :: ((_ :: _) as ts) => set_tokens p ts
  | _ => p
  end.

Definition peek (p : Parser) : option Token :=
  match tokens p with
  | _ :: t :: _ => Some t
  | _ => None
  end.

(** [self.current_token and self.current_token.type == ty] *)
Definition cur_is (ty : TokenType) (p : Parser) : bool :=
  match current_token p with
  | Some t => TokenType_eqb (type t) ty
  | None => false
  end.

(** [self.current_token and self.current_token.type in tys] *)
Definition cur_in (tys : list TokenType) (p : Parser) : bool :=
  match current_token p with
  | Some t => existsb (TokenType_eqb (type t)) tys
  | None => false
  end.

(** [self.current_token and self.current_token.type not in tys] *)
Definition cur_not_in (tys : list TokenType) (p : Parser) : bool :=
  match current_token p with
  | Some t => negb (existsb (TokenType_eqb (type t)) tys)
  | None => false
  end.

Definition add_layer (p : Parser) (l : LayerDefinition) : Parser :=
  mkParser (tokens p) (layers p ++ [l]) (rules p) (includes p) (errors p) (warnings p).

Definition add_rule (p : Parser) (r : DRCRule) : Parser :=
  mkParser (tokens p) (layers p) (rules p ++ [r]) (includes p) (errors p) (warnings p).

Definition add_include (p : Parser) (s : string) : Parser :=
  mkParser (tokens p) (layers p) (rules p) (includes p ++ [s]) (errors p) (warnings p).

Definition add_error (p : Parser) (s : string) : Parser :=
  mkParser (tokens p) (layers p) (rules p) (includes p) (errors p ++ [s]) (warnings p).

Definition skip_newlines (fuel : nat) (p : Parser) : Res Parser :=
  while_ fuel (cur_is NEWLINE) (fun p => Done (p_advance p)) p.

Definition skip_comments (fuel : nat) (p : Parser) : Res Parser :=
  while_ fuel (cur_is COMMENT) (fun p => Done (p_advance p)) p.

Definition parse_include (p : Parser) : Parser :=
  let p := p_advance p in
  match current_token p with
  | Some t =>
      if TokenType_eqb (type t) STRING
      then p_advance (add_include p (value t))
      else p
  | None => p
  end.

(** [parse_layer_expression]: the values of the tokens up to a newline, the
    end of input or an opening brace, joined by single spaces. *)
Definition parse_layer_expression (fuel : nat) (p : Parser) : Res (string * Parser) :=
  '(expression_parts, p') <-
    while_ fuel
      (fun st : list string * Parser => cur_not_in [NEWLINE; EOF; LBRACE] (snd st))
      (fun st =>
         let (parts, p) := st in
         match current_token p with
         | Some t => Done (parts ++ [value t], p_advance p)
         | None => Done st
         end)
      ([], p) ;;
  Done (join " " expression_parts, p').

Definition parse_layer_definition (fuel : nat) (p : Parser) : Res Parser :=
  match current_token p with
  | None => Raised "AttributeError"
  | Some t0 =>
      let layer_line := line t0 in
      let p := p_advance p in
      if negb (cur_is IDENTIFIER p) then
        Done (add_error p ("Expected layer name at line " ++ str_of_nat layer_line))
      else
        match current_token p with
        | None => Done p
        | Some t1 =>
            let layer_name := value t1 in
            let p := p_advance p in
            match current_token p with
            | None => Done p
            | Some t2 =>
                if TokenType_eqb (type t2) NUMBER then
                  match float (value t2) with
                  | None => Raised "ValueError"
                  | Some x =>
                      Done (p_advance
                              (add_layer p (mkLayerDefinition layer_name
                                              (Some (int_of_float x)) None layer_line)))
                  end
                else if TokenType_eqb (type t2) ASSIGN then
                  let p := p_advance p in
                  '(expression, p) <- parse_layer_expression fuel p ;;
                  Done (add_layer p (mkLayerDefinition layer_name None
                                       (Some expression) layer_line))
                else Done p
            end
        end
  end.

Definition parse_derived_layer (fuel : nat) (p : Parser) : Res Parser :=
  match current_token p with
  | None => Done p
  | Some t1 =>
      if negb (TokenType_eqb (type t1) IDENTIFIER) then Done p
      else
        let layer_name := value t1 in
        let layer_line := line t1 in
        let p := p_advance p in
        if cur_is ASSIGN p then
          let p := p_advance p in
          '(expression, p) <- parse_layer_expression fuel p ;;
          Done (add_layer p (mkLayerDefinition layer_name None
                               (Some expression) layer_line))
        else Done p
  end.

(** [d[k] = v] *)
Fixpoint dict_set {V : Type} (d : list (string * V)) (k : string) (v : V)
  : list (string * V) :=
  match d with
  | [] => [(k, v)]
  | (k', v') :: d' =>
      if String.eqb k' k then (k', v) :: d' else (k', v') :: dict_set d' k v
  end.

(** [if self.current_token and self.current_token.type in tys:
       x = self.current_token.value; self.advance()] *)
Definition take_value_if (tys : list TokenType) (default : string) (p : Parser)
  : string * Parser :=
  match current_token p with
  | Some t =>
      if existsb (TokenType_eqb (type t)) tys then (value t, p_advance p)
      else (default, p)
  | None => (default, p)
  end.

(** [if self.current_token and self.current_token.type == NUMBER:
       value = float(self.current_token.value); self.advance()] *)
Definition take_float_if_number (default : Q) (p : Parser) : Res (Q * Parser) :=
  match current_token p with
  | Some t =>
      if TokenType_eqb (type t) NUMBER then
        match float (value t) with
        | Some x => Done (x, p_advance p)
        | None => Raised "ValueError"
        end
      else Done (default, p)
  | None => Done (default, p)
  end.

(** The local variables of [parse_drc_rule] set by the rule body. *)
Record RuleBody : Set := mkRuleBody {
  b_layer : string;
  b_constraint : string;
  b_value : Q;
  b_additional_params : list (string * ParamValue)
}.

Definition in_strings (s : string) (l : list string) : bool :=
  existsb (String.eqb s) l.

(** The branch of [parse_drc_rule] for INTERNAL1, INTERNAL2, EXTERNAL and
    EXTERNAL1. *)
Definition parse_measure_body (fuel : nat) (p : Parser) : Res (RuleBody * Parser) :=
  let (layer, p) := take_value_if [IDENTIFIER] EmptyString p in
  let (constraint, p) := take_value_if [LT; GT; EQ] EmptyString p in
  '(val, p) <- take_float_if_number 0%Q p ;;
  (* Check for additional parameters *)
  '(additional_params, p) <-
    while_ fuel
      (fun st : list (string * ParamValue) * Parser =>
         cur_not_in [RBRACE; NEWLINE] (snd st))
      (fun st =>
         let (params, p) := st in
         match current_token p with
         | Some t =>
             if TokenType_eqb (type t) IDENTIFIER
             then Done (dict_set params (value t) PTrue, p_advance p)
             else Done st
         | None => Done st
         end)
      ([], p) ;;
  Done (mkRuleBody layer constraint val additional_params, p).

(** The branch for AREA. *)
Definition parse_area_body (p : Parser) : Res (RuleBody * Parser) :=
  let (layer, p) := take_value_if [IDENTIFIER] EmptyString p in
  let (constraint, p) := take_value_if [LT; GT] EmptyString p in
  '(val, p) <- take_float_if_number 0%Q p ;;
  Done (mkRuleBody layer constraint val [], p).

(** The branch for DENSITY. *)
Definition parse_density_body (fuel : nat) (p : Parser) : Res (RuleBody * Parser) :=
  let (layer, p) := take_value_if [IDENTIFIER] EmptyString p in
  '(additional_params, p) <-
    (if cur_is WINDOW p then
       let p := p_advance p in
       (* Parse window dimensions *)
       '(window_params, p) <-
         while_ fuel
           (fun st : list Q * Parser =>
              cur_is NUMBER (snd st) && (List.length (fst st) <? 2))
           (fun st =>
              let (ws, p) := st in
              match current_token p with
              | Some t =>
                  match float (value t) with
                  | Some x => Done (ws ++ [x], p_advance p)
                  | None => Raised "ValueError"
                  end
              | None => Done st
              end)
           ([], p) ;;
       Done ([("window", PWindow window_params)], p)
     else Done ([], p)) ;;
  let (constraint, p) := take_value_if [LT; GT] EmptyString p in
  '(val, p) <- take_float_if_number 0%Q p ;;
  Done (mkRuleBody layer constraint val additional_params, p).

Definition parse_drc_rule (fuel : nat) (p : Parser) : Res Parser :=
  match current_token p with
  | None => Done (p_advance p)
  | Some t0 =>
      if negb (TokenType_eqb (type t0) IDENTIFIER) then
        Done (p_advance p)            (* Skip invalid token *)
      else
        let rule_name := value t0 in
        let rule_line := line t0 in
        let p := p_advance p in
        if negb (cur_is LBRACE p) then
          Done p                      (* Not a rule definition *)
        else
          let p := p_advance p in     (* Skip the opening brace *)
          p <- skip_newlines fuel p ;;
          p <- skip_comments fuel p ;;
          (* Parse rule description *)
          let (description, p) :=
            if cur_is AT p then
              take_value_if [STRING] EmptyString (p_advance p)
            else (EmptyString, p) in
          p <- skip_newlines fuel p ;;
          (* Parse rule body *)
          '(rule_type, body, p) <-
            match current_token p with
            | None => Done (EmptyString, mkRuleBody EmptyString EmptyString 0%Q [], p)
            | Some t =>
                let rule_type := value t in
                let p := p_advance p in
                '(body, p) <-
                  (if in_strings rule_type ["INTERNAL1"; "INTERNAL2"; "EXTERNAL"; "EXTERNAL1"]
                   then parse_measure_body fuel p
                   else if String.eqb rule_type "AREA" then parse_area_body p
                   else if String.eqb rule_type "DENSITY" then parse_density_body fuel p
                   else Done (mkRuleBody EmptyString EmptyString 0%Q [], p)) ;;
                Done (rule_type, body, p)
            end ;;
          (* Skip to closing brace *)
          p <- while_ fuel
                 (fun p => match current_token p with
                           | Some t => negb (TokenType_eqb (type t) RBRACE)
                           | None => false
                           end)
                 (fun p => Done (p_advance p)) p ;;
          let p := if cur_is RBRACE p then p_advance p else p in
          Done (add_rule p (mkDRCRule rule_name description rule_type
                              (b_layer body) (b_constraint body) (b_value body)
                              rule_line (b_additional_params body)))
  end.

(** One iteration of the loop of [parse]: the flag is [false] on [break]. *)
Definition parse_step (fuel : nat) (p : Parser) : Res (bool * Parser) :=
  p <- skip_newlines fuel p ;;
  p <- skip_comments fuel p ;;
  match current_token p with
  | None => Done (false, p)
  | Some t =>
      if TokenType_eqb (type t) EOF then Done (false, p)
      else if TokenType_eqb (type t) INCLUDE then Done (true, parse_include p)
      else if TokenType_eqb (type t) LAYER then
        p <- parse_layer_definition fuel p ;; Done (true, p)
      else if TokenType_eqb (type t) LAYOUT then
        (* Skip layout system declaration *)
        p <- while_ fuel (cur_not_in [NEWLINE; EOF]) (fun p => Done (p_advance p)) p ;;
        Done (true, p)
      else if TokenType_eqb (type t) IDENTIFIER then
        match peek p with
        | Some next_token =>
            if TokenType_eqb (type next_token) ASSIGN then
              p <- parse_derived_layer fuel p ;; Done (true, p)
            else if TokenType_eqb (type next_token) LBRACE then
              p <- parse_drc_rule fuel p ;; Done (true, p)
            else Done (true, p_advance p)     (* Skip unknown identifier *)
        | None => Done (true, p_advance p)
        end
      else Done (true, p_advance p)
  end.

Fixpoint parse_loop (fuel loops : nat) (p : Parser) : Res Parser :=
  if cur_not_in [EOF] p then
    match loops with
    | O => Timeout
    | S loops' =>
        '(continue, p') <- parse_step fuel p ;;
        if continue then parse_loop fuel loops' p' else Done p'
    end
  else Done p.

Record ParseResult : Set := mkParseResult {
  r_layers : list LayerDefinition;
  r_rules : list DRCRule;
  r_includes : list string;
  r_errors : list string;
  r_warnings : list string
}.

(** [SVRFParser(tokens).parse()], every loop being allowed [fuel]
    iterations. *)
Definition parse (fuel : nat) (toks : list Token) : Res ParseResult :=
  p <- parse_loop fuel fuel (new_parser toks) ;;
  Done (mkParseResult (layers p) (rules p) (includes p) (errors p) (warnings p)).

(** ** Vocabulary for statements about the parser *)

(** A token of a layer expression, and a token that ends one. *)
Definition expr_token (t : Token) : Prop :=
  type t <> NEWLINE /\ type t <> EOF /\ type t <> LBRACE.

Definition stop_token (t : Token) : Prop :=
  type t = NEWLINE \/ type t = EOF \/ type t = LBRACE.

(** The keyword form: [LAYER name = expr], then a stop token. *)
Definition keyword_form (nm : string) (ln : nat) (c0 c1 c2 ln1 ln2 : nat)
  (expr : list Token) (stop : Token) (tail : list Token) : list Token :=
  mkToken LAYER "LAYER" ln c0 :: mkToken IDENTIFIER nm ln1 c1
    :: mkToken ASSIGN "=" ln2 c2 :: expr ++ stop :: tail.

(** The bare form: [name = expr], then a stop token. *)
Definition bare_form (nm : string) (ln : nat) (c1 c2 ln2 : nat)
  (expr : list Token) (stop : Token) (tail : list Token) : list Token :=
  mkToken IDENTIFIER nm ln c1 :: mkToken ASSIGN "=" ln2 c2 :: expr ++ stop :: tail.

(** The tokens of the text [R {], a rule block whose closing brace is
    missing. *)
Definition unclosed_rule_tokens : list Token :=
  [mkToken IDENTIFIER "R" 1 1; mkToken LBRACE "{" 1 3; mkToken EOF EmptyString 1 4].

(** The two lines [LAYER M1] and [LAYER M2 7]. *)
Definition layer_without_number_text : string :=
  "LAYER M1" ++ str1 NL ++ "LAYER M2 7".

End SvrfDrcParser.

(* ================================================================== *)
(** * Rebuilding a text from its tokens *)
(* ================================================================== *)

(** The repository has no function that rebuilds a text from tokens; the
    one below follows the words of the property it is stated for: the values
    of the tokens are joined, in order, each behind the blanks that stand in
    front of it in the original text.  It runs the main loop of [tokenize]:
    one iteration passes over blanks and then appends at most one token, and
    the rebuilt text takes these blanks and the value of that token.  The
    end-of-input token has the empty value. *)

Module Retokenize.

Import Py SvrfDrcParser.

(** The blanks that [skip_whitespace] passes over. *)
Definition blanks_passed (lx : Lexer) : string :=
  take (String.length (rest lx) - String.length (rest (skip_whitespace lx))) (rest lx).

(** The values of some tokens, joined. *)
Definition join_values (toks : list Token) : string :=
  String.concat EmptyString (map value toks).

Fixpoint reconstruct_loop (fuel : nat) (lx : Lexer) : option string :=
  match current_char lx with
  | None => Some EmptyString
  | Some _ =>
      match tokenize_step lx [] with
      | None => Some (blanks_passed lx)
      | Some (toks, lx') =>
          match fuel with
          | O => None
          | S fuel' =>
              match reconstruct_loop fuel' lx' with
              | Some r => Some (blanks_passed lx ++ join_values toks ++ r)%string
              | None => None
              end
          end
      end
  end.

Definition reconstruct (text : string) : option string :=
  reconstruct_loop (String.length text) (mkLexer text 1 1).

(** The kinds of the tokens of the rebuilt text. *)
Definition retokenized_kinds (text : string) : option (list TokenType) :=
  match reconstruct text with
  | Some text' => option_map kinds (tokenize text')
  | None => None
  end.

(** The tokens appended by one iteration are one token whose value is the
    text it was read from: not none (a skipped character), and neither a
    string literal nor a comment, whose values leave the delimiters out. *)
Definition kept_verbatim (toks : list Token) : bool :=
  match toks with
  | [t] => negb (TokenType_eqb (type t) STRING) && negb (TokenType_eqb (type t) COMMENT)
  | _ => false
  end.

Fixpoint verbatim_loop (fuel : nat) (lx : Lexer) : bool :=
  match current_char lx with
  | None => true
  | Some _ =>
      match tokenize_step lx [] with
      | None => true
      | Some (toks, lx') =>
          kept_verbatim toks
          && match fuel with
             | O => false
             | S fuel' => verbatim_loop fuel' lx'
             end
      end
  end.

(** [tokenize] makes no string-literal token and no comment token of the
    text, and skips none of its characters. *)
Definition verbatim (text : string) : bool :=
  verbatim_loop (String.length text) (mkLexer text 1 1).

(** A character that the lexer takes into a token value as it is, or a
    blank. *)
Definition plain_char (c : ascii) : bool :=
  is_blank c || Ascii.eqb c NL || isalnum c || Ascii.eqb c "_"
  || match char_lookup single_char_tokens c with Some _ => true | None => false end.

(** A text of blanks, newlines, letters, digits, underscores, the ten
    punctuation marks, and dots that are followed by a digit: a text without
    string literal, comment or unrecognized character. *)
Fixpoint plain (s : string) : bool :=
  match s with
  | EmptyString => true
  | String c r =>
      (plain_char c
       || (Ascii.eqb c "." && match r with String d _ => isdigit d | EmptyString => false end))
      && plain r
  end.

(** A quoted word. *)
Definition quoted_word : string := (dq ++ "a" ++ dq)%string.

End Retokenize.

(* ================================================================== *)
(** * Python's [re.search] on the patterns of the sources *)
(* ================================================================== *)

(** The patterns of the sources are sequences of literal texts, of
    alternatives between literal texts, and of character classes repeated
    with [+] or [*], each of them captured as a group or not.  [re.search]
    looks for the leftmost position where the pattern matches; a repetition
    is greedy and gives characters back, one at a time, when what follows
    does not match; alternatives are tried in the order written. *)

Module Re.

Import Py.

Inductive Atom : Type :=
  | Lit (s : string)                       (* the text [s] *)
  | Alt (alts : list string)               (* [a|b|c] *)
  | Rep (cls : ascii -> bool) (min : nat). (* [cls+] when [min] is 1, [cls*] when 0 *)

(** An atom, and whether it is a group [( ... )]. *)
Definition Item : Type := bool * Atom.
Definition Pattern : Type := list Item.

Definition grp (a : Atom) : Item := (true, a).
Definition raw (a : Atom) : Item := (false, a).

(** [\w], [\s], [\d] and the bracket classes of the sources. *)
Definition word (c : ascii) : bool := isalnum c || Ascii.eqb c "_".
Definition space (c : ascii) : bool := isspace c.
Definition digit_dot (c : ascii) : bool := isdigit c || Ascii.eqb c ".".
Definition cmp_char (c : ascii) : bool :=
  Ascii.eqb c "<" || Ascii.eqb c ">" || Ascii.eqb c "=".
Definition not_dquote (c : ascii) : bool := negb (Ascii.eqb c DQUOTE).

(** Equality of characters, up to case under [re.IGNORECASE].  The case of
    the letters A to Z is folded, as Python does on ASCII text.  On other
    text Python folds more: a few letters outside ASCII also match an ASCII
    letter (the long s matches S, the dotless i matches I, the Kelvin sign
    matches K).  A statement that depends on which characters a letter of a
    pattern matches is therefore made for ASCII texts only. *)
Definition char_eq (ignorecase : bool) (a b : ascii) : bool :=
  if ignorecase then Ascii.eqb (lower a) (lower b) else Ascii.eqb a b.

(** Does the text [l] stand at the start of [s]? *)
Fixpoint lit_at (ignorecase : bool) (l s : string) : bool :=
  match l, s with
  | EmptyString, _ => true
  | String a l', String b s' => char_eq ignorecase a b && lit_at ignorecase l' s'
  | String _ _, EmptyString => false
  end.

(** The number of characters at the start of [s] that are in [cls]. *)
Fixpoint run (cls : ascii -> bool) (s : string) : nat :=
  match s with
  | String c s' => if cls c then S (run cls s') else 0
  | EmptyString => 0
  end.

(** The first success among the lengths [n], [n - 1], ..., [min]. *)
Fixpoint longest_first {A : Type} (n min : nat) (k : nat -> option A) : option A :=
  if n <? min then None
  else
    match k n with
    | Some r => Some r
    | None =>
        match n with
        | O => None
        | S n' => longest_first n' min k
        end
    end.

(** The first success among the alternatives, in order. *)
Fixpoint first_alt {A : Type} (alts : list string) (k : string -> option A) : option A :=
  match alts with
  | [] => None
  | l :: alts' =>
      match k l with
      | Some r => Some r
      | None => first_alt alts' k
      end
  end.

(** [pattern.match(s)]: the groups of the first way, in backtracking order,
    in which the pattern matches at the start of [s]. *)
Fixpoint match_here (ignorecase : bool) (pat : Pattern) (s : string)
  : option (list string) :=
  match pat with
  | [] => Some []
  | (captured, a) :: pat' =>
      let continue (n : nat) : option (list string) :=
        match match_here ignorecase pat' (drop n s) with
        | Some groups => Some (if captured then take n s :: groups else groups)
        | None => None
        end in
      match a with
      | Lit l =>
          if lit_at ignorecase l s then continue (String.length l) else None
      | Alt alts =>
          first_alt alts
            (fun l => if lit_at ignorecase l s then continue (String.length l) else None)
      | Rep cls min => longest_first (run cls s) min continue
      end
  end.

(** [re.search(pattern, s)] (with [flags=re.IGNORECASE] when [ignorecase]):
    the groups of the match at the leftmost position that has one. *)
Fixpoint search (ignorecase : bool) (pat : Pattern) (s : string)
  : option (list string) :=
  match match_here ignorecase pat s with
  | Some groups => Some groups
  | None =>
      match s with
      | EmptyString => None
      | String _ s' => search ignorecase pat s'
      end
  end.

(** [match.group(i)], for [i] from 1. *)
Definition group (groups : list string) (i : nat) : string :=
  nth (i - 1) groups EmptyString.

(** ** Vocabulary for statements about matches *)

(** All the characters of [s] are in the class [cls]. *)
Fixpoint all_in (cls : ascii -> bool) (s : string) : bool :=
  match s with
  | EmptyString => true
  | String c s' => cls c && all_in cls s'
  end.

(** [s] is empty or starts with a character outside [cls]. *)
Definition stops (cls : ascii -> bool) (s : string) : bool :=
  match s with
  | EmptyString => true
  | String c _ => negb (cls c)
  end.

Definition nonempty (s : string) : bool := negb (is_empty s).

(** The groups of a match, with the text of an atom in front when the atom
    is a group. *)
Definition with_group (captured : bool) (g : string) (groups : list string)
  : list string :=
  if captured then (g :: groups)%list else groups.

(** [s] is empty or ends with a character outside [cls]. *)
Fixpoint ends_outside (cls : ascii -> bool) (s : string) : bool :=
  match s with
  | EmptyString => true
  | String c EmptyString => negb (cls c)
  | String _ s' => ends_outside cls s'
  end.

End Re.

(* ================================================================== *)
(** * final_enhanced_translator.py *)
(* ================================================================== *)

Module FinalEnhancedTranslator.

Import Py Re.

Record Layer : Set := mkLayer {
  name : string;
  gds_number : option Z;
  expression : option string;
  layer_line_number : nat
}.

(** The [antenna_params] dictionary: its two keys. *)
Record AntennaParams : Set := mkAntennaParams {
  gate_layer : string;
  max_ratio : Q
}.

Record DRCRule : Set := mkDRCRule {
  rule_name : string;
  description : string;
  rule_type : string;
  layer : string;
  operator : string;
  value : Q;
  line_number : nat;
  extra_params : option (list string);
  second_layer : option string;
  antenna_params : option AntennaParams
}.

Record ICVRule : Set := mkICVRule {
  icv_name : string;
  icv_description : string;
  icv_layer : string;
  operation : string;
  icv_syntax : string;
  icv_line_number : nat
}.

(** The regular expressions of [parse_rule_content]. *)

(* @\s*Q([^Q]+)Q, where Q stands for the double quote *)
Definition description_re : Pattern :=
  [raw (Lit "@"); raw (Rep space 0); raw (Lit dq); grp (Rep not_dquote 1); raw (Lit dq)].

(* (\w+)\s+NOT\s+INSIDE\s+(\w+)\s+BY\s*(>=|==|<=)\s*([\d.]+) *)
Definition enclosure_re : Pattern :=
  [grp (Rep word 1); raw (Rep space 1); raw (Lit "NOT"); raw (Rep space 1);
   raw (Lit "INSIDE"); raw (Rep space 1); grp (Rep word 1); raw (Rep space 1);
   raw (Lit "BY"); raw (Rep space 0); grp (Alt [">="; "=="; "<="]);
   raw (Rep space 0); grp (Rep digit_dot 1)].

(* ANTENNA\s+(\w+)\s+(\w+)\s+MAX\s+RATIO\s+([\d.]+) *)
Definition antenna_re : Pattern :=
  [raw (Lit "ANTENNA"); raw (Rep space 1); grp (Rep word 1); raw (Rep space 1);
   grp (Rep word 1); raw (Rep space 1); raw (Lit "MAX"); raw (Rep space 1);
   raw (Lit "RATIO"); raw (Rep space 1); grp (Rep digit_dot 1)].

(* RECTANGLE\s+(\w+)\s+LENGTH\s*([<>=]+)\s*([\d.]+)\s+WIDTH\s*([<>=]+)\s*([\d.]+) *)
Definition rectangle_re : Pattern :=
  [raw (Lit "RECTANGLE"); raw (Rep space 1); grp (Rep word 1); raw (Rep space 1);
   raw (Lit "LENGTH"); raw (Rep space 0); grp (Rep cmp_char 1); raw (Rep space 0);
   grp (Rep digit_dot 1); raw (Rep space 1); raw (Lit "WIDTH"); raw (Rep space 0);
   grp (Rep cmp_char 1); raw (Rep space 0); grp (Rep digit_dot 1)].

(** The tail common to the measure patterns: [\s*(<|>|==)\s*([\d.]+)]. *)
Definition op_value : Pattern :=
  [raw (Rep space 0); grp (Alt ["<"; ">"; "=="]); raw (Rep space 0);
   grp (Rep digit_dot 1)].

(* (EXTERNAL1)\s+(\w+)\s*(<|>|==)\s*([\d.]+)\s+SAME_MASK *)
Definition same_mask_re : Pattern :=
  [grp (Lit "EXTERNAL1"); raw (Rep space 1); grp (Rep word 1)] ++ op_value
  ++ [raw (Rep space 1); raw (Lit "SAME_MASK")].

(* EXTERNAL\s+(\w+)\s+(\w+)\s*(<|>|==)\s*([\d.]+) *)
Definition inter_layer_re : Pattern :=
  [raw (Lit "EXTERNAL"); raw (Rep space 1); grp (Rep word 1); raw (Rep space 1);
   grp (Rep word 1)] ++ op_value.

(** [KEYWORD\s+(\w+)\s*(<|>|==)\s*([\d.]+)], the pattern of EXTERNAL1, AREA,
    INTERNAL2 and INTERNAL1. *)
Definition keyword_re (keyword : string) : Pattern :=
  [raw (Lit keyword); raw (Rep space 1); grp (Rep word 1)] ++ op_value.

(* DENSITY\s+(\w+)\s+WINDOW\s+([\d.]+)\s+([\d.]+)\s*(<|>|==)\s*([\d.]+) *)
Definition density_re : Pattern :=
  [raw (Lit "DENSITY"); raw (Rep space 1); grp (Rep word 1); raw (Rep space 1);
   raw (Lit "WINDOW"); raw (Rep space 1); grp (Rep digit_dot 1); raw (Rep space 1);
   grp (Rep digit_dot 1)] ++ op_value.

(** [float(s)], raising [ValueError]. *)
Definition to_float (s : string) : Res Q :=
  match float s with
  | Some x => Done x
  | None => Raised "ValueError"
  end.

(** The local variables of [parse_rule_content] that the classification
    sets. *)
Record Classified : Set := mkClassified {
  c_rule_type : string;
  c_layer : string;
  c_operator : string;
  c_value : Q;
  c_extra_params : list string;
  c_second_layer : option string;
  c_antenna_params : option AntennaParams
}.

(** Their initial values. *)
Definition unclassified : Classified :=
  mkClassified "unknown" EmptyString EmptyString 0%Q [] None None.

(** A rule of one layer, one operator and one value. *)
Definition simple_rule (rule_type layer operator : string) (val : Q) : Classified :=
  mkClassified rule_type layer operator val [] None None.

(** The [if ... elif ...] chain of [parse_rule_content]. *)
Definition classify (content : string) : Res Classified :=
  (* 1. Enclosure rules *)
  match search false enclosure_re content with
  | Some m =>
      val <- to_float (group m 4) ;;
      Done (mkClassified "enclosure" (group m 1) (group m 3) val []
              (Some (group m 2)) None)
  | None =>
  (* 2. Antenna rules *)
  if contains "ANTENNA" content && contains "MAX RATIO" content then
    match search false antenna_re content with
    | Some m =>
        ratio <- to_float (group m 3) ;;
        val <- to_float (group m 3) ;;
        Done (mkClassified "antenna" (group m 1) "MAX_RATIO" val []
                None (Some (mkAntennaParams (group m 2) ratio)))
    | None => Done unclassified
    end
  (* 3. Pattern matching rules *)
  else if contains "RECTANGLE" content then
    match search false rectangle_re content with
    | Some m =>
        Done (mkClassified "pattern_matching" (group m 1) "RECTANGLE" 0%Q
                [("LENGTH" ++ group m 2 ++ group m 3)%string;
                 ("WIDTH" ++ group m 4 ++ group m 5)%string]
                None None)
    | None => Done unclassified
    end
  (* 4. Multi-patterning rules *)
  else if contains "SAME_MASK" content then
    match search false same_mask_re content with
    | Some m =>
        val <- to_float (group m 4) ;;
        Done (mkClassified "multi_patterning" (group m 2) (group m 3) val
                ["SAME_MASK"] None None)
    | None => Done unclassified
    end
  (* 5. Inter-layer spacing *)
  else if contains "EXTERNAL" content then
    match search false inter_layer_re content with
    | Some m =>
        val <- to_float (group m 4) ;;
        Done (mkClassified "external" (group m 1) (group m 3) val []
                (Some (group m 2)) None)
    | None =>
        (* Single layer spacing *)
        match search false (keyword_re "EXTERNAL1") content with
        | Some m =>
            val <- to_float (group m 3) ;;
            Done (simple_rule "external1" (group m 1) (group m 2) val)
        | None => Done unclassified
        end
    end
  (* 6. Density rules *)
  else if contains "DENSITY" content && contains "WINDOW" content then
    match search false density_re content with
    | Some m =>
        val <- to_float (group m 5) ;;
        Done (mkClassified "density" (group m 1) (group m 4) val
                [group m 2; group m 3] None None)
    | None => Done unclassified
    end
  (* 7. Area rules *)
  else if contains "AREA" content then
    match search false (keyword_re "AREA") content with
    | Some m =>
        val <- to_float (group m 3) ;;
        Done (simple_rule "area" (group m 1) (group m 2) val)
    | None => Done unclassified
    end
  (* 8. Length rules *)
  else if contains "INTERNAL2" content then
    match search false (keyword_re "INTERNAL2") content with
    | Some m =>
        val <- to_float (group m 3) ;;
        Done (simple_rule "internal2" (group m 1) (group m 2) val)
    | None => Done unclassified
    end
  (* 9. Width rules *)
  else if contains "INTERNAL1" content then
    match search false (keyword_re "INTERNAL1") content with
    | Some m =>
        val <- to_float (group m 3) ;;
        Done (simple_rule "internal1" (group m 1) (group m 2) val)
    | None => Done unclassified
    end
  else Done unclassified
  end.

(** The description: the group of [description_re], the empty string when
    there is no match. *)
Definition extract_description (content : string) : string :=
  match search false description_re content with
  | Some m => group m 1
  | None => EmptyString
  end.

(** [extra_params if extra_params else None] *)
Definition in_strings (s : string) (l : list string) : bool :=
  existsb (String.eqb s) l.

Definition list_or_none (l : list string) : option (list string) :=
  match l with [] => None | _ => Some l end.

(** The rule that [parse_rule_content] appends. *)
Definition classified_rule (rule_name content : string) (line_num : nat)
  : Res DRCRule :=
  let description := extract_description content in
  c <- classify content ;;
  Done (mkDRCRule rule_name description (c_rule_type c) (c_layer c) (c_operator c)
          (c_value c) line_num (list_or_none (c_extra_params c))
          (c_second_layer c) (c_antenna_params c)).

(** The translator object: the fields that parsing writes. *)
Record Translator : Set := mkTranslator {
  layers : list Layer;
  rules : list DRCRule;
  includes : list string;
  errors : list string
}.

Definition new_translator : Translator := mkTranslator [] [] [] [].

Definition add_rule (self : Translator) (r : DRCRule) : Translator :=
  mkTranslator (layers self) (rules self ++ [r]) (includes self) (errors self).

Definition add_layer (self : Translator) (l : Layer) : Translator :=
  mkTranslator (layers self ++ [l]) (rules self) (includes self) (errors self).

Definition add_include (self : Translator) (s : string) : Translator :=
  mkTranslator (layers self) (rules self) (includes self ++ [s]) (errors self).

Definition parse_rule_content (self : Translator) (rule_name content : string)
  (line_num : nat) : Res Translator :=
  r <- classified_rule rule_name content line_num ;;
  Done (add_rule self r).

(** [current_line.count('{')] and [current_line.count('}')] *)
Definition open_braces (current_line : string) : nat := count "{" current_line.
Definition close_braces (current_line : string) : nat := count "}" current_line.

(** The [while i < len(lines)] loop of [parse_rule_block], entered at line
    [i] with [ls = lines[i:]]: the index at which it stops, [len(lines)] when
    it runs off the end, and the lines collected. *)
Fixpoint scan_block (ls : list string) (i : nat) (rule_lines : list string)
  (brace_count : Z) (found_opening_brace : bool) : nat * list string :=
  match ls with
  | [] => (i, rule_lines)
  | l :: ls' =>
      let current_line := strip l in
      let rule_lines :=
        if is_empty current_line then rule_lines else rule_lines ++ [current_line] in
      let found_opening_brace :=
        if 0 <? open_braces current_line then true else found_opening_brace in
      let brace_count :=
        (brace_count + (Z.of_nat (open_braces current_line)
                        - Z.of_nat (close_braces current_line)))%Z in
      if found_opening_brace && (brace_count =? 0)%Z
      then (i, rule_lines)
      else scan_block ls' (S i) rule_lines brace_count found_opening_brace
  end.

(** The name of the rule, its content and the index returned by
    [parse_rule_block]. *)
Definition rule_block (lines : list string) (start_idx : nat)
  : Res (string * string * nat) :=
  match nth_error lines start_idx with
  | None => Raised "IndexError"
  | Some l =>
      let line := strip l in
      let rule_name :=
        if contains "{" line then strip (split_first "{" line) else strip line in
      let (i, rule_lines) := scan_block (skipn start_idx lines) start_idx [] 0%Z false in
      Done (rule_name, join " " rule_lines, i)
  end.

Definition parse_rule_block (self : Translator) (lines : list string)
  (start_idx line_num : nat) : Res (nat * Translator) :=
  '(rule_name, rule_content, i) <- rule_block lines start_idx ;;
  self <- parse_rule_content self rule_name rule_content line_num ;;
  Done (i, self).

(** [int(s)] for a string without spaces: an optional sign and decimal
    digits (the underscores that Python allows between digits are left
    out). *)
Definition int (s : string) : Res Z :=
  let digits (d : string) (sign : Z) : Res Z :=
    if is_empty d then Raised "ValueError"
    else match digits_value 0 d with
         | Some n => Done (sign * Z.of_N n)%Z
         | None => Raised "ValueError"
         end in
  match s with
  | String "-" d => digits d (-1)%Z
  | String "+" d => digits d 1%Z
  | _ => digits s 1%Z
  end.

(* INCLUDE\s+Q([^Q]+)Q, where Q stands for the double quote *)
Definition include_re : Pattern :=
  [raw (Lit "INCLUDE"); raw (Rep space 1); raw (Lit dq); grp (Rep not_dquote 1);
   raw (Lit dq)].

(** [s.split('=', 1)[1]]: the text after the first ['=']. *)
Fixpoint after_first (c : ascii) (s : string) : string :=
  match s with
  | EmptyString => EmptyString
  | String a s' => if Ascii.eqb a c then s' else after_first c s'
  end.

(** The body of the [try] of [parse_file] for the stripped line [line] at
    index [i]: the index and the translator after it. *)
Definition parse_line (self : Translator) (lines : list string) (i : nat)
  (line : string) : Res (nat * Translator) :=
  let line_num := i + 1 in
  if startswith "INCLUDE" line then
    match search false include_re line with
    | Some m => Done (i, add_include self (group m 1))
    | None => Done (i, self)
    end
  else if startswith "LAYOUT" line then Done (i, self)
  else if startswith "LAYER" line then
    match split_ws line with
    | _ :: layer_name :: number :: _ =>
        gds_number <- int number ;;
        Done (i, add_layer self (mkLayer layer_name (Some gds_number) None line_num))
    | _ => Done (i, self)
    end
  else if contains "=" line && negb (startswith "    " line)
          && negb (contains "{" line) && negb (contains "NOT INSIDE" line) then
    Done (i, add_layer self
               (mkLayer (strip (split_first "=" line)) None
                  (Some (strip (after_first "=" line))) line_num))
  else if contains "{" line
          || match nth_error lines (i + 1) with
             | Some next => contains "{" next
             | None => false
             end then
    parse_rule_block self lines i line_num
  else Done (i, self).

(** The loop of [parse_file] over the lines read from the file.  An
    exception raised for a line is caught and dropped, and the loop goes on
    with the next line. *)
Fixpoint parse_lines (fuel : nat) (self : Translator) (lines : list string) (i : nat)
  : option Translator :=
  match nth_error lines i with
  | None => Some self                     (* i >= len(lines) *)
  | Some l =>
      match fuel with
      | O => None
      | S fuel' =>
          let line := strip l in
          if is_empty line || startswith "//" line then
            parse_lines fuel' self lines (i + 1)
          else
            match parse_line self lines i line with
            | Done (i', self') => parse_lines fuel' self' lines (i' + 1)
            | _ => parse_lines fuel' self lines (i + 1)     (* except: pass *)
            end
      end
  end.

(** [parse_file] on the lines of a file that exists. *)
Definition parse_file (lines : list string) : option Translator :=
  parse_lines (List.length lines) new_translator lines 0.

(** The derived-layer branch of [translate_to_icv]. *)
Definition translate_expression (expression : string) : string :=
  replace " NOT " " ! " (replace " OR " " | " (replace " AND " " & " expression)).

(** [icv_operator] of the enclosure branch of [translate_rule]. *)
Definition icv_operator (rule : DRCRule) : string :=
  if in_strings (operator rule) [">="; "=="] then ">=" else operator rule.

Section Translate.

Local Open Scope string_scope.

(** [str(x)] for a float: Python's shortest decimal representation, which
    is not modelled. *)
Variable repr_float : Q -> string.

Definition check (fn args op : string) (val : Q) : string :=
  fn ++ "(" ++ args ++ ") " ++ op ++ " " ++ repr_float val.

Definition translate_rule (rule : DRCRule) : ICVRule :=
  let ty := rule_type rule in
  let '(icv_syntax, operation) :=
    if String.eqb ty "internal1" then
      (check "width" (layer rule) (operator rule) (value rule), "width check")
    else if String.eqb ty "internal2" then
      (check "length" (layer rule) (operator rule) (value rule), "length check")
    else if String.eqb ty "external1" then
      (check "space" (layer rule) (operator rule) (value rule), "spacing check")
    else if String.eqb ty "external" then
      (match second_layer rule with
       | Some (String c l2) =>
           check "space" (layer rule ++ ", " ++ String c l2) (operator rule) (value rule)
       | _ => check "space" (layer rule) (operator rule) (value rule)
       end, "inter-layer spacing")
    else if String.eqb ty "area" then
      (check "area" (layer rule) (operator rule) (value rule), "area check")
    else if String.eqb ty "density" then
      (match extra_params rule with
       | Some (wx :: wy :: _) =>
           check "density" (layer rule ++ ", " ++ wx ++ ", " ++ wy)
             (operator rule) (value rule)
       | _ => check "density" (layer rule) (operator rule) (value rule)
       end, "density check")
    else if String.eqb ty "enclosure" then
      (* Convert SVRF enclosure to ICV format *)
      let outer_layer :=
        match second_layer rule with Some l => l | None => "None" end in
      let inner_layer := layer rule in
      (check "enclosure" (outer_layer ++ ", " ++ inner_layer) (icv_operator rule)
         (value rule), "enclosure check")
    else if String.eqb ty "antenna" then
      let gate :=
        match antenna_params rule with Some a => gate_layer a | None => "GATE" end in
      (check "antenna_ratio" (layer rule ++ ", " ++ gate) "<=" (value rule),
       "antenna check")
    else if String.eqb ty "pattern_matching" then
      ("pattern_check(" ++ layer rule ++ ", rectangle)", "pattern matching")
    else if String.eqb ty "multi_patterning" then
      (check "space_same_mask" (layer rule) (operator rule) (value rule),
       "multi-patterning")
    else
      (check "check" (layer rule) (operator rule) (value rule), "generic check") in
  mkICVRule (rule_name rule) (description rule) (layer rule) operation icv_syntax
    (line_number rule).

End Translate.

(** ** Vocabulary for statements about the classifier *)

(** The parts of a text of the shape
    [LAYER1 NOT INSIDE LAYER2 BY <op> <number>]: the two layer names, the
    operator, the number and the white space between them. *)
Record EnclosureShape : Set := mkEnclosureShape {
  inner : string;
  outer : string;
  op : string;
  number : string;
  sp1 : string; sp2 : string; sp3 : string; sp4 : string;   (* not empty *)
  sp5 : string; sp6 : string                                 (* may be empty *)
}.

(** The text of the shape, followed by [post]. *)
Definition shape_text (sh : EnclosureShape) (post : string) : string :=
  (inner sh ++ sp1 sh ++ "NOT" ++ sp2 sh ++ "INSIDE" ++ sp3 sh ++ outer sh
   ++ sp4 sh ++ "BY" ++ sp5 sh ++ op sh ++ sp6 sh ++ number sh ++ post)%string.

(** Layer names are words, the operator is one of the three that the
    enclosure pattern knows, the number is made of digits and dots, and the
    separators are white space. *)
Definition well_formed (sh : EnclosureShape) : bool :=
  nonempty (inner sh) && all_in word (inner sh)
  && nonempty (outer sh) && all_in word (outer sh)
  && in_strings (op sh) [">="; "=="; "<="]
  && nonempty (number sh) && all_in digit_dot (number sh)
  && nonempty (sp1 sh) && all_in space (sp1 sh)
  && nonempty (sp2 sh) && all_in space (sp2 sh)
  && nonempty (sp3 sh) && all_in space (sp3 sh)
  && nonempty (sp4 sh) && all_in space (sp4 sh)
  && all_in space (sp5 sh) && all_in space (sp6 sh).

(** The text in front of the shape holds no [NOT] and does not end inside a
    word. *)
Definition clean_prefix (pre : string) : bool :=
  negb (contains "NOT" pre) && ends_outside word pre.

(** The operator that the enclosure branch of [translate_rule] writes for
    the operator [o] of the rule. *)
Definition normalized (o : string) : string :=
  if String.eqb o "==" then ">=" else o.

(** The braces of a list of lines, counted as [scan_block] counts them from
    [brace_count] and [found_opening_brace]: the cumulative count of opening
    minus closing braces, and whether an opening brace has been seen. *)
Fixpoint tally (ls : list string) (brace_count : Z) (found_opening_brace : bool)
  : Z * bool :=
  match ls with
  | [] => (brace_count, found_opening_brace)
  | l :: ls' =>
      tally ls'
        (brace_count + (Z.of_nat (open_braces (strip l))
                        - Z.of_nat (close_braces (strip l))))%Z
        ((0 <? open_braces (strip l)) || found_opening_brace)
  end.

(** After line [k] of [ls], from [brace_count] and [found_opening_brace], an
    opening brace has been seen and the cumulative count is zero. *)
Definition closes_from (ls : list string) (brace_count : Z)
  (found_opening_brace : bool) (k : nat) : bool :=
  let (b, f) := tally (firstn (S k) ls) brace_count found_opening_brace in
  f && (b =? 0)%Z.

Definition closes_at (ls : list string) (k : nat) : bool := closes_from ls 0%Z false k.

(** The end of a block in the words of the claim C10: the running count of
    opening minus closing braces, character by character, and whether it has
    been positive. *)
Fixpoint running_balance (s : string) (balance : Z) (was_positive : bool)
  : Z * bool :=
  match s with
  | EmptyString => (balance, was_positive)
  | String c s' =>
      let balance :=
        if Ascii.eqb c "{" then (balance + 1)%Z
        else if Ascii.eqb c "}" then (balance - 1)%Z
        else balance in
      running_balance s' balance (was_positive || (0 <? balance)%Z)
  end.

(** The first line, from index [i], at the end of which the running count is
    back to zero after having been positive; the index behind the last line
    when there is none. *)
Fixpoint claimed_end (ls : list string) (i : nat) (balance : Z) (was_positive : bool)
  : nat :=
  match ls with
  | [] => i
  | l :: ls' =>
      let (balance, was_positive) := running_balance l balance was_positive in
      if was_positive && (balance =? 0)%Z then i
      else claimed_end ls' (S i) balance was_positive
  end.

(** A block whose first line closes a brace before it opens one. *)
Definition close_then_open_lines : list string := ["R } {"; "x"; "}"].

(** A block whose description holds a closing brace. *)
Definition brace_in_description_lines : list string :=
  ["R {"; ("@ " ++ dq ++ "a } b" ++ dq)%string; "INTERNAL1 M1 < 0.1"; "}"].

(** The shape of the example [VIA1 NOT INSIDE M1 BY >= 0.05]. *)
Definition example_shape : EnclosureShape :=
  mkEnclosureShape "VIA1" "M1" ">=" "0.05" " " " " " " " " " " " ".

(** A rule body with a rectangle clause, a width clause and an enclosure
    clause. *)
Definition rectangle_width_enclosure : string :=
  "P { RECTANGLE M1 LENGTH > 20.0 WIDTH > 2.0 INTERNAL1 M1 < 0.1 VIA1 NOT INSIDE M1 BY >= 0.05 }".

(** The body of PATTERN_RULE in test_enhanced_translator.py, its lines
    joined: a width clause and a rectangle clause. *)
Definition pattern_rule_content : string :=
  "PATTERN_RULE { @ " ++ dq ++ "Rectangle pattern" ++ dq
  ++ " INTERNAL1 M1 > 20.0 RECTANGLE M1 LENGTH > 20.0 WIDTH > 2.0 }".

(** A width rule whose number has two dots. *)
Definition two_dots_content : string := "W { INTERNAL1 M1 < 1.2.3 }".

End FinalEnhancedTranslator.

(* ================================================================== *)
(** * enhanced_svrf_parser.py *)
(* ================================================================== *)

Module EnhancedSvrfParser.

Import Py Re.

Record PatternParams : Set := mkPatternParams {
  length_op : string;
  length_val : Q;
  width_op : string;
  width_val : Q
}.

Record AntennaParams : Set := mkAntennaParams {
  gate_layer : string;
  max_ratio : Q
}.

Record DRCRule : Set := mkDRCRule {
  rule_name : string;
  description : string;
  rule_type : string;
  layer : string;
  operator : string;
  value : Q;
  line_number : nat;
  extra_params : option (list string);
  enclosure_layers : option (list string);
  antenna_params : option AntennaParams;
  pattern_params : option PatternParams
}.

Definition op_value : Pattern :=
  [raw (Rep space 0); grp (Alt ["<"; ">"; "=="]); raw (Rep space 0);
   grp (Rep digit_dot 1)].

(** [(KEYWORD)\s+(\w+)\s*(<|>|==)\s*([\d.]+)] *)
Definition keyword_re (keyword : string) : Pattern :=
  [grp (Lit keyword); raw (Rep space 1); grp (Rep word 1)] ++ op_value.

(** [self.enhanced_patterns], in the order of the source. *)
Definition enhanced_patterns : list (Pattern * string) :=
  [ (keyword_re "INTERNAL1", "width");
    (keyword_re "INTERNAL2", "length");
    (keyword_re "EXTERNAL1", "spacing");
    ([grp (Lit "EXTERNAL"); raw (Rep space 1); grp (Rep word 1); raw (Rep space 1);
      grp (Rep word 1)] ++ op_value, "inter_spacing");
    (keyword_re "AREA", "area");
    ([grp (Lit "DENSITY"); raw (Rep space 1); grp (Rep word 1); raw (Rep space 1);
      raw (Lit "WINDOW"); raw (Rep space 1); grp (Rep digit_dot 1); raw (Rep space 1);
      grp (Rep digit_dot 1)] ++ op_value, "density");
    ([grp (Lit "DENSITY"); raw (Rep space 1); grp (Rep word 1); raw (Rep space 1);
      raw (Lit "WINDOW"); raw (Rep space 1); grp (Rep digit_dot 1); raw (Rep space 1);
      grp (Rep digit_dot 1); raw (Rep space 0); grp (Alt ["<"; ">"]); raw (Rep space 0);
      grp (Rep digit_dot 1)], "density_simple");
    (* Enclosure patterns *)
    ([grp (Rep word 1); raw (Rep space 1); raw (Lit "NOT"); raw (Rep space 1);
      raw (Lit "INSIDE"); raw (Rep space 1); grp (Rep word 1); raw (Rep space 1);
      raw (Lit "BY"); raw (Rep space 0); grp (Alt [">="; "=="; "<="]);
      raw (Rep space 0); grp (Rep digit_dot 1)], "enclosure");
    (* Antenna patterns *)
    ([raw (Lit "ANTENNA"); raw (Rep space 1); grp (Rep word 1); raw (Rep space 1);
      grp (Rep word 1); raw (Rep space 1); raw (Lit "MAX"); raw (Rep space 1);
      raw (Lit "RATIO"); raw (Rep space 1); grp (Rep digit_dot 1)], "antenna_ratio");
    (* Pattern matching *)
    ([raw (Lit "RECTANGLE"); raw (Rep space 1); grp (Rep word 1); raw (Rep space 1);
      raw (Lit "LENGTH"); raw (Rep space 0); grp (Rep cmp_char 1); raw (Rep space 0);
      grp (Rep digit_dot 1); raw (Rep space 1); raw (Lit "WIDTH"); raw (Rep space 0);
      grp (Rep cmp_char 1); raw (Rep space 0); grp (Rep digit_dot 1)], "rectangle");
    (* Same mask patterns *)
    (keyword_re "EXTERNAL1" ++ [raw (Rep space 1); raw (Lit "SAME_MASK")],
     "same_mask_spacing");
    (* Advanced constraints *)
    (keyword_re "INTERNAL1" ++ [raw (Rep space 1); raw (Lit "OPPOSITE")],
     "opposite_constraint") ].

(** The first pattern of the list that matches, with its groups. *)
Fixpoint first_match (patterns : list (Pattern * string)) (content : string)
  : option (list string * string) :=
  match patterns with
  | [] => None
  | (pattern, rule_category) :: patterns' =>
      match search true pattern content with
      | Some m => Some (m, rule_category)
      | None => first_match patterns' content
      end
  end.

Definition to_float (s : string) : Res Q :=
  match float s with
  | Some x => Done x
  | None => Raised "ValueError"
  end.

(** [match.group(i)], which raises [IndexError] when the pattern has fewer
    than [i] groups. *)
Definition group_of (m : list string) (i : nat) : Res string :=
  match nth_error m (i - 1) with
  | Some g => Done g
  | None => Raised "IndexError"
  end.

Record Classified : Set := mkClassified {
  c_rule_type : string;
  c_layer : string;
  c_operator : string;
  c_value : Q;
  c_extra_params : list string;
  c_enclosure_layers : option (list string);
  c_antenna_params : option AntennaParams;
  c_pattern_params : option PatternParams
}.

Definition unclassified : Classified :=
  mkClassified "unknown" EmptyString EmptyString 0%Q [] None None None.

Definition simple_rule (rule_type layer operator : string) (val : Q)
  (extra : list string) : Classified :=
  mkClassified rule_type layer operator val extra None None None.

(** The body of the [for pattern, rule_category in self.enhanced_patterns]
    loop at the first match. *)
Definition classify_match (m : list string) (rule_category : string) : Res Classified :=
  if String.eqb rule_category "width" then
    val <- to_float (group m 4) ;; Done (simple_rule "internal1" (group m 2) (group m 3) val [])
  else if String.eqb rule_category "length" then
    val <- to_float (group m 4) ;; Done (simple_rule "internal2" (group m 2) (group m 3) val [])
  else if String.eqb rule_category "spacing" then
    val <- to_float (group m 4) ;; Done (simple_rule "external1" (group m 2) (group m 3) val [])
  else if String.eqb rule_category "inter_spacing" then
    val <- to_float (group m 5) ;;
    Done (simple_rule "external" (group m 2) (group m 4) val [group m 3])
  else if String.eqb rule_category "area" then
    val <- to_float (group m 4) ;; Done (simple_rule "area" (group m 2) (group m 3) val [])
  else if String.eqb rule_category "density" || String.eqb rule_category "density_simple" then
    op <- group_of m 6 ;;
    v <- group_of m 7 ;;
    val <- to_float v ;;
    Done (simple_rule "density" (group m 2) op val [group m 3; group m 4])
  else if String.eqb rule_category "enclosure" then
    val <- to_float (group m 4) ;;
    Done (mkClassified "enclosure" (group m 1) (group m 3) val []
            (Some [group m 2]) None None)
  else if String.eqb rule_category "antenna_ratio" then
    ratio <- to_float (group m 3) ;;
    val <- to_float (group m 3) ;;
    Done (mkClassified "antenna" (group m 1) "MAX_RATIO" val [] None
            (Some (mkAntennaParams (group m 2) ratio)) None)
  else if String.eqb rule_category "rectangle" then
    lv <- to_float (group m 3) ;;
    wv <- to_float (group m 5) ;;
    Done (mkClassified "pattern_matching" (group m 1) "RECTANGLE" 0%Q [] None None
            (Some (mkPatternParams (group m 2) lv (group m 4) wv)))
  else if String.eqb rule_category "same_mask_spacing" then
    val <- to_float (group m 4) ;;
    Done (simple_rule "multi_patterning" (group m 2) (group m 3) val ["SAME_MASK"])
  else if String.eqb rule_category "opposite_constraint" then
    val <- to_float (group m 4) ;;
    Done (simple_rule "advanced_constraint" (group m 2) (group m 3) val ["OPPOSITE"])
  else Done unclassified.

Definition classify (content : string) : Res Classified :=
  match first_match enhanced_patterns content with
  | Some (m, rule_category) => classify_match m rule_category
  | None => Done unclassified
  end.

(* @\s*Q([^Q]+)Q, where Q stands for the double quote *)
Definition description_re : Pattern :=
  [raw (Lit "@"); raw (Rep space 0); raw (Lit dq); grp (Rep not_dquote 1); raw (Lit dq)].

Definition list_or_none (l : list string) : option (list string) :=
  match l with [] => None | _ => Some l end.

(** The rule that [extract_enhanced_rule_details] appends. *)
Definition extracted_rule (rule_name content : string) (line_num : nat) : Res DRCRule :=
  let description :=
    match search false description_re content with
    | Some m => group m 1
    | None => EmptyString
    end in
  c <- classify content ;;
  let extra_params :=
    if contains "SINGULAR" content then c_extra_params c ++ ["SINGULAR"]
    else c_extra_params c in
  Done (mkDRCRule rule_name description (c_rule_type c) (c_layer c) (c_operator c)
          (c_value c) line_num (list_or_none extra_params) (c_enclosure_layers c)
          (c_antenna_params c) (c_pattern_params c)).

End EnhancedSvrfParser.

(* ================================================================== *)
(** * simple_svrf_parser.py *)
(* ================================================================== *)

Module SimpleSvrfParser.

Import Py Re.

Record DRCRule : Set := mkDRCRule {
  rule_name : string;
  description : string;
  rule_type : string;
  layer : string;
  operator : string;
  value : Q;
  line_number : nat;
  extra_params : list string
}.

Definition op_value : Pattern :=
  [raw (Rep space 0); grp (Alt ["<"; ">"; "=="]); raw (Rep space 0);
   grp (Rep digit_dot 1)].

Definition keyword_re (keyword : string) : Pattern :=
  [grp (Lit keyword); raw (Rep space 1); grp (Rep word 1)] ++ op_value.

(** The [patterns] of [extract_rule_details], in the order of the source. *)
Definition patterns : list (Pattern * string) :=
  [ (keyword_re "INTERNAL1", "width/area");
    (keyword_re "INTERNAL2", "width/length");
    (keyword_re "EXTERNAL1", "spacing");
    ([grp (Lit "EXTERNAL"); raw (Rep space 1); grp (Rep word 1); raw (Rep space 1);
      raw (Rep word 1)] ++ op_value, "spacing");
    ([grp (Rep word 1); raw (Rep space 1); raw (Lit "NOT"); raw (Rep space 1);
      raw (Lit "INSIDE"); raw (Rep space 1); grp (Rep word 1); raw (Rep space 1);
      raw (Lit "BY"); raw (Rep space 1); raw (Lit "=="); raw (Rep space 0);
      grp (Rep digit_dot 1)], "enclosure");
    (keyword_re "AREA", "area");
    ([grp (Lit "DENSITY"); raw (Rep space 1); grp (Rep word 1); raw (Rep space 1);
      raw (Lit "WINDOW"); raw (Rep space 1); raw (Rep digit_dot 1); raw (Rep space 1);
      raw (Rep digit_dot 1)] ++ op_value, "density") ].

Definition to_float (s : string) : Res Q :=
  match float s with
  | Some x => Done x
  | None => Raised "ValueError"
  end.

(** [s.lower()] *)
Fixpoint str_lower (s : string) : string :=
  match s with
  | EmptyString => EmptyString
  | String c s' => String (lower c) (str_lower s')
  end.

Definition first_match := EnhancedSvrfParser.first_match.

(* @\s*Q([^Q]+)Q, where Q stands for the double quote *)
Definition description_re : Pattern :=
  [raw (Lit "@"); raw (Rep space 0); raw (Lit dq); grp (Rep not_dquote 1); raw (Lit dq)].

(** The rule that [extract_rule_details] appends. *)
Definition extracted_rule (rule_name content : string) (line_num : nat) : Res DRCRule :=
  let description :=
    match search false description_re content with
    | Some m => group m 1
    | None => EmptyString
    end in
  match first_match patterns content with
  | Some (m, rule_category) =>
      let singular := if contains "SINGULAR" content then ["SINGULAR"] else [] in
      if String.eqb rule_category "enclosure" then
        val <- to_float (group m 3) ;;
        Done (mkDRCRule rule_name description "enclosure" (group m 1) "==" val
                line_num singular)
      else
        val <- to_float (group m 4) ;;
        Done (mkDRCRule rule_name description (str_lower (group m 1)) (group m 2)
                (group m 3) val line_num singular)
  | None =>
      Done (mkDRCRule rule_name description "unknown" EmptyString EmptyString 0%Q
              line_num [])
  end.

End SimpleSvrfParser.

(* ================================================================== *)
(** * svrf_to_icv_translator.py *)
(* ================================================================== *)

Module SvrfToIcvTranslator.

Import Py.

(** [translate_layer_expression] *)
Definition translate_layer_expression (expression : string) : string :=
  if is_empty expression then EmptyString
  else
    let icv_expr := replace " AND " " & " expression in
    let icv_expr := replace " OR " " | " icv_expr in
    let icv_expr := replace " NOT " " ! " icv_expr in
    icv_expr.

End SvrfToIcvTranslator.

(* ================================================================== *)
(** * simple_svrf_parser.py: the loop over the lines *)
(* ================================================================== *)

Module SimpleSvrfLines.

Import Py Re.

Record Layer : Set := mkLayer {
  name : string;
  gds_number : option Z;
  expression : option string;
  layer_line_number : nat
}.

(** An entry of [self.errors]: the text
    [f'Error parsing line {line_num}: {e}'], kept as the line number and the
    type of the exception [e]; the message of the exception is not
    modelled. *)
Record LineError : Set := mkLineError {
  error_line : nat;
  exception : string
}.

(** The parser object: the fields that parsing writes. *)
Record Parser : Set := mkParser {
  layers : list Layer;
  rules : list SimpleSvrfParser.DRCRule;
  includes : list string;
  errors : list LineError
}.

Definition new_parser : Parser := mkParser [] [] [] [].

Definition add_layer (self : Parser) (l : Layer) : Parser :=
  mkParser (layers self ++ [l]) (rules self) (includes self) (errors self).

Definition add_rule (self : Parser) (r : SimpleSvrfParser.DRCRule) : Parser :=
  mkParser (layers self) (rules self ++ [r]) (includes self) (errors self).

Definition add_include (self : Parser) (s : string) : Parser :=
  mkParser (layers self) (rules self) (includes self ++ [s]) (errors self).

Definition add_error (self : Parser) (e : LineError) : Parser :=
  mkParser (layers self) (rules self) (includes self) (errors self ++ [e]).

(* INCLUDE\s+Q([^Q]+)Q, where Q stands for the double quote *)
Definition include_re : Pattern :=
  [raw (Lit "INCLUDE"); raw (Rep space 1); raw (Lit dq); grp (Rep not_dquote 1);
   raw (Lit dq)].

Definition parse_include (self : Parser) (line : string) : Parser :=
  match search false include_re line with
  | Some m => add_include self (group m 1)
  | None => self
  end.

(** [parse_layer_definition]: the third word of the line is read as the
    GDS number, by [int], which raises [ValueError] on a word that is no
    numeral. *)
Definition parse_layer_definition (self : Parser) (line : string) (line_num : nat)
  : Res Parser :=
  match split_ws line with
  | p0 :: layer_name :: p2 :: _ =>
      if String.eqb p0 "LAYER" then
        gds_number <- FinalEnhancedTranslator.int p2 ;;
        Done (add_layer self (mkLayer layer_name (Some gds_number) None line_num))
      else Done self
  | _ => Done self
  end.

(** [parse_derived_layer]: the name is what stands before the first ['='],
    the expression what stands behind it, both stripped. *)
Definition parse_derived_layer (self : Parser) (line : string) (line_num : nat)
  : Parser :=
  if contains "=" line then
    add_layer self
      (mkLayer (strip (split_first "=" line)) None
         (Some (strip (FinalEnhancedTranslator.after_first "=" line))) line_num)
  else self.

(** [parse_drc_rule]: the name and the lines of the block are found as in
    [parse_rule_block] of final_enhanced_translator.py, whose loop is the
    same, and the content goes to [extract_rule_details]. *)
Definition parse_drc_rule (self : Parser) (lines : list string)
  (start_idx line_num : nat) : Res (nat * Parser) :=
  '(rule_name, rule_content, i) <- FinalEnhancedTranslator.rule_block lines start_idx ;;
  r <- SimpleSvrfParser.extracted_rule rule_name rule_content line_num ;;
  Done (i, add_rule self r).

(** The body of the [try] of [parse_lines] for the stripped line [line] at
    index [i]: the index and the parser after it. *)
Definition parse_line (self : Parser) (lines : list string) (i : nat)
  (line : string) : Res (nat * Parser) :=
  let line_num := i + 1 in
  if startswith "INCLUDE" line then Done (i, parse_include self line)
  else if startswith "LAYOUT" line then Done (i, self)
  else if startswith "LAYER" line then
    self <- parse_layer_definition self line line_num ;; Done (i, self)
  else if contains "=" line && negb (startswith "    " line)
          && negb (contains "{" line) then
    Done (i, parse_derived_layer self line line_num)
  else if contains "{" line
          || match nth_error lines (i + 1) with
             | Some next => contains "{" next
             | None => false
             end then
    parse_drc_rule self lines i line_num
  else Done (i, self).

(** The loop of [parse_lines].  An exception raised for a line is caught
    and recorded in [self.errors], and the loop goes on with the next
    line. *)
Fixpoint parse_lines (fuel : nat) (self : Parser) (lines : list string) (i : nat)
  : option Parser :=
  match nth_error lines i with
  | None => Some self                     (* i >= len(lines) *)
  | Some l =>
      match fuel with
      | O => None
      | S fuel' =>
          let line := strip l in
          let line_num := i + 1 in
          if is_empty line || startswith "//" line then
            parse_lines fuel' self lines (i + 1)
          else
            match parse_line self lines i line with
            | Done (i', self') => parse_lines fuel' self' lines (i' + 1)
            | Raised e =>
                parse_lines fuel' (add_error self (mkLineError line_num e)) lines (i + 1)
            | Timeout => None
            end
      end
  end.

(** [parse_file] on the lines of a file that exists. *)
Definition parse_file (lines : list string) : option Parser :=
  parse_lines (List.length lines) new_parser lines 0.

(** The derived-layer statement of the specification, in its two forms. *)
Definition keyword_form_line : string := "LAYER NMOS_GATE = POLY AND ACTIVE".
Definition bare_form_line : string := "NMOS_GATE = POLY AND ACTIVE".

End SimpleSvrfLines.

(* ================================================================== *)
(** * Vocabulary for further statements *)
(* ================================================================== *)

Module TokenShape.

Import Py SvrfDrcParser.

(** The kinds that [read_identifier] gives: IDENTIFIER and the kinds of the
    keyword table. *)
Definition word_kinds : list TokenType := IDENTIFIER :: map snd keywords.

Definition is_word_kind (ty : TokenType) : bool :=
  existsb (TokenType_eqb ty) word_kinds.

Fixpoint all_chars (cls : ascii -> bool) (s : string) : bool :=
  match s with
  | EmptyString => true
  | String c s' => cls c && all_chars cls s'
  end.

(** The value of a token agrees with its kind:
    - a word token (an identifier or a keyword) holds a non-empty run of
      letters, digits and underscores, and its kind is the one the keyword
      table gives to this run, IDENTIFIER when the table does not have it;
    - a number holds a non-empty run of digits and dots;
    - a newline, the equality operator and the end of input hold their
      fixed text;
    - a punctuation mark holds its character;
    - strings and comments hold any text. *)
Definition token_ok (t : Token) : bool :=
  if is_word_kind (type t) then
    negb (is_empty (value t))
    && all_chars (fun c => isalnum c || Ascii.eqb c "_") (value t)
    && TokenType_eqb (dict_get keywords (value t) IDENTIFIER) (type t)
  else
    match type t with
    | NUMBER =>
        negb (is_empty (value t))
        && all_chars (fun c => isdigit c || Ascii.eqb c ".") (value t)
    | STRING | COMMENT => true
    | NEWLINE => String.eqb (value t) (str1 NL)
    | EOF => is_empty (value t)
    | EQ => String.eqb (value t) "=="
    | ty =>
        match value t with
        | String c EmptyString =>
            match char_lookup single_char_tokens c with
            | Some ty' => TokenType_eqb ty' ty
            | None => false
            end
        | _ => false
        end
    end.

(** No character of the text is an opening brace. *)
Definition not_open_brace (c : ascii) : bool := negb (Ascii.eqb "{" c).

Definition no_open_brace (s : string) : bool := all_chars not_open_brace s.

End TokenShape.

(** ** SVRFAnalyzer (svrf_drc_parser.py) *)

Module SvrfDrcAnalyzer.

Import Py SvrfDrcParser.

Definition is_some {A : Type} (o : option A) : bool :=
  match o with Some _ => true | None => false end.

(** The dictionary that [get_layer_stats] returns. *)
Record LayerStats : Set := mkLayerStats {
  total_layers : nat;
  primary_layers : nat;
  derived_layers : nat;
  layer_names : list string
}.

Definition get_layer_stats (result : ParseResult) : LayerStats :=
  let primary_layers := filter (fun l => is_some (gds_layer l)) (r_layers result) in
  let derived_layers := filter (fun l => is_some (expression l)) (r_layers result) in
  mkLayerStats (List.length (r_layers result)) (List.length primary_layers)
    (List.length derived_layers) (map name (r_layers result)).

End SvrfDrcAnalyzer.

Module ParserShape.

Import Py SvrfDrcParser.

(** A layer record has a GDS number or an expression, and not both. *)
Definition layer_ok (l : LayerDefinition) : bool :=
  match gds_layer l, expression l with
  | Some _, None => true
  | None, Some _ => true
  | _, _ => false
  end.

(** The one diagnostic that the parser writes. *)
Definition expected_name_error (s : string) : bool :=
  startswith "Expected layer name at line " s.

(** The fields of the parser that hold layers and diagnostics. *)
Definition core (p : Parser) : list LayerDefinition * list string * list string :=
  (layers p, errors p, warnings p).

(** The layers are well formed, every error says that a layer name was
    expected, and there is no warning. *)
Definition sound (c : list LayerDefinition * list string * list string) : Prop :=
  let '(ls, es, ws) := c in
  Forall (fun l => layer_ok l = true) ls
  /\ Forall (fun e => expected_name_error e = true) es
  /\ ws = [].

(** The last token of the list is an end-of-input token. *)
Fixpoint ends_with_eof (ts : list Token) : bool :=
  match ts with
  | [] => false
  | [t] => TokenType_eqb (type t) EOF
  | _ :: ts' => ends_with_eof ts'
  end.

(** No token of the list is an opening brace. *)
Definition no_brace (ts : list Token) : bool :=
  forallb (fun t => negb (TokenType_eqb (type t) LBRACE)) ts.

(** A text of layer statements, and its tokens and parse result. *)
Definition sample_text : string :=
  ("LAYER M1 50" ++ str1 NL ++ "GATE = POLY AND ACTIVE" ++ str1 NL ++ "LAYER 7")%string.

Definition sample_tokens : list Token :=
  Eval vm_compute in
    match tokenize sample_text with Some ts => ts | None => [] end.

Definition sample_result : ParseResult :=
  Eval vm_compute in
    match parse 12 sample_tokens with
    | Done r => r
    | _ => mkParseResult [] [] [] [] []
    end.

(** ** The tokens of a measurement rule *)

Definition of_kind (ty : TokenType) (t : Token) : bool := TokenType_eqb (type t) ty.

(** The tokens of a rule block around one measurement:
    [name { <newlines> @ "description" <newlines> KEYWORD layer <op> number
    parameters <newlines> }], the description being optional. *)
Record RuleShape : Set := mkRuleShape {
  s_name : Token;
  s_lbrace : Token;
  s_nls1 : list Token;
  s_descr : list Token;          (* none, or [@] and a string *)
  s_nls2 : list Token;
  s_kw : Token;
  s_layer : Token;
  s_op : Token;
  s_num : Token;
  s_params : list Token;
  s_nls3 : list Token;
  s_rbrace : Token
}.

(** The tokens up to the last parameter, and all of them. *)
Definition rule_shape_head (sh : RuleShape) : list Token :=
  s_name sh :: s_lbrace sh :: s_nls1 sh ++ s_descr sh ++ s_nls2 sh
    ++ s_kw sh :: s_layer sh :: s_op sh :: s_num sh :: s_params sh.

Definition rule_shape_tokens (sh : RuleShape) : list Token :=
  rule_shape_head sh ++ s_nls3 sh ++ [s_rbrace sh].

Definition descr_ok (descr : list Token) : bool :=
  match descr with
  | [] => true
  | [a; s] => of_kind AT a && of_kind STRING s
  | _ => false
  end.

(** Each token up to the last parameter has its kind; the keyword is one
    of the four measurement keywords, whatever its kind is, as long as it is
    not taken for a newline, a comment or the sign of a description. *)
Definition rule_head_ok (sh : RuleShape) : bool :=
  of_kind IDENTIFIER (s_name sh) && of_kind LBRACE (s_lbrace sh)
  && forallb (of_kind NEWLINE) (s_nls1 sh) && descr_ok (s_descr sh)
  && forallb (of_kind NEWLINE) (s_nls2 sh)
  && in_strings (value (s_kw sh)) ["INTERNAL1"; "INTERNAL2"; "EXTERNAL"; "EXTERNAL1"]%string
  && negb (of_kind NEWLINE (s_kw sh)) && negb (of_kind COMMENT (s_kw sh))
  && negb (of_kind AT (s_kw sh))
  && of_kind IDENTIFIER (s_layer sh)
  && existsb (TokenType_eqb (type (s_op sh))) [LT; GT; EQ]
  && of_kind NUMBER (s_num sh)
  && forallb (of_kind IDENTIFIER) (s_params sh).

Definition rule_shape_ok (sh : RuleShape) : bool :=
  rule_head_ok sh && forallb (of_kind NEWLINE) (s_nls3 sh)
  && of_kind RBRACE (s_rbrace sh).

(** A token that is neither a parameter nor the end of the parameters. *)
Definition stuck_token (t : Token) : bool :=
  negb (of_kind IDENTIFIER t) && negb (of_kind RBRACE t) && negb (of_kind NEWLINE t).

Definition shape_description (sh : RuleShape) : string :=
  match s_descr sh with
  | [_; s] => value s
  | _ => EmptyString
  end.

(** [additional_params[param_name] = True] for each parameter, in order. *)
Definition shape_params (sh : RuleShape) : list (string * ParamValue) :=
  fold_left (fun d t => dict_set d (value t) PTrue) (s_params sh) [].

(** The tokens of
    [W1 { @ "w" <newline> INTERNAL1 M1 < 0.1 OPPOSITE <newline> }], as the
    lexer gives them. *)
Definition width_rule_shape : RuleShape :=
  mkRuleShape (mkToken IDENTIFIER "W1" 1 1) (mkToken LBRACE "{" 1 4) []
    [mkToken AT "@" 1 6; mkToken STRING "w" 1 8]
    [mkToken NEWLINE (str1 NL) 1 11]
    (mkToken INTERNAL1 "INTERNAL1" 2 1)
    (mkToken IDENTIFIER "M1" 2 11) (mkToken LT "<" 2 14) (mkToken NUMBER "0.1" 2 16)
    [mkToken IDENTIFIER "OPPOSITE" 2 20]
    [mkToken NEWLINE (str1 NL) 2 28]
    (mkToken RBRACE "}" 3 1).

(** The token that the lexer makes of the word [SINGULAR]: a keyword of
    its table, of a kind of its own. *)
Definition singular_token : Token := mkToken SINGULAR "SINGULAR" 2 20.

(** The tokens that remain end with the end-of-input token and hold no
    opening brace. *)
Definition good (p : Parser) : Prop :=
  ends_with_eof (tokens p) = true /\ no_brace (tokens p) = true.

Definition len (p : Parser) : nat := List.length (tokens p).

(** The method returns or raises, and when it returns its result has the
    property [P]. *)
Definition ends {A : Type} (m : Res A) (P : A -> Prop) : Prop :=
  match m with
  | Done a => P a
  | Raised _ => True
  | Timeout => False
  end.

End ParserShape.

(* ================================================================== *)
(** * Vocabulary for further statements about the line-based translator *)
(* ================================================================== *)

Module FinalShape.

Import Py FinalEnhancedTranslator.

(** The rule types that the [if ... elif ...] chain of [parse_rule_content]
    writes, and the initial one. *)
Definition rule_types : list string :=
  ["enclosure"; "antenna"; "pattern_matching"; "multi_patterning"; "external";
   "external1"; "density"; "area"; "internal2"; "internal1"; "unknown"]%string.

(** The stripped, non-empty lines among the first [n] lines of [ls]. *)
Definition kept_lines (n : nat) (ls : list string) : list string :=
  filter (fun l => negb (is_empty l)) (map strip (firstn n ls)).

(** A rule block of three lines behind a layer statement. *)
Definition block_lines : list string :=
  ["LAYER M1 50"; "  W1 {"; ""; "  INTERNAL1 M1 < 0.1 "; "}"; "LAYER M2 51"]%string.

(** A stand-in for [str] on floats, right on the two values it is used
    for. *)
Definition sample_repr (x : Q) : string :=
  if Qeq_bool x 0 then "0.0"%string else "0.1"%string.

End FinalShape.

(* ================================================================== *)
(** * Vocabulary for further statements about the expression rewriter *)
(* ================================================================== *)

Module RewriterShape.

Import Py.

(** The connectives that [translate_layer_expression] rewrites, each with
    the symbol it becomes. *)
Definition connectives : list (string * string) :=
  [("AND", "&"); ("OR", "|"); ("NOT", "!")]%string.

(** [old] starts nowhere in [mid ++ b], whatever the text [b] without
    space is: at no position of [mid], and not at its end, does [old] fit
    into [mid] or run over its end with a rest that has no space. *)
Fixpoint clear_of (old mid : string) : bool :=
  negb (startswith old mid)
  && negb (startswith mid old && (count " " (drop (String.length mid) old) =? 0))
  && match mid with
     | EmptyString => true
     | String _ mid' => clear_of old mid'
     end.

End RewriterShape.

(* ================================================================== *)
(** * Vocabulary for statements about the measurement rules *)
(* ================================================================== *)

Module MeasureRules.

Import Py Re FinalEnhancedTranslator.

(** The parts of a text of the shape [KEYWORD LAYER <op> <number>]: the
    layer name, the operator, the number and the white space between
    them. *)
Record MeasureShape : Set := mkMeasureShape {
  m_layer : string;
  m_op : string;
  m_number : string;
  m_sp1 : string;                       (* not empty *)
  m_sp2 : string; m_sp3 : string        (* may be empty *)
}.

(** The text of the shape behind its keyword, followed by [post]. *)
Definition measure_text (keyword : string) (sh : MeasureShape) (post : string)
  : string :=
  (keyword ++ m_sp1 sh ++ m_layer sh ++ m_sp2 sh ++ m_op sh ++ m_sp3 sh
   ++ m_number sh ++ post)%string.

(** The layer name is a word, the operator is one of the three that the
    measurement patterns know, the number is made of digits and dots, and
    the separators are white space. *)
Definition measure_ok (sh : MeasureShape) : bool :=
  nonempty (m_layer sh) && all_in word (m_layer sh)
  && in_strings (m_op sh) ["<"; ">"; "=="]
  && nonempty (m_number sh) && all_in digit_dot (m_number sh)
  && nonempty (m_sp1 sh) && all_in space (m_sp1 sh)
  && all_in space (m_sp2 sh) && all_in space (m_sp3 sh).

(** A measurement of one layer: its keyword, the rule type that
    [parse_rule_content] writes for it, the function that [translate_rule]
    calls for it, and the keywords that [parse_rule_content] looks for
    before it comes to this one. *)
Record Measure : Set := mkMeasure {
  keyword : string;
  measure_type : string;
  icv_function : string;
  tested_before : list string
}.

Definition measures : list Measure :=
  [ mkMeasure "AREA" "area" "area"
      ["ANTENNA"; "RECTANGLE"; "SAME_MASK"; "EXTERNAL"; "DENSITY"];
    mkMeasure "INTERNAL2" "internal2" "length"
      ["ANTENNA"; "RECTANGLE"; "SAME_MASK"; "EXTERNAL"; "DENSITY"; "AREA"];
    mkMeasure "INTERNAL1" "internal1" "width"
      ["ANTENNA"; "RECTANGLE"; "SAME_MASK"; "EXTERNAL"; "DENSITY"; "AREA";
       "INTERNAL2"] ]%string.

(** None of the keywords occurs in the content. *)
Definition absent (keywords : list string) (content : string) : bool :=
  forallb (fun k => negb (contains k content)) keywords.

(** The shape of the example [INTERNAL1 M1 < 0.1]. *)
Definition width_shape : MeasureShape :=
  mkMeasureShape "M1" "<" "0.1" " " " " " ".

End MeasureRules.

(* ================================================================== *)
(** * Vocabulary for further statements about the rule classifiers *)
(* ================================================================== *)

Module ReShape.

Import Py Re.

(** The number of groups of a pattern. *)
Definition groups_count (p : Pattern) : nat := List.length (filter fst p).

(** The rule types that [extract_enhanced_rule_details] can give. *)
Definition enhanced_rule_types : list string :=
  ["internal1"; "internal2"; "external1"; "external"; "area"; "enclosure";
   "antenna"; "pattern_matching"; "unknown"]%string.

(** [c.isascii()], and a text of such characters. *)
Definition isascii (c : ascii) : bool := ord c <? 128.

Definition ascii_text (s : string) : bool := all_in isascii s.

(** The rule types that [extract_rule_details] can give. *)
Definition simple_rule_types : list string :=
  ["internal1"; "internal2"; "external1"; "external"; "enclosure"; "area";
   "density"; "unknown"]%string.

(** Rule contents: a density rule, a spacing rule on one mask, and a width
    rule whose keyword is written in small letters. *)
Definition density_content : string :=
  "DENS { DENSITY M1 WINDOW 100 100 < 0.2 }"%string.

Definition same_mask_content : string :=
  "DP { EXTERNAL1 M1 < 0.05 SAME_MASK }"%string.

Definition small_letters_content : string :=
  "W { internal1 M1 < 0.1 }"%string.

End ReShape.
(* ================================================================== *)
(** * The lexer is total *)
(* ================================================================== *)

Module LexerFacts.

Import Py SvrfDrcParser.

Lemma advance_pos_cases c l col :
  advance_pos c l col = (l + 1, 1) \/ advance_pos c l col = (l, col + 1).
Proof. unfold advance_pos. destruct (Ascii.eqb c NL); auto. Qed.

Lemma skip_whitespace_from_le s : forall l col,
  String.length (rest (skip_whitespace_from s l col)) <= String.length s.
Proof.
  induction s as [|c r IH]; intros l col; simpl; [lia|].
  destruct (is_blank c); simpl; [|lia].
  destruct (advance_pos c l col) as [l' col']. specialize (IH l' col'). lia.
Qed.

Lemma read_while_le p s : forall l col,
  String.length (rest (snd (read_while p s l col))) <= String.length s.
Proof.
  induction s as [|c r IH]; intros l col; simpl; [lia|].
  destruct (p c); simpl; [|lia].
  destruct (advance_pos c l col) as [l' col']. specialize (IH l' col').
  destruct (read_while p r l' col') as [v lx]. simpl in *. lia.
Qed.

Lemma read_while_lt p c r l col :
  p c = true ->
  String.length (rest (snd (read_while p (String c r) l col))) < String.length (String c r).
Proof.
  intros Hp. simpl. rewrite Hp.
  destruct (advance_pos c l col) as [l' col'].
  pose proof (read_while_le p r l' col') as H.
  destruct (read_while p r l' col') as [v lx]. simpl in *. lia.
Qed.

Lemma read_string_from_le q : forall n s l col,
  String.length s <= n ->
  String.length (rest (snd (read_string_from q s l col))) <= String.length s.
Proof.
  induction n as [|n IH]; intros s l col Hn.
  - destruct s; simpl in *; [lia|lia].
  - destruct s as [|c r]; simpl; [lia|].
    destruct (Ascii.eqb c q).
    + destruct (advance_pos c l col); simpl; lia.
    + destruct (Ascii.eqb c BACKSLASH).
      * destruct (advance_pos c l col) as [l1 col1].
        destruct r as [|d r']; simpl; [lia|].
        destruct (advance_pos d l1 col1) as [l2 col2].
        assert (Hr : String.length r' <= n) by (simpl in Hn; lia).
        specialize (IH r' l2 col2 Hr).
        destruct (read_string_from q r' l2 col2) as [v lx]. simpl in *. lia.
      * destruct (advance_pos c l col) as [l' col'].
        assert (Hr : String.length r <= n) by (simpl in Hn; lia).
        specialize (IH r l' col' Hr).
        destruct (read_string_from q r l' col') as [v lx]. simpl in *. lia.
Qed.

Lemma keywords_not_EOF v : dict_get keywords v IDENTIFIER <> EOF.
Proof.
  unfold keywords. simpl.
  repeat match goal with
         | |- context [if ?b then _ else _] => destruct b
         end; discriminate.
Qed.

Lemma single_char_not_EOF c ty : char_lookup single_char_tokens c = Some ty -> ty <> EOF.
Proof.
  unfold single_char_tokens. simpl.
  repeat match goal with
         | |- context [if ?b then _ else _] => destruct b
         end; intros H; inversion H; discriminate.
Qed.

(** What one iteration of the main loop does: it consumes at least one
    character, and it appends at most one token, never an end-of-input one. *)
Lemma tokenize_step_progress lx toks toks' lx' :
  tokenize_step lx toks = Some (toks', lx') ->
  String.length (rest lx') < String.length (rest lx) /\
  (toks' = toks \/ exists t, toks' = toks ++ [t] /\ type t <> EOF).
Proof.
  unfold tokenize_step.
  pose proof (skip_whitespace_from_le (rest lx) (lx_line lx) (lx_column lx)) as Hsk.
  fold (skip_whitespace lx) in Hsk.
  destruct (skip_whitespace lx) as [s l col]. simpl in Hsk.
  unfold current_char, peek_char. cbn [rest lx_line lx_column].
  destruct s as [|c r]; [discriminate|]. simpl in Hsk.
  destruct (Ascii.eqb c "/" && _) eqn:Hcom.
  { (* comment *)
    apply andb_true_iff in Hcom. destruct Hcom as [Hc Hd].
    destruct r as [|d r2]; [discriminate|]. cbn [opt_is] in Hd.
    apply Ascii.eqb_eq in Hc. apply Ascii.eqb_eq in Hd. subst c d.
    unfold read_comment, current_char, peek_char. simpl.
    pose proof (read_while_le (fun c => negb (Ascii.eqb c NL)) r2 l (col + 1 + 1)) as Hle.
    destruct (read_while _ r2 l (col + 1 + 1)) as [v lx2]. simpl in Hle.
    intros H. inversion H. subst. simpl in *. split; [lia|].
    right. eexists. split; [reflexivity|]. simpl. discriminate. }
  destruct (Ascii.eqb c NL).
  { unfold advance. simpl. destruct (advance_pos c l col) as [l1 col1].
    intros H. inversion H. subst. simpl. split; [lia|].
    right. eexists. split; [reflexivity|]. simpl. discriminate. }
  destruct (Ascii.eqb c DQUOTE || Ascii.eqb c SQUOTE).
  { unfold read_string, advance. simpl.
    destruct (advance_pos c l col) as [l1 col1]. simpl.
    pose proof (read_string_from_le c _ r l1 col1 (le_n _)) as Hle.
    destruct (read_string_from c r l1 col1) as [v lx2]. simpl in Hle.
    intros H. inversion H. subst. simpl. split; [lia|].
    right. eexists. split; [reflexivity|]. simpl. discriminate. }
  destruct (isdigit c || _) eqn:Hnum.
  { unfold read_number. simpl rest. simpl lx_line. simpl lx_column.
    assert (Hp : (fun c => isdigit c || Ascii.eqb c ".") c = true).
    { apply orb_true_iff in Hnum. destruct Hnum as [H|H].
      - rewrite H. reflexivity.
      - apply andb_true_iff in H. destruct H as [H _]. rewrite H. apply orb_true_r. }
    pose proof (read_while_lt _ c r l col Hp) as Hlt.
    destruct (read_while _ (String c r) l col) as [v lx2]. simpl in Hlt.
    intros H. inversion H. subst. simpl. split; [simpl in *; lia|].
    right. eexists. split; [reflexivity|]. simpl. discriminate. }
  destruct (isalpha c || Ascii.eqb c "_") eqn:Hid.
  { unfold read_identifier. simpl rest. simpl lx_line. simpl lx_column.
    assert (Hp : (fun c => isalnum c || Ascii.eqb c "_") c = true).
    { apply orb_true_iff in Hid. destruct Hid as [H|H].
      - unfold isalnum. rewrite H. reflexivity.
      - rewrite H. apply orb_true_r. }
    pose proof (read_while_lt _ c r l col Hp) as Hlt.
    destruct (read_while _ (String c r) l col) as [v lx2]. simpl in Hlt.
    intros H. inversion H. subst. simpl. split; [simpl in *; lia|].
    right. eexists. split; [reflexivity|]. simpl. apply keywords_not_EOF. }
  destruct (Ascii.eqb c "=" && _) eqn:Heq.
  { apply andb_true_iff in Heq. destruct Heq as [_ Hd].
    destruct r as [|d r2]; [discriminate|].
    unfold advance. simpl.
    destruct (advance_pos c l col) as [l1 col1]. simpl.
    destruct (advance_pos d l1 col1) as [l2 col2].
    intros H. inversion H. subst. simpl. split; [simpl in *; lia|].
    right. eexists. split; [reflexivity|]. simpl. discriminate. }
  destruct (char_lookup single_char_tokens c) as [ty|] eqn:Hty.
  { unfold advance. simpl. destruct (advance_pos c l col) as [l1 col1].
    intros H. inversion H. subst. simpl. split; [lia|].
    right. eexists. split; [reflexivity|]. simpl.
    eapply single_char_not_EOF; eauto. }
  unfold advance. simpl. destruct (advance_pos c l col) as [l1 col1].
  intros H. inversion H. subst. simpl. split; [lia|]. left. reflexivity.
Qed.

Lemma skip_whitespace_from_stop s : forall l col,
  current_char (skip_whitespace_from s l col) = None ->
  rest (skip_whitespace_from s l col) = EmptyString.
Proof.
  intros l col. unfold current_char.
  destruct (rest (skip_whitespace_from s l col)); [reflexivity|discriminate].
Qed.

(** With one unit of fuel per remaining character the loop ends, at the end
    of the text, having appended no end-of-input token. *)
Lemma tokenize_loop_total : forall fuel lx toks,
  String.length (rest lx) <= fuel ->
  exists new lx',
    tokenize_loop fuel lx toks = Some (toks ++ new, lx') /\
    Forall (fun t => type t <> EOF) new /\
    rest lx' = EmptyString.
Proof.
  induction fuel as [|fuel IH]; intros lx toks Hlen.
  - destruct lx as [s l col]. simpl in Hlen.
    destruct s; [|simpl in Hlen; lia].
    exists [], (mkLexer EmptyString l col). simpl.
    rewrite app_nil_r. auto.
  - simpl. destruct (current_char lx) eqn:Hcur.
    + destruct (tokenize_step lx toks) as [[toks' lx']|] eqn:Hstep.
      * apply tokenize_step_progress in Hstep. destruct Hstep as [Hlt Htok].
        assert (Hlen' : String.length (rest lx') <= fuel) by lia.
        destruct (IH lx' toks' Hlen') as (new & lx2 & Hrun & Hnew & Hrest).
        destruct Htok as [->|(t & -> & Ht)].
        -- exists new, lx2. auto.
        -- exists (t :: new), lx2. rewrite Hrun.
           rewrite <- app_assoc. simpl. auto.
      * exists [], (skip_whitespace lx). rewrite app_nil_r.
        split; [reflexivity|]. split; [constructor|].
        unfold tokenize_step in Hstep.
        destruct (current_char (skip_whitespace lx)) eqn:Hc.
        -- exfalso.
           repeat match type of Hstep with
                  | (if ?b then _ else _) = None => destruct b
                  | (let (_, _) := ?e in _) = None => destruct e
                  | match ?e with Some _ => _ | None => _ end = None => destruct e
                  end; discriminate.
        -- apply skip_whitespace_from_stop. exact Hc.
    + exists [], lx. rewrite app_nil_r. split; [reflexivity|]. split; [constructor|].
      unfold current_char in Hcur. destruct (rest lx); [reflexivity|discriminate].
Qed.

End LexerFacts.

Module LexerTotal.

Import Py SvrfDrcParser LexerFacts.

(** A string literal whose body holds no quote character of its kind runs to
    the end of the input. *)
Lemma read_string_from_unterminated q : forall n s l col,
  String.length s <= n ->
  count q s = 0 ->
  rest (snd (read_string_from q s l col)) = EmptyString.
Proof.
  induction n as [|n IH]; intros s l col Hn Hq.
  - destruct s; [reflexivity|simpl in Hn; lia].
  - destruct s as [|c r]; [reflexivity|].
    simpl in Hq. simpl.
    destruct (Ascii.eqb c q) eqn:Hc; [simpl in Hq; lia|].
    simpl in Hq.
    destruct (Ascii.eqb c BACKSLASH).
    + destruct (advance_pos c l col) as [l1 col1].
      destruct r as [|d r']; [reflexivity|].
      simpl in Hq.
      destruct (advance_pos d l1 col1) as [l2 col2].
      assert (Hr : String.length r' <= n) by (simpl in Hn; lia).
      assert (Hq' : count q r' = 0) by lia.
      specialize (IH r' l2 col2 Hr Hq').
      destruct (read_string_from q r' l2 col2) as [v lx]. exact IH.
    + destruct (advance_pos c l col) as [l' col'].
      assert (Hr : String.length r <= n) by (simpl in Hn; lia).
      specialize (IH r l' col' Hr Hq).
      destruct (read_string_from q r l' col') as [v lx]. exact IH.
Qed.

Lemma unrecognized_step c r l col toks :
  unrecognized c = true ->
  tokenize_step (mkLexer (String c r) l col) toks = Some (toks, mkLexer r l (col + 1)).
Proof.
  unfold unrecognized. intros H. apply negb_true_iff in H.
  repeat (apply orb_false_iff in H; destruct H as [H ?]).
  assert (Hb : is_blank c = false).
  { unfold is_blank. rewrite H.
    repeat match goal with
           | Hx : ?b = false |- context [?b] => rewrite Hx
           end. reflexivity. }
  unfold tokenize_step, skip_whitespace. cbn [rest lx_line lx_column skip_whitespace_from].
  rewrite Hb. unfold current_char, peek_char. cbn [rest lx_line lx_column].
  repeat match goal with
         | Hx : ?b = false |- context [?b] => rewrite Hx
         end.
  cbn [orb andb].
  destruct (char_lookup single_char_tokens c); [discriminate|].
  unfold advance, advance_pos. cbn [rest lx_line lx_column].
  match goal with Hx : Ascii.eqb c NL = false |- _ => rewrite Hx end.
  reflexivity.
Qed.

Lemma unterminated_string q body :
  q = DQUOTE \/ q = SQUOTE ->
  count q body = 0 ->
  exists v l col,
    tokenize (String q body) = Some [mkToken STRING v 1 1; mkToken EOF EmptyString l col].
Proof.
  intros Hq Hcount.
  pose proof (read_string_from_unterminated q _ body 1 2 (le_n _) Hcount) as Hrest.
  destruct (read_string_from q body 1 2) as [v lx2] eqn:Hrs. simpl in Hrest.
  exists v, (lx_line lx2), (lx_column lx2).
  unfold tokenize. cbn [String.length tokenize_loop].
  unfold current_char at 1. cbn [rest].
  assert (Hstep : tokenize_step (mkLexer (String q body) 1 1) [] =
                  Some ([mkToken STRING v 1 1], lx2)).
  { unfold tokenize_step, skip_whitespace. cbn [rest lx_line lx_column].
    destruct Hq; subst q; cbn; rewrite Hrs; reflexivity. }
  rewrite Hstep.
  assert (Hcur : current_char lx2 = None) by (unfold current_char; rewrite Hrest; reflexivity).
  destruct (String.length body); cbn [tokenize_loop]; rewrite Hcur; reflexivity.
Qed.



End LexerTotal.

(* ================================================================== *)
(** * Tokenizing the text rebuilt from the tokens *)
(* ================================================================== *)

Module RetokenizeFacts.

Import Py SvrfDrcParser LexerFacts Retokenize.

Lemma skip_whitespace_split s : forall l col,
  s = (take (String.length s - String.length (rest (skip_whitespace_from s l col))) s
       ++ rest (skip_whitespace_from s l col))%string.
Proof.
  induction s as [|c r IH]; intros l col; [reflexivity|].
  cbn [skip_whitespace_from]. destruct (is_blank c).
  - destruct (advance_pos c l col) as [l' col'].
    pose proof (skip_whitespace_from_le r l' col') as Hle.
    specialize (IH l' col').
    replace (String.length (String c r) - String.length (rest (skip_whitespace_from r l' col')))
      with (S (String.length r - String.length (rest (skip_whitespace_from r l' col'))))
      by (cbn [String.length]; lia).
    cbn [take append]. rewrite <- IH. reflexivity.
  - cbn [rest]. rewrite Nat.sub_diag. reflexivity.
Qed.

Lemma skip_whitespace_nonblank s : forall l col c r,
  rest (skip_whitespace_from s l col) = String c r -> is_blank c = false.
Proof.
  induction s as [|x s IH]; intros l col c r H; [discriminate|].
  cbn [skip_whitespace_from] in H. destruct (is_blank x) eqn:Hx.
  - destruct (advance_pos x l col) as [l' col']. exact (IH _ _ _ _ H).
  - cbn [rest] in H. inversion H. subst. exact Hx.
Qed.

Lemma plain_tail c r : plain (String c r) = true -> plain r = true.
Proof. cbn [plain]. intros H. apply andb_true_iff in H. tauto. Qed.

Lemma plain_app_r (a b : string) : plain (a ++ b)%string = true -> plain b = true.
Proof.
  induction a as [|x a IH]; intros H; [exact H|].
  apply IH. exact (plain_tail _ _ H).
Qed.

Lemma read_while_split p s : forall l col,
  s = (fst (read_while p s l col) ++ rest (snd (read_while p s l col)))%string.
Proof.
  induction s as [|c r IH]; intros l col; [reflexivity|].
  cbn [read_while]. destruct (p c); [|reflexivity].
  destruct (advance_pos c l col) as [l' col']. specialize (IH l' col').
  destruct (read_while p r l' col') as [v lx]. cbn [fst snd append] in *.
  rewrite <- IH. reflexivity.
Qed.

Lemma blanks_passed_split lx :
  rest lx = (blanks_passed lx ++ rest (skip_whitespace lx))%string.
Proof. unfold blanks_passed, skip_whitespace. apply skip_whitespace_split. Qed.

(** On a plain text, what one iteration of the main loop passes over is
    what it gives back: the blanks and the value of the token. *)
Lemma plain_step lx toks' lx' :
  plain (rest lx) = true ->
  tokenize_step lx [] = Some (toks', lx') ->
  rest lx = (blanks_passed lx ++ join_values toks' ++ rest lx')%string /\
  plain (rest lx') = true.
Proof.
  intros Hplain. rewrite (blanks_passed_split lx) at 1.
  assert (Hp1 : plain (rest (skip_whitespace lx)) = true).
  { rewrite (blanks_passed_split lx) in Hplain. exact (plain_app_r _ _ Hplain). }
  assert (Hnb : forall c r, rest (skip_whitespace lx) = String c r -> is_blank c = false).
  { intros c r. unfold skip_whitespace. apply skip_whitespace_nonblank. }
  unfold tokenize_step.
  destruct (skip_whitespace lx) as [s l col]. cbn [rest] in *.
  unfold current_char, peek_char. cbn [rest lx_line lx_column].
  destruct s as [|c r]; [discriminate|].
  specialize (Hnb c r eq_refl).
  pose proof (plain_tail _ _ Hp1) as Hr.
  pose proof Hp1 as Hfull.
  cbn [plain] in Hp1. apply andb_true_iff in Hp1. destruct Hp1 as [Hc _].
  unfold plain_char in Hc. rewrite Hnb in Hc. cbn [orb] in Hc.
  assert (Hgoal : forall v rest', String c r = (v ++ rest')%string ->
            plain rest' = true -> forall t, value t = v ->
            (blanks_passed lx ++ String c r)%string
            = (blanks_passed lx ++ join_values [t] ++ rest')%string /\
            plain rest' = true).
  { intros v rest' E Hpl t Ht. split; [|exact Hpl].
    unfold join_values. cbn [map String.concat]. rewrite Ht, <- E. reflexivity. }
  destruct (Ascii.eqb c "/" && _) eqn:Hcom.
  { exfalso. apply andb_true_iff in Hcom. destruct Hcom as [Hc1 _].
    apply Ascii.eqb_eq in Hc1. subst c. vm_compute in Hc. discriminate. }
  destruct (Ascii.eqb c NL) eqn:Hnl.
  { unfold advance. cbn [rest lx_line lx_column].
    destruct (advance_pos c l col) as [l1 col1].
    intros H. inversion H. subst. cbn [rest].
    apply (Hgoal (str1 c) r); [reflexivity|exact Hr|reflexivity]. }
  destruct (Ascii.eqb c DQUOTE || Ascii.eqb c SQUOTE) eqn:Hq.
  { exfalso. apply orb_true_iff in Hq.
    destruct Hq as [Hq|Hq]; apply Ascii.eqb_eq in Hq; subst c;
      vm_compute in Hc; discriminate. }
  destruct (isdigit c || _) eqn:Hnum.
  { unfold read_number. cbn [rest lx_line lx_column].
    pose proof (read_while_split (fun c => isdigit c || Ascii.eqb c ".") (String c r) l col)
      as Hs.
    destruct (read_while _ (String c r) l col) as [v lx2]. cbn [fst snd] in Hs.
    intros H. inversion H. subst.
    apply (Hgoal v (rest lx')); [exact Hs| |reflexivity].
    apply (plain_app_r v). rewrite <- Hs. exact Hfull. }
  destruct (isalpha c || Ascii.eqb c "_") eqn:Hid.
  { unfold read_identifier. cbn [rest lx_line lx_column].
    pose proof (read_while_split (fun c => isalnum c || Ascii.eqb c "_") (String c r) l col)
      as Hs.
    destruct (read_while _ (String c r) l col) as [v lx2]. cbn [fst snd] in Hs.
    intros H. inversion H. subst.
    apply (Hgoal v (rest lx')); [exact Hs| |reflexivity].
    apply (plain_app_r v). rewrite <- Hs. exact Hfull. }
  destruct (Ascii.eqb c "=" && _) eqn:Heq.
  { apply andb_true_iff in Heq. destruct Heq as [Hc1 Hd].
    destruct r as [|d r2]; [discriminate|]. cbn [opt_is] in Hd.
    apply Ascii.eqb_eq in Hc1. apply Ascii.eqb_eq in Hd. subst c d.
    unfold advance. cbn [rest lx_line lx_column].
    destruct (advance_pos "=" l col) as [l1 col1]. cbn [rest lx_line lx_column].
    destruct (advance_pos "=" l1 col1) as [l2 col2].
    intros H. inversion H. subst. cbn [rest].
    apply (Hgoal "=="%string r2); [reflexivity|exact (plain_tail _ _ Hr)|reflexivity]. }
  destruct (char_lookup single_char_tokens c) as [ty|] eqn:Hty.
  { unfold advance. cbn [rest lx_line lx_column].
    destruct (advance_pos c l col) as [l1 col1].
    intros H. inversion H. subst. cbn [rest].
    apply (Hgoal (str1 c) r); [reflexivity|exact Hr|reflexivity]. }
  (* an unknown character: there is none in a plain text *)
  exfalso.
  apply orb_false_iff in Hnum. destruct Hnum as [Hdig Hdot].
  apply orb_false_iff in Hid. destruct Hid as [Halpha Hund].
  unfold isalnum in Hc. rewrite Hdig, Halpha, Hund in Hc. cbn [orb] in Hc.
  destruct r as [|d r2]; cbn [opt_is] in Hdot; rewrite Hdot in Hc; discriminate.
Qed.

Lemma plain_step_end lx :
  tokenize_step lx [] = None -> blanks_passed lx = rest lx.
Proof.
  intros H. rewrite (blanks_passed_split lx) at 1.
  assert (Hr : rest (skip_whitespace lx) = EmptyString).
  { unfold tokenize_step in H.
    destruct (current_char (skip_whitespace lx)) eqn:Hc.
    - exfalso.
      repeat match type of H with
             | (if ?b then _ else _) = None => destruct b
             | (let (_, _) := ?e in _) = None => destruct e
             | match ?e with Some _ => _ | None => _ end = None => destruct e
             end; discriminate.
    - unfold current_char in Hc. destruct (rest (skip_whitespace lx)); [reflexivity|discriminate]. }
  rewrite Hr. clear. induction (blanks_passed lx) as [|c s IH]; [reflexivity|].
  cbn [append]. rewrite <- IH. reflexivity.
Qed.

(** The text rebuilt from a plain text is the text. *)
Lemma reconstruct_loop_plain : forall fuel lx,
  plain (rest lx) = true -> String.length (rest lx) <= fuel ->
  reconstruct_loop fuel lx = Some (rest lx).
Proof.
  induction fuel as [|fuel IH]; intros lx Hplain Hlen.
  - destruct lx as [s l col]. cbn [rest] in *. destruct s; [reflexivity|].
    cbn [String.length] in Hlen. lia.
  - cbn [reconstruct_loop]. destruct (current_char lx) eqn:Hcur.
    + destruct (tokenize_step lx []) as [[toks' lx']|] eqn:Hstep.
      * destruct (plain_step lx toks' lx' Hplain Hstep) as [Hsplit Hpl].
        apply tokenize_step_progress in Hstep. destruct Hstep as [Hlt _].
        rewrite (IH lx' Hpl) by lia. rewrite <- Hsplit. reflexivity.
      * rewrite (plain_step_end lx Hstep). reflexivity.
    + unfold current_char in Hcur. destruct (rest lx); [reflexivity|discriminate].
Qed.

(** The step of the main loop when its token is kept verbatim. *)
Lemma verbatim_step lx toks' lx' :
  tokenize_step lx [] = Some (toks', lx') ->
  kept_verbatim toks' = true ->
  rest lx = (blanks_passed lx ++ join_values toks' ++ rest lx')%string.
Proof.
  rewrite (blanks_passed_split lx) at 1.
  unfold tokenize_step.
  destruct (skip_whitespace lx) as [s l col]. cbn [rest].
  unfold current_char, peek_char. cbn [rest lx_line lx_column].
  destruct s as [|c r]; [discriminate|].
  assert (Hgoal : forall t rest', String c r = (value t ++ rest')%string ->
            (blanks_passed lx ++ String c r)%string
            = (blanks_passed lx ++ join_values [t] ++ rest')%string).
  { intros t rest' E. unfold join_values. cbn [map String.concat].
    rewrite <- E. reflexivity. }
  destruct (Ascii.eqb c "/" && _).
  { unfold read_comment.
    destruct (match current_char _, peek_char _ with
              | Some c0, Some d => _ | _, _ => false end).
    - destruct (read_while _ _ _ _) as [v lx2].
      intros H. inversion H. subst. discriminate.
    - intros H. inversion H. subst. discriminate. }
  destruct (Ascii.eqb c NL).
  { unfold advance. cbn [rest lx_line lx_column].
    destruct (advance_pos c l col) as [l1 col1].
    intros H _. inversion H. subst. cbn [rest]. apply Hgoal. reflexivity. }
  destruct (Ascii.eqb c DQUOTE || Ascii.eqb c SQUOTE).
  { unfold read_string. cbn [rest lx_line lx_column].
    destruct (read_string_from _ _ _ _) as [v lx2].
    intros H. inversion H. subst. discriminate. }
  destruct (isdigit c || _).
  { unfold read_number. cbn [rest lx_line lx_column].
    pose proof (read_while_split (fun c => isdigit c || Ascii.eqb c ".") (String c r) l col)
      as Hs.
    destruct (read_while _ (String c r) l col) as [v lx2]. cbn [fst snd] in Hs.
    intros H _. inversion H. subst. apply Hgoal. exact Hs. }
  destruct (isalpha c || Ascii.eqb c "_").
  { unfold read_identifier. cbn [rest lx_line lx_column].
    pose proof (read_while_split (fun c => isalnum c || Ascii.eqb c "_") (String c r) l col)
      as Hs.
    destruct (read_while _ (String c r) l col) as [v lx2]. cbn [fst snd] in Hs.
    intros H _. inversion H. subst. apply Hgoal. exact Hs. }
  destruct (Ascii.eqb c "=" && _) eqn:Heq.
  { apply andb_true_iff in Heq. destruct Heq as [Hc1 Hd].
    destruct r as [|d r2]; [discriminate|]. cbn [opt_is] in Hd.
    apply Ascii.eqb_eq in Hc1. apply Ascii.eqb_eq in Hd. subst c d.
    unfold advance. cbn [rest lx_line lx_column].
    destruct (advance_pos "=" l col) as [l1 col1]. cbn [rest lx_line lx_column].
    destruct (advance_pos "=" l1 col1) as [l2 col2].
    intros H _. inversion H. subst. cbn [rest]. apply Hgoal. reflexivity. }
  destruct (char_lookup single_char_tokens c) as [ty|].
  { unfold advance. cbn [rest lx_line lx_column].
    destruct (advance_pos c l col) as [l1 col1].
    intros H _. inversion H. subst. cbn [rest]. apply Hgoal. reflexivity. }
  intros H. inversion H. subst. discriminate.
Qed.

(** The text rebuilt from a text that is kept verbatim is the text. *)
Lemma reconstruct_loop_verbatim : forall fuel lx,
  verbatim_loop fuel lx = true ->
  reconstruct_loop fuel lx = Some (rest lx).
Proof.
  induction fuel as [|fuel IH]; intros lx Hv.
  - cbn [verbatim_loop reconstruct_loop] in *.
    destruct (current_char lx) eqn:Hcur.
    + destruct (tokenize_step lx []) as [[toks' lx']|] eqn:Hstep.
      * rewrite andb_false_r in Hv. discriminate.
      * rewrite (plain_step_end lx Hstep). reflexivity.
    + unfold current_char in Hcur. destruct (rest lx); [reflexivity|discriminate].
  - cbn [verbatim_loop reconstruct_loop] in *.
    destruct (current_char lx) eqn:Hcur.
    + destruct (tokenize_step lx []) as [[toks' lx']|] eqn:Hstep.
      * apply andb_true_iff in Hv. destruct Hv as [Hk Hv].
        rewrite (IH lx' Hv). rewrite <- (verbatim_step lx toks' lx' Hstep Hk).
        reflexivity.
      * rewrite (plain_step_end lx Hstep). reflexivity.
    + unfold current_char in Hcur. destruct (rest lx); [reflexivity|discriminate].
Qed.

End RetokenizeFacts.

Module RetokenizeClaims.

Import Py SvrfDrcParser LexerFacts Retokenize RetokenizeFacts.

(** The claim C8 as it is stated fails: the value of a string token is the
    text between the quotes, so the text rebuilt from a quoted word is the
    word, an identifier. *)
Lemma retokenize_counterexample :
  ~ (forall text, retokenized_kinds text = option_map kinds (tokenize text)).
Proof.
  intros H. specialize (H quoted_word). vm_compute in H. discriminate.
Qed.

(** The same for a comment, whose value leaves the two slashes out. *)
Example retokenize_comment :
  retokenized_kinds "// x" = Some [IDENTIFIER; EOF] /\
  option_map kinds (tokenize "// x") = Some [COMMENT; EOF].
Proof. split; vm_compute; reflexivity. Qed.

(** And for a character that the lexer skips between two tokens. *)
Example retokenize_skipped_character :
  retokenized_kinds "a#b" = Some [IDENTIFIER; EOF] /\
  option_map kinds (tokenize "a#b") = Some [IDENTIFIER; IDENTIFIER; EOF].
Proof. split; vm_compute; reflexivity. Qed.

(** C8, amended. For a text of which [tokenize] makes no string-literal
    token and no comment token and of which it skips no character, the text
    rebuilt from the token values and the original blanks is the text
    itself, and tokenizing it gives the kinds of the tokens of the original
    text. *)
Theorem retokenize_verbatim :
  forall text,
    verbatim text = true ->
    reconstruct text = Some text /\
    exists toks,
      tokenize text = Some toks /\
      retokenized_kinds text = Some (kinds toks).
Proof.
  intros text Hv.
  assert (Hrec : reconstruct text = Some text).
  { unfold reconstruct.
    apply (reconstruct_loop_verbatim (String.length text) (mkLexer text 1 1)).
    exact Hv. }
  split; [exact Hrec|].
  destruct (tokenize_loop_total (String.length text) (mkLexer text 1 1) [] (le_n _))
    as (new & lx' & Hrun & _ & _).
  assert (Htok : tokenize text
                 = Some ([] ++ new ++ [mkToken EOF EmptyString (lx_line lx') (lx_column lx')])).
  { unfold tokenize. rewrite Hrun. reflexivity. }
  eexists. split; [exact Htok|].
  unfold retokenized_kinds. rewrite Hrec, Htok. reflexivity.
Qed.

Lemma retokenize_verbatim_witness :
  reconstruct "LAYER M1 50" = Some "LAYER M1 50"%string /\
  exists toks,
    tokenize "LAYER M1 50" = Some toks /\
    retokenized_kinds "LAYER M1 50" = Some (kinds toks).
Proof. apply (retokenize_verbatim "LAYER M1 50"). reflexivity. Defined.

(** A condition on the characters of the text that is enough: blanks,
    newlines, letters, digits, underscores, the punctuation marks of the
    lexer and dots followed by a digit. *)
Lemma retokenize_plain text :
  plain text = true -> reconstruct text = Some text.
Proof.
  intros Hplain. unfold reconstruct.
  apply (reconstruct_loop_plain (String.length text) (mkLexer text 1 1));
    [exact Hplain|apply le_n].
Qed.

(** A string literal whose text is itself quoted keeps its kind: the
    condition of the amended claim is enough, it is not the only case. *)
Example retokenize_nested_quotes :
  retokenized_kinds (dq ++ str1 SQUOTE ++ "a" ++ str1 SQUOTE ++ dq)
  = option_map kinds (tokenize (dq ++ str1 SQUOTE ++ "a" ++ str1 SQUOTE ++ dq)).
Proof. vm_compute. reflexivity. Qed.

End RetokenizeClaims.

(* ================================================================== *)
(** * The structural parser *)
(* ================================================================== *)

Module ParserFacts.

Import Py SvrfDrcParser.

Lemma while_done {S : Type} fuel (cond : S -> bool) body s :
  cond s = false -> while_ fuel cond body s = Done s.
Proof. intros H. destruct fuel; simpl; rewrite H; reflexivity. Qed.

(** A loop whose body leaves the state as it is, while its condition holds,
    never ends. *)
Lemma while_stuck {S : Type} (cond : S -> bool) body s :
  cond s = true -> body s = Done s ->
  forall fuel, while_ fuel cond body s = Timeout.
Proof.
  intros Hc Hb fuel. induction fuel as [|fuel IH]; simpl; rewrite Hc; [reflexivity|].
  rewrite Hb. simpl. exact IH.
Qed.

Lemma while_unfold {S : Type} fuel (cond : S -> bool) body s :
  cond s = true ->
  while_ (Datatypes.S fuel) cond body s = (s' <- body s ;; while_ fuel cond body s').
Proof. intros H. simpl. rewrite H. reflexivity. Qed.

Lemma cur_not_in_expr p t ts :
  expr_token t -> cur_not_in [NEWLINE; EOF; LBRACE] (set_tokens p (t :: ts)) = true.
Proof.
  intros (H1 & H2 & H3). unfold cur_not_in, current_token. simpl.
  unfold TokenType_eqb.
  destruct (TokenType_eq_dec (type t) NEWLINE); [contradiction|].
  destruct (TokenType_eq_dec (type t) EOF); [contradiction|].
  destruct (TokenType_eq_dec (type t) LBRACE); [contradiction|].
  reflexivity.
Qed.

Lemma cur_not_in_stop p t ts :
  stop_token t -> cur_not_in [NEWLINE; EOF; LBRACE] (set_tokens p (t :: ts)) = false.
Proof.
  intros H. unfold cur_not_in, current_token. simpl. unfold TokenType_eqb.
  destruct H as [H|[H|H]]; rewrite H; reflexivity.
Qed.

Lemma set_tokens_twice p a b : set_tokens (set_tokens p a) b = set_tokens p b.
Proof. reflexivity. Qed.

Lemma p_advance_cons p t u ts :
  p_advance (set_tokens p (t :: u :: ts)) = set_tokens p (u :: ts).
Proof. reflexivity. Qed.

(** The expression loop collects the values of the expression tokens and
    stops in front of the first stop token. *)
Lemma expression_loop p stop tail : forall expr fuel parts,
  Forall expr_token expr -> stop_token stop -> List.length expr <= fuel ->
  while_ fuel
    (fun st : list string * Parser => cur_not_in [NEWLINE; EOF; LBRACE] (snd st))
    (fun st =>
       let (parts, p) := st in
       match current_token p with
       | Some t => Done (parts ++ [value t], p_advance p)
       | None => Done st
       end)
    (parts, set_tokens p (expr ++ stop :: tail))
  = Done (parts ++ map value expr, set_tokens p (stop :: tail)).
Proof.
  induction expr as [|t expr IH]; intros fuel parts Hexpr Hstop Hfuel.
  - simpl. rewrite app_nil_r. apply while_done. simpl.
    apply cur_not_in_stop. exact Hstop.
  - inversion Hexpr as [|? ? Ht Hrest]; subst.
    destruct fuel as [|fuel]; [simpl in Hfuel; lia|].
    rewrite while_unfold by (simpl; apply cur_not_in_expr; exact Ht).
    cbn [bind current_token set_tokens tokens app].
    assert (Hadv : p_advance (set_tokens p (t :: expr ++ stop :: tail))
                   = set_tokens p (expr ++ stop :: tail)).
    { destruct expr; reflexivity. }
    change (mkParser (t :: expr ++ stop :: tail) (layers p) (rules p) (includes p)
              (errors p) (warnings p))
      with (set_tokens p (t :: expr ++ stop :: tail)).
    rewrite Hadv.
    rewrite IH by (auto; simpl in Hfuel; lia).
    rewrite <- app_assoc. reflexivity.
Qed.

Lemma parse_layer_expression_spec p expr stop tail fuel :
  Forall expr_token expr -> stop_token stop -> List.length expr <= fuel ->
  parse_layer_expression fuel (set_tokens p (expr ++ stop :: tail))
  = Done (join " " (map value expr), set_tokens p (stop :: tail)).
Proof.
  intros He Hs Hf. unfold parse_layer_expression.
  rewrite (expression_loop p stop tail expr fuel [] He Hs Hf). reflexivity.
Qed.

End ParserFacts.

Module ParserClaims.

Import Py SvrfDrcParser ParserFacts.

Lemma keyword_header fuel p nm ln c0 c1 c2 ln1 ln2 x ts :
  parse_layer_definition fuel
    (set_tokens p (mkToken LAYER "LAYER" ln c0 :: mkToken IDENTIFIER nm ln1 c1
                     :: mkToken ASSIGN "=" ln2 c2 :: x :: ts))
  = ('(e, q) <- parse_layer_expression fuel (set_tokens p (x :: ts)) ;;
     Done (add_layer q (mkLayerDefinition nm None (Some e) ln))).
Proof. reflexivity. Qed.

Lemma bare_header fuel p nm ln c1 c2 ln2 x ts :
  parse_derived_layer fuel
    (set_tokens p (mkToken IDENTIFIER nm ln c1 :: mkToken ASSIGN "=" ln2 c2 :: x :: ts))
  = ('(e, q) <- parse_layer_expression fuel (set_tokens p (x :: ts)) ;;
     Done (add_layer q (mkLayerDefinition nm None (Some e) ln))).
Proof. reflexivity. Qed.

Lemma expr_then_stop_cons (expr : list Token) stop tail :
  exists x ts, expr ++ stop :: tail = x :: ts.
Proof. destruct expr; simpl; eauto. Qed.

(** X22. In the token parser, a derived-layer statement that starts on line
    [ln] gives the same Layer record in its keyword form [LAYER X = expr], read by
    [parse_layer_definition], and in its bare form [X = expr], read by
    [parse_derived_layer]: the name, the expression tokens joined by single
    spaces, no GDS number, the line.  Both methods return, append this
    record and nothing else, and stop in front of the token that ends the
    expression.  The columns of the tokens, which differ between the two
    forms, play no part. *)
Theorem derived_layer_forms_agree :
  forall (fuel : nat) (p : Parser) (nm : string) (ln : nat)
         (c0 c1 c2 ln1 ln2 c1' c2' ln2' : nat)
         (expr expr' : list Token) (stop stop' : Token) (tail tail' : list Token),
    Forall expr_token expr -> Forall expr_token expr' ->
    map value expr = map value expr' ->
    stop_token stop -> stop_token stop' ->
    List.length expr <= fuel ->
    let record :=
      mkLayerDefinition nm None (Some (join " " (map value expr))) ln in
    parse_layer_definition fuel
      (set_tokens p (keyword_form nm ln c0 c1 c2 ln1 ln2 expr stop tail))
    = Done (add_layer (set_tokens p (stop :: tail)) record)
    /\
    parse_derived_layer fuel
      (set_tokens p (bare_form nm ln c1' c2' ln2' expr' stop' tail'))
    = Done (add_layer (set_tokens p (stop' :: tail')) record).
Proof.
  intros fuel p nm ln c0 c1 c2 ln1 ln2 c1' c2' ln2' expr expr' stop stop' tail tail'
         He He' Hval Hs Hs' Hf record.
  assert (Hf' : List.length expr' <= fuel).
  { rewrite <- (length_map value expr'), <- Hval, length_map. exact Hf. }
  split.
  - unfold keyword_form.
    destruct (expr_then_stop_cons expr stop tail) as (x & ts & E).
    rewrite E, keyword_header, <- E.
    rewrite (parse_layer_expression_spec p expr stop tail fuel He Hs Hf).
    reflexivity.
  - unfold bare_form.
    destruct (expr_then_stop_cons expr' stop' tail') as (x & ts & E).
    rewrite E, bare_header, <- E.
    rewrite (parse_layer_expression_spec p expr' stop' tail' fuel He' Hs' Hf').
    unfold record. rewrite Hval. reflexivity.
Qed.

Lemma derived_layer_forms_agree_witness :
  let expr := [mkToken IDENTIFIER "POLY" 1 19; mkToken AND "AND" 1 24;
               mkToken IDENTIFIER "ACTIVE" 1 28] in
  let expr' := [mkToken IDENTIFIER "POLY" 1 13; mkToken AND "AND" 1 18;
                mkToken IDENTIFIER "ACTIVE" 1 22] in
  let record := mkLayerDefinition "NMOS_GATE" None (Some "POLY AND ACTIVE") 1 in
  parse_layer_definition 3
    (set_tokens (new_parser [])
       (keyword_form "NMOS_GATE" 1 1 7 17 1 1 expr (mkToken EOF EmptyString 1 34) []))
  = Done (add_layer (set_tokens (new_parser []) [mkToken EOF EmptyString 1 34]) record)
  /\
  parse_derived_layer 3
    (set_tokens (new_parser [])
       (bare_form "NMOS_GATE" 1 1 11 1 expr' (mkToken EOF EmptyString 1 28) []))
  = Done (add_layer (set_tokens (new_parser []) [mkToken EOF EmptyString 1 28]) record).
Proof.
  intros expr expr' record.
  apply (derived_layer_forms_agree 3 (new_parser []) "NMOS_GATE" 1 1 7 17 1 1 1 11 1
           expr expr' (mkToken EOF EmptyString 1 34) (mkToken EOF EmptyString 1 28) [] []).
  - repeat constructor; discriminate.
  - repeat constructor; discriminate.
  - reflexivity.
  - right. left. reflexivity.
  - right. left. reflexivity.
  - simpl. lia.
Defined.

(** The two forms of the example statement, from text to Layer records. *)
Example derived_layer_forms_end_to_end :
  exists toks toks',
    tokenize "LAYER NMOS_GATE = POLY AND ACTIVE" = Some toks /\
    tokenize "NMOS_GATE = POLY AND ACTIVE" = Some toks' /\
    parse 4 toks = parse 4 toks' /\
    parse 4 toks' =
      Done (mkParseResult
              [mkLayerDefinition "NMOS_GATE" None (Some "POLY AND ACTIVE") 1]
              [] [] [] []).
Proof. do 2 eexists. repeat split; vm_compute; reflexivity. Qed.

(** C3. On the tokens of the text [R {], a rule block that is never closed,
    [parse] does not return whatever the number of iterations allowed: after
    the body of the rule, the loop of [parse_drc_rule] that looks for the
    closing brace stands on the end-of-input token, which [advance] does not
    pass. *)
Theorem parse_unclosed_rule_diverges :
  tokenize "R {" = Some unclosed_rule_tokens /\
  forall fuel, parse fuel unclosed_rule_tokens = Timeout.
Proof.
  split; [reflexivity|].
  intros [|fuel]; [reflexivity|].
  unfold parse, unclosed_rule_tokens. cbn.
  rewrite while_stuck; reflexivity.
Qed.

(** The same loop on a block that is closed: the loop over the additional
    parameters of a measure rule only advances on identifiers, so a second
    number stops it for ever. *)
Example parse_extra_number_diverges :
  exists toks,
    tokenize "R { INTERNAL1 M1 < 0.1 0.2 }" = Some toks /\
    forall fuel, parse fuel toks = Timeout.
Proof.
  eexists. split; [vm_compute; reflexivity|].
  intros [|fuel]; [reflexivity|].
  unfold parse. cbn.
  change (float "0.1") with (Some 0.1%Q). cbn.
  rewrite while_stuck; reflexivity.
Qed.

(** C6. The text [LAYER M1], a layer statement whose name is followed by
    neither a number nor an equals sign, followed by the line [LAYER M2 7]:
    the parser goes on and records the second layer, it records no layer
    for the first statement, and it records no diagnostic at all. *)
Theorem layer_without_number_no_diagnostic :
  exists toks,
    tokenize layer_without_number_text = Some toks /\
    parse 4 toks =
      Done (mkParseResult [mkLayerDefinition "M2" (Some 7%Z) None 2] [] [] [] []).
Proof. eexists. split; vm_compute; reflexivity. Qed.

(** The general case: after [LAYER name], a token that is neither a number
    nor an equals sign leaves the layers and the diagnostics as they were. *)
Lemma layer_definition_silent fuel p ln c0 nm ln1 c1 t ts :
  type t <> NUMBER -> type t <> ASSIGN ->
  parse_layer_definition fuel
    (set_tokens p (mkToken LAYER "LAYER" ln c0 :: mkToken IDENTIFIER nm ln1 c1 :: t :: ts))
  = Done (set_tokens p (t :: ts)).
Proof.
  intros Hn Ha. unfold parse_layer_definition. cbn.
  unfold TokenType_eqb.
  destruct (TokenType_eq_dec (type t) NUMBER); [contradiction|].
  destruct (TokenType_eq_dec (type t) ASSIGN); [contradiction|].
  reflexivity.
Qed.

End ParserClaims.

(* ================================================================== *)
(** * Facts about strings and about the matching of patterns *)
(* ================================================================== *)

Module ReFacts.

Import Py Re.
Local Open Scope string_scope.

Lemma app_assoc (a b c : string) : (a ++ b) ++ c = a ++ (b ++ c).
Proof. induction a as [|x a IH]; simpl; [reflexivity|]. rewrite IH. reflexivity. Qed.

Lemma take_app (a b : string) : take (String.length a) (a ++ b) = a.
Proof. induction a as [|x a IH]; simpl; [destruct b; reflexivity|]. rewrite IH. reflexivity. Qed.

Lemma drop_app (a b : string) : drop (String.length a) (a ++ b) = b.
Proof. induction a as [|x a IH]; simpl; [reflexivity|]. exact IH. Qed.

Lemma run_app (cls : ascii -> bool) (a b : string) :
  all_in cls a = true -> stops cls b = true -> run cls (a ++ b) = String.length a.
Proof.
  induction a as [|x a IH]; simpl; intros Ha Hb.
  - destruct b as [|y b]; [reflexivity|]. simpl in *.
    apply negb_true_iff in Hb. rewrite Hb. reflexivity.
  - apply andb_true_iff in Ha. destruct Ha as [Hx Ha]. rewrite Hx.
    rewrite IH by assumption. reflexivity.
Qed.

Lemma run_le (cls : ascii -> bool) (s : string) : run cls s <= String.length s.
Proof. induction s as [|x s IH]; simpl; [lia|]. destruct (cls x); lia. Qed.

Lemma char_eq_refl (a : ascii) : char_eq false a a = true.
Proof. apply Ascii.eqb_refl. Qed.

Lemma lit_at_app (l t : string) : lit_at false l (l ++ t) = true.
Proof.
  induction l as [|x l IH]; simpl; [reflexivity|].
  rewrite char_eq_refl. exact IH.
Qed.

Lemma lit_at_startswith (l s : string) : lit_at false l s = startswith l s.
Proof.
  revert s. induction l as [|x l IH]; intros [|y s]; simpl; try reflexivity.
  rewrite IH. reflexivity.
Qed.

Lemma longest_first_hit {A : Type} (n min : nat) (k : nat -> option A) (r : A) :
  min <= n -> k n = Some r -> longest_first n min k = Some r.
Proof.
  intros Hle Hk. destruct n as [|n]; simpl.
  - assert (min = 0) by lia. subst. simpl. rewrite Hk. reflexivity.
  - destruct (Nat.ltb_spec (S n) min) as [H|H]; [lia|].
    rewrite Hk. reflexivity.
Qed.

Lemma longest_first_none {A : Type} (min : nat) (k : nat -> option A) : forall n,
  (forall j, min <= j -> j <= n -> k j = None) -> longest_first n min k = None.
Proof.
  induction n as [|n IH]; intros H; simpl.
  - destruct (Nat.ltb_spec 0 min); [reflexivity|].
    rewrite H by lia. reflexivity.
  - destruct (Nat.ltb_spec (S n) min); [reflexivity|].
    rewrite H by lia. apply IH. intros j H1 H2. apply H; lia.
Qed.

(** A repetition takes the whole run of its class when what follows the run
    matches the rest of the pattern. *)
Lemma match_rep_greedy ic captured cls min pat a b groups :
  all_in cls a = true -> stops cls b = true -> min <= String.length a ->
  match_here ic pat b = Some groups ->
  match_here ic ((captured, Rep cls min) :: pat)%list (a ++ b)
  = Some (with_group captured a groups).
Proof.
  intros Ha Hb Hmin Hrest. cbn [match_here].
  rewrite (run_app cls a b Ha Hb).
  apply longest_first_hit; [exact Hmin|].
  rewrite drop_app, take_app, Hrest. reflexivity.
Qed.

(** A literal matches itself. *)
Lemma match_lit captured l pat t groups :
  match_here false pat t = Some groups ->
  match_here false ((captured, Lit l) :: pat)%list (l ++ t)
  = Some (with_group captured l groups).
Proof.
  intros Hrest. cbn [match_here].
  rewrite lit_at_app, drop_app, take_app, Hrest. reflexivity.
Qed.

(** No match starts with a repetition [cls+] in front of a character that
    is not in the class. *)
Lemma match_rep_no_run ic captured cls pat s :
  stops cls s = true ->
  match_here ic ((captured, Rep cls 1) :: pat)%list s = None.
Proof.
  intros Hs. cbn [match_here].
  assert (Hrun : run cls s = 0).
  { destruct s as [|c s]; [reflexivity|]. simpl in *.
    apply negb_true_iff in Hs. rewrite Hs. reflexivity. }
  rewrite Hrun. reflexivity.
Qed.

(** A match of a pattern that starts with a literal shows the literal. *)
Lemma search_lit_contains captured l pat : forall s groups,
  search false ((captured, Lit l) :: pat)%list s = Some groups ->
  contains l s = true.
Proof.
  induction s as [|c s IH]; intros groups H.
  - cbn [search] in H.
    destruct (match_here false ((captured, Lit l) :: pat)%list EmptyString) eqn:Hm;
      [|discriminate].
    cbn [match_here] in Hm. rewrite lit_at_startswith in Hm.
    simpl. destruct (startswith l EmptyString); [reflexivity|discriminate].
  - cbn [search] in H. cbn [contains].
    destruct (match_here false ((captured, Lit l) :: pat)%list (String c s)) eqn:Hm.
    + cbn [match_here] in Hm. rewrite lit_at_startswith in Hm.
      destruct (startswith l (String c s)); [reflexivity|discriminate].
    + rewrite (IH groups H). apply orb_true_r.
Qed.

Lemma match_rep_none ic captured cls min pat s :
  (forall j, min <= j -> j <= run cls s -> match_here ic pat (drop j s) = None) ->
  match_here ic ((captured, Rep cls min) :: pat)%list s = None.
Proof.
  intros H. cbn [match_here]. apply longest_first_none.
  intros j H1 H2. rewrite (H j H1 H2). reflexivity.
Qed.

Lemma match_lit_none ic captured l pat s :
  lit_at ic l s = false ->
  match_here ic ((captured, Lit l) :: pat)%list s = None.
Proof. intros H. cbn [match_here]. rewrite H. reflexivity. Qed.

Lemma match_lit_then_none ic captured l pat s :
  match_here ic pat (drop (String.length l) s) = None ->
  match_here ic ((captured, Lit l) :: pat)%list s = None.
Proof.
  intros H. cbn [match_here]. rewrite H. destruct (lit_at ic l s); reflexivity.
Qed.

Lemma drop_app_le (a b : string) : forall j,
  j <= String.length a -> drop j (a ++ b) = drop j a ++ b.
Proof.
  induction a as [|x a IH]; intros j Hj; simpl in Hj.
  - assert (j = 0) by lia. subst. reflexivity.
  - destruct j as [|j]; [reflexivity|]. simpl. apply IH. lia.
Qed.

Lemma drop_nonempty (a : string) : forall j,
  j < String.length a -> nonempty (drop j a) = true.
Proof.
  induction a as [|x a IH]; intros j Hj; simpl in Hj; [lia|].
  destruct j as [|j]; [reflexivity|]. simpl. apply IH. lia.
Qed.

Lemma run_app_le (cls : ascii -> bool) (a b : string) :
  stops cls b = true -> run cls (a ++ b) <= String.length a.
Proof.
  intros Hb. induction a as [|x a IH]; simpl.
  - destruct b as [|y b]; [simpl; lia|]. simpl in *.
    apply negb_true_iff in Hb. rewrite Hb. lia.
  - destruct (cls x); lia.
Qed.

Lemma run_app_lt (cls : ascii -> bool) (a b : string) :
  nonempty a = true -> ends_outside cls a = true ->
  run cls (a ++ b) < String.length a.
Proof.
  induction a as [|x a IH]; intros Hne He; [discriminate|].
  destruct a as [|y a].
  - simpl in *. apply negb_true_iff in He. rewrite He. lia.
  - change (ends_outside cls (String x (String y a)))
      with (ends_outside cls (String y a)) in He.
    specialize (IH eq_refl He).
    change ((String x (String y a)) ++ b) with (String x (String y a ++ b)).
    cbn [run String.length]. destruct (cls x); cbn [String.length] in *; lia.
Qed.

Lemma all_in_drop (cls : ascii -> bool) (a : string) : forall j,
  all_in cls a = true -> all_in cls (drop j a) = true.
Proof.
  induction a as [|x a IH]; intros j H; destruct j; simpl in *; auto.
  apply andb_true_iff in H. destruct H. auto.
Qed.

Lemma ends_outside_drop (cls : ascii -> bool) (a : string) : forall j,
  ends_outside cls a = true -> ends_outside cls (drop j a) = true.
Proof.
  induction a as [|x a IH]; intros j H; destruct j; simpl drop; auto.
  apply IH. destruct a; [reflexivity|exact H].
Qed.

Lemma contains_drop (p a : string) : forall j,
  contains p a = false -> contains p (drop j a) = false.
Proof.
  induction a as [|x a IH]; intros j H; destruct j; simpl drop; auto.
  apply IH. cbn [contains] in H. apply orb_false_iff in H. tauto.
Qed.

Lemma longest_first_inv {A : Type} (min : nat) (k : nat -> option A) (r : A) :
  forall n, longest_first n min k = Some r -> exists j, k j = Some r.
Proof.
  induction n as [|n IH]; simpl; intros H.
  - destruct (0 <? min)%nat; [discriminate|].
    destruct (k 0) eqn:E; [|discriminate]. inversion H. subst. eauto.
  - destruct (S n <? min)%nat; [discriminate|].
    destruct (k (S n)) eqn:E; [inversion H; subst; eauto|]. auto.
Qed.

Lemma first_alt_inv {A : Type} (k : string -> option A) (r : A) :
  forall alts, first_alt alts k = Some r -> exists l, k l = Some r.
Proof.
  induction alts as [|l alts IH]; simpl; intros H; [discriminate|].
  destruct (k l) eqn:E; [inversion H; subst; eauto|]. auto.
Qed.

Lemma contains_of_drop (p s : string) : forall j,
  contains p (drop j s) = true -> contains p s = true.
Proof.
  intros j H. destruct (contains p s) eqn:E; [reflexivity|].
  rewrite (contains_drop p s j E) in H. discriminate.
Qed.

Lemma startswith_contains (p s : string) : startswith p s = true -> contains p s = true.
Proof. intros H. destruct s; simpl in *; rewrite H; reflexivity. Qed.

(** A text in which a pattern matches shows every literal of the pattern. *)
Lemma match_shows_literals : forall pat s groups,
  match_here false pat s = Some groups ->
  forall captured l, In (captured, Lit l) pat -> contains l s = true.
Proof.
  induction pat as [|[cap a] pat IH]; intros s groups Hm captured l Hin;
    [destruct Hin|].
  assert (Hrest : forall n g, match_here false pat (drop n s) = Some g ->
                              In (captured, Lit l) pat -> contains l s = true).
  { intros n g Hg Hl. apply (contains_of_drop l s n). exact (IH _ _ Hg _ _ Hl). }
  cbn [match_here] in Hm. destruct a as [l0|alts|cls min].
  - destruct (lit_at false l0 s) eqn:Hlit; [|discriminate].
    destruct (match_here false pat (drop (String.length l0) s)) eqn:Hg; [|discriminate].
    destruct Hin as [Hin|Hin].
    + inversion Hin. subst. apply startswith_contains.
      rewrite <- lit_at_startswith. exact Hlit.
    + eapply Hrest; eauto.
  - apply first_alt_inv in Hm. destruct Hm as (l1 & Hm).
    destruct (lit_at false l1 s); [|discriminate].
    destruct (match_here false pat (drop (String.length l1) s)) eqn:Hg; [|discriminate].
    destruct Hin as [Hin|Hin]; [discriminate|]. eapply Hrest; eauto.
  - apply longest_first_inv in Hm. destruct Hm as (j & Hm).
    destruct (match_here false pat (drop j s)) eqn:Hg; [|discriminate].
    destruct Hin as [Hin|Hin]; [discriminate|]. eapply Hrest; eauto.
Qed.

Lemma search_shows_literals pat captured l :
  In (captured, Lit l) pat ->
  forall s groups, search false pat s = Some groups -> contains l s = true.
Proof.
  intros Hin. induction s as [|c s IH]; intros groups H; cbn [search] in H.
  - destruct (match_here false pat EmptyString) eqn:Hm; [|discriminate].
    exact (match_shows_literals _ _ _ Hm _ _ Hin).
  - destruct (match_here false pat (String c s)) eqn:Hm.
    + exact (match_shows_literals _ _ _ Hm _ _ Hin).
    + cbn [contains]. rewrite (IH groups H). apply orb_true_r.
Qed.

End ReFacts.

(* ================================================================== *)
(** * The rule classifier *)
(* ================================================================== *)

Module ClassifierFacts.

Import Py Re ReFacts FinalEnhancedTranslator.
Local Open Scope string_scope.

Lemma space_not_word (c : ascii) : space c = true -> word c = false.
Proof.
  destruct c as [[] [] [] [] [] [] [] []]; vm_compute; intros; congruence.
Qed.

Lemma word_not_space (c : ascii) : word c = true -> space c = false.
Proof.
  destruct c as [[] [] [] [] [] [] [] []]; vm_compute; intros; congruence.
Qed.

Lemma digit_dot_not_space (c : ascii) : digit_dot c = true -> space c = false.
Proof.
  destruct c as [[] [] [] [] [] [] [] []]; vm_compute; intros; congruence.
Qed.

(** A text that starts with a non-empty run of one class stops every class
    disjoint from it. *)
Lemma stops_disjoint (c1 c2 : ascii -> bool) (a b : string) :
  (forall x, c1 x = true -> c2 x = false) ->
  nonempty a = true -> all_in c1 a = true -> stops c2 (a ++ b) = true.
Proof.
  intros Hd Hne Ha. destruct a as [|x a]; [discriminate|].
  simpl in *. apply andb_true_iff in Ha. destruct Ha as [Hx _].
  rewrite (Hd x Hx). reflexivity.
Qed.

Lemma match_rep_grp cls min pat a b groups :
  all_in cls a = true -> stops cls b = true -> min <= String.length a ->
  match_here false pat b = Some groups ->
  match_here false (grp (Rep cls min) :: pat)%list (a ++ b) = Some (a :: groups)%list.
Proof. intros. apply (match_rep_greedy false true); assumption. Qed.

Lemma match_rep_raw cls min pat a b groups :
  all_in cls a = true -> stops cls b = true -> min <= String.length a ->
  match_here false pat b = Some groups ->
  match_here false (raw (Rep cls min) :: pat)%list (a ++ b) = Some groups.
Proof. intros. apply (match_rep_greedy false false); assumption. Qed.

Lemma match_lit_raw l pat t groups :
  match_here false pat t = Some groups ->
  match_here false (raw (Lit l) :: pat)%list (l ++ t) = Some groups.
Proof. intros. apply (match_lit false); assumption. Qed.

Lemma nonempty_length (s : string) : nonempty s = true -> 1 <= String.length s.
Proof. destruct s; [discriminate|simpl; lia]. Qed.

(** The operator group of the enclosure pattern. *)
Lemma match_enclosure_op o pat t groups :
  in_strings o [">="; "=="; "<="] = true ->
  match_here false pat t = Some groups ->
  match_here false (grp (Alt [">="; "=="; "<="]) :: pat)%list (o ++ t)
  = Some (o :: groups)%list.
Proof.
  intros Ho Hrest. unfold in_strings in Ho. simpl in Ho.
  destruct (String.eqb_spec o ">=") as [->|_];
    [|destruct (String.eqb_spec o "==") as [->|_];
      [|destruct (String.eqb_spec o "<=") as [->|_]; [|discriminate]]];
    cbn [match_here grp first_alt]; simpl; rewrite Hrest; reflexivity.
Qed.

Lemma op_not_space o t :
  in_strings o [">="; "=="; "<="] = true -> stops space (o ++ t) = true.
Proof.
  intros Ho. unfold in_strings in Ho. simpl in Ho.
  destruct (String.eqb_spec o ">=") as [->|_]; [reflexivity|].
  destruct (String.eqb_spec o "==") as [->|_]; [reflexivity|].
  destruct (String.eqb_spec o "<=") as [->|_]; [reflexivity|discriminate].
Qed.

Ltac split_wf H :=
  unfold well_formed in H;
  repeat match type of H with
         | _ && _ = true => let H1 := fresh "Hwf" in
                            apply andb_true_iff in H; destruct H as [H H1]
         end.

(** The enclosure pattern matches a text of the shape at its start, and its
    groups are the two layer names, the operator and the number. *)
Lemma enclosure_matches_shape sh post :
  well_formed sh = true -> stops digit_dot post = true ->
  match_here false enclosure_re (shape_text sh post)
  = Some [inner sh; outer sh; op sh; number sh]%list.
Proof.
  intros Hwf Hpost. split_wf Hwf.
  unfold enclosure_re, shape_text.
  apply match_rep_grp; [assumption| |apply nonempty_length; assumption|].
  { apply (stops_disjoint space word); auto using space_not_word. }
  apply match_rep_raw; [assumption|reflexivity|apply nonempty_length; assumption|].
  apply match_lit_raw.
  apply match_rep_raw; [assumption|reflexivity|apply nonempty_length; assumption|].
  apply match_lit_raw.
  apply match_rep_raw; [assumption| |apply nonempty_length; assumption|].
  { apply (stops_disjoint word space); auto using word_not_space. }
  apply match_rep_grp; [assumption| |apply nonempty_length; assumption|].
  { apply (stops_disjoint space word); auto using space_not_word. }
  apply match_rep_raw; [assumption|reflexivity|apply nonempty_length; assumption|].
  apply match_lit_raw.
  apply match_rep_raw; [assumption| |lia|].
  { apply op_not_space. assumption. }
  apply match_enclosure_op; [assumption|].
  apply match_rep_raw; [assumption| |lia|].
  { apply (stops_disjoint digit_dot space); auto using digit_dot_not_space. }
  apply match_rep_grp; [assumption|assumption|apply nonempty_length; assumption|].
  reflexivity.
Qed.

Lemma clean_prefix_drop pre j : clean_prefix pre = true -> clean_prefix (drop j pre) = true.
Proof.
  unfold clean_prefix. intros H. apply andb_true_iff in H. destruct H as [H1 H2].
  apply negb_true_iff in H1.
  rewrite (contains_drop _ _ j H1), (ends_outside_drop _ _ j H2). reflexivity.
Qed.

Lemma eqb_class_false (cls : ascii -> bool) (a x : ascii) :
  cls a = false -> cls x = true -> Ascii.eqb a x = false.
Proof.
  intros Ha Hx. destruct (Ascii.eqb_spec a x) as [->|]; [congruence|reflexivity].
Qed.

(** In front of any text, a non-empty clean prefix does not start with
    [NOT]. *)
Lemma clean_prefix_not_lit q t :
  nonempty q = true -> clean_prefix q = true -> lit_at false "NOT" (q ++ t) = false.
Proof.
  unfold clean_prefix. intros Hne H. apply andb_true_iff in H. destruct H as [H1 H2].
  apply negb_true_iff in H1. cbn [contains] in H1.
  destruct q as [|a q]; [discriminate|].
  apply orb_false_iff in H1. destruct H1 as [H1 _].
  cbn [append lit_at char_eq].
  destruct (Ascii.eqb_spec "N" a) as [<-|]; [|reflexivity]. cbn [andb].
  destruct q as [|b q]; [discriminate|].
  cbn [append lit_at char_eq].
  destruct (Ascii.eqb_spec "O" b) as [<-|]; [|reflexivity]. cbn [andb].
  destruct q as [|c q]; [discriminate|].
  cbn [append lit_at char_eq].
  destruct (Ascii.eqb_spec "T" c) as [<-|]; [|reflexivity].
  discriminate.
Qed.

Section Prefix.

Variable sh : EnclosureShape.
Variable post : string.
Hypothesis Hwf : well_formed sh = true.

Let body : string := shape_text sh post.

(** The pattern after the first layer name and the white space behind it. *)
Let tail_NOT : Pattern := List.tl (List.tl enclosure_re).
Let tail_INSIDE : Pattern := List.tl (List.tl tail_NOT).

Lemma body_stops_space : stops space body = true.
Proof.
  pose proof Hwf as H. split_wf H. unfold body, shape_text.
  apply (stops_disjoint word space); auto using word_not_space.
Qed.

(** After [NOT], when the text is the shape itself, [INSIDE] does not
    follow: what follows is the rest of the first layer name or the [NOT] of
    the shape. *)
Lemma no_INSIDE_after_leading_NOT :
  match_here false tail_NOT body = None.
Proof.
  pose proof Hwf as H. split_wf H.
  unfold tail_NOT, enclosure_re. cbn [List.tl].
  destruct (lit_at false "NOT" body) eqn:Hlit; [|apply match_lit_none; exact Hlit].
  apply match_lit_then_none. unfold body, shape_text in *.
  destruct (sp1 sh) as [|x s1] eqn:Es1; [discriminate|].
  assert (Hx : space x = true).
  { match goal with Hs : all_in space (String x s1) = true |- _ =>
      simpl in Hs; apply andb_true_iff in Hs; tauto end. }
  destruct (inner sh) as [|a [|b [|c i']]] eqn:Ei; [discriminate| | |].
  - exfalso. cbn [append lit_at char_eq] in Hlit.
    rewrite (eqb_class_false space "O" x eq_refl Hx) in Hlit.
    rewrite andb_false_r in Hlit. discriminate.
  - exfalso. cbn [append lit_at char_eq] in Hlit.
    rewrite (eqb_class_false space "T" x eq_refl Hx) in Hlit.
    rewrite !andb_false_r in Hlit. discriminate.
  - cbn [String.length append drop].
    destruct i' as [|d i'].
    + (* the name is three characters long: the white space, then NOT *)
      cbn [append]. apply match_rep_none. intros j Hj1 Hj2.
      assert (Hrun : run space (String x s1 ++ "NOT" ++ sp2 sh ++ "INSIDE" ++ sp3 sh
                                  ++ outer sh ++ sp4 sh ++ "BY" ++ sp5 sh ++ op sh
                                  ++ sp6 sh ++ number sh ++ post)
                     = String.length (String x s1)).
      { apply run_app; [assumption|reflexivity]. }
      change (String x (s1 ++ _)) with
        (String x s1 ++ "NOT" ++ sp2 sh ++ "INSIDE" ++ sp3 sh
           ++ outer sh ++ sp4 sh ++ "BY" ++ sp5 sh ++ op sh
           ++ sp6 sh ++ number sh ++ post) in *.
      rewrite Hrun in Hj2. rewrite drop_app_le by exact Hj2.
      apply match_lit_none.
      assert (Hsp : all_in space (drop j (String x s1)) = true)
        by (apply all_in_drop; assumption).
      destruct (drop j (String x s1)) as [|y t]; [reflexivity|].
      simpl in Hsp. apply andb_true_iff in Hsp. destruct Hsp as [Hy _].
      cbn [append lit_at char_eq].
      rewrite (eqb_class_false space "I" y eq_refl Hy). reflexivity.
    + (* the name goes on after its first three characters *)
      apply match_rep_no_run.
      match goal with Hw : all_in word (String a (String b (String c (String d i')))) = true |- _ =>
        simpl in Hw; repeat (apply andb_true_iff in Hw; destruct Hw as [? Hw]) end.
      cbn [append stops]. rewrite (word_not_space d) by assumption. reflexivity.
Qed.

(** No match of the enclosure pattern goes through [NOT] in front of a
    clean prefix. *)
Lemma no_NOT_in_prefix q :
  clean_prefix q = true -> match_here false tail_NOT (q ++ body) = None.
Proof.
  intros Hq. destruct (nonempty q) eqn:Hne.
  - unfold tail_NOT, enclosure_re. cbn [List.tl].
    apply match_lit_none. apply clean_prefix_not_lit; assumption.
  - destruct q; [|discriminate]. exact no_INSIDE_after_leading_NOT.
Qed.

Lemma no_space_NOT_in_prefix q :
  clean_prefix q = true ->
  match_here false (List.tl enclosure_re) (q ++ body) = None.
Proof.
  intros Hq. unfold enclosure_re. cbn [List.tl].
  apply match_rep_none. intros j Hj1 Hj2.
  pose proof (run_app_le space q body body_stops_space) as Hle.
  rewrite drop_app_le by lia.
  apply (no_NOT_in_prefix (drop j q)). apply clean_prefix_drop. exact Hq.
Qed.

(** No match of the enclosure pattern starts inside a clean prefix. *)
Lemma no_match_in_prefix q :
  nonempty q = true -> clean_prefix q = true ->
  match_here false enclosure_re (q ++ body) = None.
Proof.
  intros Hne Hq. unfold enclosure_re.
  apply match_rep_none. intros j Hj1 Hj2.
  assert (Hlt : run word (q ++ body) < String.length q).
  { apply run_app_lt; [exact Hne|].
    unfold clean_prefix in Hq. apply andb_true_iff in Hq. tauto. }
  rewrite drop_app_le by lia.
  apply (no_space_NOT_in_prefix (drop j q)). apply clean_prefix_drop. exact Hq.
Qed.

(** [re.search] finds the shape behind a clean prefix. *)
Lemma search_finds_shape :
  stops digit_dot post = true ->
  forall pre, clean_prefix pre = true ->
  search false enclosure_re (pre ++ body)
  = Some [inner sh; outer sh; op sh; number sh]%list.
Proof.
  intros Hpost. induction pre as [|c pre IH]; intros Hpre.
  - cbn [append]. unfold body.
    assert (Hm := enclosure_matches_shape sh post Hwf Hpost).
    destruct (shape_text sh post); cbn [search]; rewrite Hm; reflexivity.
  - change (String c pre ++ body) with (String c (pre ++ body)).
    cbn [search].
    change (String c (pre ++ body)) with (String c pre ++ body).
    rewrite (no_match_in_prefix (String c pre) eq_refl Hpre).
    apply IH. apply (clean_prefix_drop (String c pre) 1 Hpre).
Qed.

End Prefix.

End ClassifierFacts.

Module ClassifierClaims.

Import Py Re ReFacts FinalEnhancedTranslator ClassifierFacts.
Local Open Scope string_scope.

Lemma icv_operator_normalized r : icv_operator r = normalized (operator r).
Proof.
  unfold icv_operator, normalized, in_strings. cbn [existsb].
  destruct (String.eqb_spec (operator r) ">=") as [E|_].
  - rewrite E. reflexivity.
  - cbn [orb]. rewrite orb_false_r. reflexivity.
Qed.



(** The example of the specification, as a text. *)
Example enclosure_example :
  "ENCL_RULE { " ++ shape_text example_shape " }"
  = "ENCL_RULE { VIA1 NOT INSIDE M1 BY >= 0.05 }"
  /\ classified_rule "ENCL_RULE" "ENCL_RULE { VIA1 NOT INSIDE M1 BY >= 0.05 }" 1
     = Done (mkDRCRule "ENCL_RULE" EmptyString "enclosure" "VIA1" ">=" 0.05%Q 1
               None (Some "M1") None).
Proof. split; vm_compute; reflexivity. Qed.

(** An equality constraint is kept as [==] in the rule and written [>=] by
    [translate_rule]. *)
Example enclosure_equality_example :
  exists r,
    classified_rule "E" "E { VIA1 NOT INSIDE M1 BY == 0.05 }" 1 = Done r /\
    operator r = "==" /\ icv_operator r = ">=".
Proof. eexists. split; [vm_compute; reflexivity|]. split; reflexivity. Qed.

(** The claim C1 as it is stated fails: a body with a rectangle clause and a
    width clause that also has an enclosure clause is an enclosure rule. *)
Lemma rectangle_precedence_counterexample :
  ~ (forall content,
       search false rectangle_re content <> None ->
       search false (keyword_re "INTERNAL1") content <> None ->
       exists c, classify content = Done c /\ c_rule_type c = "pattern_matching").
Proof.
  intros H.
  destruct (H rectangle_width_enclosure) as (c & Hc & Ht).
  - vm_compute. discriminate.
  - vm_compute. discriminate.
  - vm_compute in Hc. inversion Hc. subst c. vm_compute in Ht. discriminate.
Qed.

(** C1, amended. In [parse_rule_content] the enclosure matcher and the
    antenna matcher come before the rectangle matcher, which comes before
    the width matcher: a body in which the rectangle pattern matches, in
    which the enclosure pattern does not match and which does not hold both
    [ANTENNA] and [MAX RATIO], is classified as a pattern-matching rule on
    the layer of the rectangle clause, whatever width clause it holds; and a
    body that holds [RECTANGLE] is never classified as a width rule. *)
Theorem rectangle_before_width :
  (forall content m,
     search false rectangle_re content = Some m ->
     search false enclosure_re content = None ->
     contains "ANTENNA" content && contains "MAX RATIO" content = false ->
     exists c,
       classify content = Done c /\
       c_rule_type c = "pattern_matching" /\
       c_layer c = group m 1 /\
       c_operator c = "RECTANGLE")
  /\
  (forall content c,
     contains "RECTANGLE" content = true ->
     classify content = Done c ->
     c_rule_type c <> "internal1").
Proof.
  split.
  - intros content m Hrect Hencl Hant.
    unfold classify. rewrite Hencl, Hant.
    assert (Hc : contains "RECTANGLE" content = true).
    { unfold rectangle_re, raw in Hrect.
      exact (search_lit_contains false "RECTANGLE" _ content m Hrect). }
    rewrite Hc, Hrect. eexists. split; [reflexivity|]. repeat split.
  - intros content c Hc Hclass. unfold classify in Hclass.
    destruct (search false enclosure_re content).
    { unfold to_float in Hclass. destruct (float _); [|discriminate].
      inversion Hclass. discriminate. }
    destruct (contains "ANTENNA" content && contains "MAX RATIO" content).
    { destruct (search false antenna_re content).
      - unfold to_float in Hclass. destruct (float _); [|discriminate].
        inversion Hclass. discriminate.
      - inversion Hclass. discriminate. }
    rewrite Hc in Hclass.
    destruct (search false rectangle_re content); inversion Hclass; discriminate.
Qed.

Lemma rectangle_before_width_witness :
  (exists c,
     classify pattern_rule_content = Done c /\
     c_rule_type c = "pattern_matching" /\
     c_layer c = "M1" /\
     c_operator c = "RECTANGLE")
  /\
  (forall c, classify pattern_rule_content = Done c -> c_rule_type c <> "internal1").
Proof.
  split.
  - apply (proj1 rectangle_before_width pattern_rule_content
             ["M1"; ">"; "20.0"; ">"; "2.0"]%list); reflexivity.
  - intros c. apply (proj2 rectangle_before_width pattern_rule_content c). reflexivity.
Defined.

(** The list of [EnhancedSVRFParser] has the width pattern first: the
    PATTERN_RULE of its test is a width rule there. *)
Example enhanced_parser_width_first :
  exists r,
    EnhancedSvrfParser.extracted_rule "PATTERN_RULE" pattern_rule_content 1 = Done r /\
    EnhancedSvrfParser.rule_type r = "internal1".
Proof. eexists. split; [vm_compute; reflexivity|reflexivity]. Qed.

(** C2. On a width rule whose number has two dots, [1.2.3], the width
    pattern matches and the conversion of the number raises [ValueError]:
    [parse_rule_content] raises and appends no rule, [parse_file] drops the
    exception and ends with no rule, and [extract_rule_details] of the
    simple parser raises too. *)
Theorem malformed_number_raises :
  search false (keyword_re "INTERNAL1") two_dots_content
    = Some ["M1"; "<"; "1.2.3"]%list /\
  classified_rule "W" two_dots_content 1 = Raised "ValueError" /\
  parse_rule_content new_translator "W" two_dots_content 1 = Raised "ValueError" /\
  parse_file [two_dots_content]%list = Some new_translator /\
  SimpleSvrfParser.extracted_rule "W" two_dots_content 1 = Raised "ValueError".
Proof. repeat split; vm_compute; reflexivity. Qed.

(** When no matcher fires, the rule is unknown, with empty layer and
    operator and value 0.0, under its own name and with the description
    found in the content. *)
Lemma unmatched_is_unknown nm content ln :
  classify content = Done unclassified ->
  parse_rule_content new_translator nm content ln
  = Done (add_rule new_translator
            (mkDRCRule nm (extract_description content) "unknown" EmptyString
               EmptyString 0%Q ln None None None)).
Proof.
  intros H. unfold parse_rule_content, classified_rule. rewrite H. reflexivity.
Qed.

(** A content that holds none of the keywords of the matchers is
    unclassified. *)
Lemma no_keyword_unclassified content :
  contains "NOT" content = false ->
  existsb (fun k => contains k content)
    ["ANTENNA"; "RECTANGLE"; "SAME_MASK"; "EXTERNAL"; "DENSITY"; "AREA";
     "INTERNAL2"; "INTERNAL1"]%list = false ->
  classify content = Done unclassified.
Proof.
  intros Hnot Hk. cbn [existsb] in Hk.
  repeat (apply orb_false_iff in Hk; destruct Hk as [? Hk]).
  unfold classify.
  assert (He : search false enclosure_re content = None).
  { destruct (search false enclosure_re content) as [m|] eqn:E; [|reflexivity].
    assert (Hin : In (false, Lit "NOT") enclosure_re)
      by (unfold enclosure_re, raw; simpl; tauto).
    rewrite (search_shows_literals _ _ _ Hin _ _ E) in Hnot. discriminate. }
  rewrite He.
  repeat match goal with
         | Hx : contains ?k content = false |- context [contains ?k content] =>
             rewrite Hx
         end.
  cbn [andb]. reflexivity.
Qed.

(** No description starts in a text without [@]. *)
Lemma description_skips_prefix t : forall pre,
  count "@" pre = 0%nat ->
  search false description_re (pre ++ t) = search false description_re t.
Proof.
  induction pre as [|c pre IH]; intros Hc; [reflexivity|].
  cbn [count] in Hc.
  destruct (Ascii.eqb_spec c "@") as [->|Hne]; [discriminate|].
  cbn [append search].
  assert (Hm : match_here false description_re (String c (pre ++ t)) = None).
  { unfold description_re. apply match_lit_none. cbn [lit_at char_eq].
    destruct (Ascii.eqb_spec "@" c) as [E|_]; [congruence|reflexivity]. }
  rewrite Hm. apply IH. exact Hc.
Qed.

(** The description of a rule is the text between the quotes of the first
    annotation [@ "..."] of its content. *)
Lemma description_extracted pre sp d post :
  count "@" pre = 0%nat ->
  all_in space sp = true ->
  nonempty d = true -> all_in not_dquote d = true ->
  extract_description (pre ++ "@" ++ sp ++ dq ++ d ++ dq ++ post) = d.
Proof.
  intros Hpre Hsp Hne Hd. unfold extract_description.
  rewrite description_skips_prefix by exact Hpre.
  assert (Hm : match_here false description_re ("@" ++ sp ++ dq ++ d ++ dq ++ post)
               = Some [d]%list).
  { unfold description_re.
    apply match_lit_raw.
    apply match_rep_raw; [exact Hsp|reflexivity|apply Nat.le_0_l|].
    apply match_lit_raw.
    apply match_rep_grp; [exact Hd|reflexivity|apply nonempty_length; exact Hne|].
    apply match_lit_raw. reflexivity. }
  cbn [append] in *. cbn [search]. rewrite Hm. reflexivity.
Qed.

(** The line-based parser records nothing for a layer statement without a
    number, and nothing for the keyword form of a derived layer, whose
    equals sign it tries to read as a number. *)
Example line_parser_layer_statements :
  parse_file ["LAYER M1"; "LAYER M2 7"]%list
  = Some (mkTranslator [mkLayer "M2" (Some 7%Z) None 2]%list []%list []%list []%list)
  /\
  parse_file ["LAYER X = A AND B"]%list = Some new_translator
  /\
  parse_file ["X = A AND B"]%list
  = Some (mkTranslator [mkLayer "X" None (Some "A AND B") 1]%list []%list []%list []%list).
Proof. repeat split; vm_compute; reflexivity. Qed.

End ClassifierClaims.

(* ================================================================== *)
(** * The layer-expression rewriter *)
(* ================================================================== *)

Module RewriterClaims.

Import Py ReFacts.
Local Open Scope string_scope.

(** [replace] leaves a text without occurrence of [old] as it is. *)
Lemma replace_absent old new : forall s,
  contains old s = false -> replace old new s = s.
Proof.
  unfold replace. induction s as [|c s IH]; intros H; [reflexivity|].
  cbn [contains] in H. apply orb_false_iff in H. destruct H as [H1 H2].
  cbn [replace_from]. rewrite H1, (IH H2). reflexivity.
Qed.

(** C9. The expression [NOT POLY], a connective at the start of the text,
    comes back unchanged from [translate_layer_expression] and from the
    layer branch of [translate_to_icv]: only the connectives that stand
    between two spaces are replaced. *)
Theorem leading_connective_kept :
  SvrfToIcvTranslator.translate_layer_expression "NOT POLY" = "NOT POLY" /\
  FinalEnhancedTranslator.translate_expression "NOT POLY" = "NOT POLY".
Proof. split; reflexivity. Qed.

(** The example of the specification, and connectives that touch a
    parenthesis or the end of the text. *)
Example rewrite_examples :
  SvrfToIcvTranslator.translate_layer_expression "POLY AND ACTIVE" = "POLY & ACTIVE" /\
  SvrfToIcvTranslator.translate_layer_expression "(A OR B) NOT C" = "(A | B) ! C" /\
  SvrfToIcvTranslator.translate_layer_expression "(A)AND(B)" = "(A)AND(B)" /\
  SvrfToIcvTranslator.translate_layer_expression "A AND AND B" = "A & AND B".
Proof. repeat split; reflexivity. Qed.

(** An expression without a connective between spaces is returned as it
    is. *)
Lemma rewrite_without_connective expression :
  contains " AND " expression = false ->
  contains " OR " expression = false ->
  contains " NOT " expression = false ->
  SvrfToIcvTranslator.translate_layer_expression expression = expression.
Proof.
  intros Ha Ho Hn. unfold SvrfToIcvTranslator.translate_layer_expression.
  destruct (is_empty expression) eqn:E; [destruct expression; [reflexivity|discriminate]|].
  rewrite (replace_absent _ _ _ Ha), (replace_absent _ _ _ Ho), (replace_absent _ _ _ Hn).
  reflexivity.
Qed.

End RewriterClaims.

(* ================================================================== *)
(** * The rule-block scanner *)
(* ================================================================== *)

Module BlockClaims.

Import Py FinalEnhancedTranslator.

(** The code and the claim C10 as it is stated differ on a block whose first
    line closes a brace before it opens one: the scanner ends the block on
    this line, where the count of braces has never been positive. *)
Lemma block_end_counterexample :
  rule_block close_then_open_lines 0 = Done ("R }", "R } {", 0) /\
  claimed_end close_then_open_lines 0 0%Z false = 3.
Proof. split; vm_compute; reflexivity. Qed.

Lemma count_app c (a b : string) : count c (a ++ b)%string = count c a + count c b.
Proof. induction a as [|x a IH]; simpl; [reflexivity|]. rewrite IH. lia. Qed.

Lemma closes_from_cons l ls bc found k :
  closes_from (l :: ls) bc found (S k)
  = closes_from ls
      (bc + (Z.of_nat (open_braces (strip l)) - Z.of_nat (close_braces (strip l))))%Z
      ((0 <? open_braces (strip l)) || found) k.
Proof. reflexivity. Qed.

(** Where [scan_block] stops: within the lines, at a line that closes the
    block, no line before it doing so. *)
Lemma scan_block_end : forall ls i rule_lines bc found,
  let r := fst (scan_block ls i rule_lines bc found) in
  i <= r /\ r <= i + List.length ls /\
  (r < i + List.length ls -> closes_from ls bc found (r - i) = true) /\
  (forall k, k < r - i -> closes_from ls bc found k = false).
Proof.
  induction ls as [|l ls IH]; intros i rule_lines bc found r.
  - subst r. simpl. repeat split; try lia.
  - subst r. cbn [scan_block].
    set (rl := if is_empty (strip l) then rule_lines
               else (rule_lines ++ [strip l])%list).
    set (found' := if 0 <? open_braces (strip l) then true else found).
    set (bc' := (bc + (Z.of_nat (open_braces (strip l))
                       - Z.of_nat (close_braces (strip l))))%Z).
    assert (Hf : found' = ((0 <? open_braces (strip l)) || found)).
    { unfold found'. destruct (0 <? open_braces (strip l)); reflexivity. }
    assert (H0 : closes_from (l :: ls) bc found 0 = found' && (bc' =? 0)%Z).
    { unfold closes_from. cbn [firstn tally]. rewrite <- Hf. reflexivity. }
    destruct (found' && (bc' =? 0)%Z) eqn:Hclose.
    + cbn [fst]. cbn [List.length].
      split; [lia|]. split; [lia|]. split.
      * intros _. rewrite Nat.sub_diag. rewrite H0. reflexivity.
      * intros k Hk. lia.
    + specialize (IH (S i) rl bc' found').
      cbv zeta in IH. destruct IH as (H1 & H2 & H3 & H4).
      set (r := fst (scan_block ls (S i) rl bc' found')) in *.
      cbn [List.length].
      split; [lia|]. split; [lia|]. split.
      * intros Hr. replace (r - i) with (S (r - S i)) by lia.
        rewrite closes_from_cons. rewrite <- Hf. apply H3. lia.
      * intros k Hk. destruct k as [|k]; [rewrite H0; reflexivity|].
        rewrite closes_from_cons. rewrite <- Hf. apply H4. lia.
Qed.

(** C10, amended. [parse_rule_block] ends a block at the first line, from
    the line of the rule name on, at the end of which an opening brace has
    been seen and the count of opening braces minus the count of closing
    braces, over the lines read so far, is zero; when no line is such it
    runs to the end of the file.  The counts are counts of characters:
    every brace adds one, whatever stands around it, a quoted description
    or a comment as well. *)
Theorem block_end_by_brace_counts :
  (forall lines start_idx rule_name content i,
     rule_block lines start_idx = Done (rule_name, content, i) ->
     let ls := skipn start_idx lines in
     start_idx <= i /\ i <= List.length lines /\
     (i < List.length lines -> closes_at ls (i - start_idx) = true) /\
     (forall k, k < i - start_idx -> closes_at ls k = false))
  /\
  (forall a b : string,
     open_braces (a ++ "{" ++ b)%string = open_braces a + 1 + open_braces b /\
     close_braces (a ++ "}" ++ b)%string = close_braces a + 1 + close_braces b).
Proof.
  split.
  - intros lines start_idx rule_name content i H ls.
    unfold rule_block in H.
    destruct (nth_error lines start_idx) as [l|] eqn:Hnth; [|discriminate].
    pose proof (scan_block_end ls start_idx [] 0%Z false) as Hs.
    cbv zeta in Hs. fold ls in H.
    destruct (scan_block ls start_idx [] 0%Z false) as [i' rule_lines].
    inversion H. subst i'. cbn [fst] in Hs.
    assert (Hlen : start_idx + List.length ls = List.length lines).
    { unfold ls. rewrite length_skipn.
      assert (start_idx < List.length lines)
        by (apply nth_error_Some; congruence).
      lia. }
    rewrite Hlen in Hs. unfold closes_at. tauto.
  - intros a b. unfold open_braces, close_braces.
    rewrite !count_app. simpl. split; lia.
Qed.

Lemma block_end_by_brace_counts_witness :
  (let ls := skipn 0 brace_in_description_lines in
   0 <= 1 /\ 1 <= List.length brace_in_description_lines /\
   (1 < List.length brace_in_description_lines -> closes_at ls (1 - 0) = true) /\
   (forall k, k < 1 - 0 -> closes_at ls k = false)).
Proof.
  apply (proj1 block_end_by_brace_counts brace_in_description_lines 0 "R"
           ("R { @ " ++ dq ++ "a } b" ++ dq)%string).
  vm_compute. reflexivity.
Defined.

(** The closing brace inside the description ends the block at the line of
    the description: the rule loses its width clause. *)
Example brace_in_description_ends_block :
  rule_block brace_in_description_lines 0
  = Done ("R", ("R { @ " ++ dq ++ "a } b" ++ dq)%string, 1).
Proof. vm_compute. reflexivity. Qed.

End BlockClaims.

(* ================================================================== *)
(** * Derived layers in the line-based parsers *)
(* ================================================================== *)

Module LineParserClaims.

Import Py.

(** C5. The line-based parsers do not read the keyword form of a derived
    layer.  On the line [LAYER NMOS_GATE = POLY AND ACTIVE], the parser of
    simple_svrf_parser.py takes the branch of the layer definitions, where
    [int] is given the equals sign and raises [ValueError]: no layer is
    recorded, and the error goes into [self.errors].  The parser of
    final_enhanced_translator.py does the same and drops the error.  On the
    bare form [NMOS_GATE = POLY AND ACTIVE] both record the derived layer.
    So the two forms do not give the same Layer record there, as they do in
    the token parser. *)
Theorem keyword_form_lost_by_line_parsers :
  SimpleSvrfLines.parse_file [SimpleSvrfLines.keyword_form_line]
  = Some (SimpleSvrfLines.mkParser [] [] []
            [SimpleSvrfLines.mkLineError 1 "ValueError"])
  /\
  SimpleSvrfLines.parse_file [SimpleSvrfLines.bare_form_line]
  = Some (SimpleSvrfLines.mkParser
            [SimpleSvrfLines.mkLayer "NMOS_GATE" None (Some "POLY AND ACTIVE") 1]
            [] [] [])
  /\
  FinalEnhancedTranslator.parse_file [SimpleSvrfLines.keyword_form_line]
  = Some FinalEnhancedTranslator.new_translator
  /\
  FinalEnhancedTranslator.parse_file [SimpleSvrfLines.bare_form_line]
  = Some (FinalEnhancedTranslator.mkTranslator
            [FinalEnhancedTranslator.mkLayer "NMOS_GATE" None (Some "POLY AND ACTIVE") 1]
            [] [] []).
Proof. repeat split; vm_compute; reflexivity. Qed.

End LineParserClaims.

(* ================================================================== *)
(** * Further properties of the lexer *)
(* ================================================================== *)

Module LexerMore.

Import Py SvrfDrcParser LexerFacts TokenShape.

Lemma tokenize_loop_count : forall fuel lx toks toks' lx',
  tokenize_loop fuel lx toks = Some (toks', lx') ->
  List.length toks' + String.length (rest lx')
  <= List.length toks + String.length (rest lx).
Proof.
  induction fuel as [|fuel IH]; intros lx toks toks' lx' H; cbn [tokenize_loop] in H.
  - destruct (current_char lx); [|inversion H; subst; lia].
    destruct (tokenize_step lx toks) as [[t1 l1]|] eqn:Hstep; [discriminate|].
    inversion H. subst.
    pose proof (skip_whitespace_from_le (rest lx) (lx_line lx) (lx_column lx)).
    unfold skip_whitespace. lia.
  - destruct (current_char lx); [|inversion H; subst; lia].
    destruct (tokenize_step lx toks) as [[t1 l1]|] eqn:Hstep.
    + apply IH in H. apply tokenize_step_progress in Hstep.
      destruct Hstep as [Hlt [->|(t & -> & _)]]; [lia|].
      rewrite length_app in H. cbn [List.length] in H. lia.
    + inversion H. subst.
      pose proof (skip_whitespace_from_le (rest lx) (lx_line lx) (lx_column lx)).
      unfold skip_whitespace. lia.
Qed.

(** X1. [tokenize] gives at most one token for each character of the text, and
    the end-of-input token. *)
Theorem token_count_bound :
  forall text toks,
    tokenize text = Some toks ->
    List.length toks <= String.length text + 1.
Proof.
  intros text toks H. unfold tokenize in H.
  destruct (tokenize_loop (String.length text) (mkLexer text 1 1) [])
    as [[ts lx]|] eqn:Hrun; [|discriminate].
  inversion H. subst. apply tokenize_loop_count in Hrun.
  rewrite length_app. cbn [List.length rest] in *. lia.
Qed.

Lemma token_count_bound_witness :
  List.length
    [mkToken IDENTIFIER "a" 1 1; mkToken IDENTIFIER "b" 1 3;
     mkToken EOF EmptyString 1 4]
  <= String.length "a#b" + 1.
Proof. apply (token_count_bound "a#b"). reflexivity. Defined.

Lemma read_while_all p s : forall l col,
  all_chars p (fst (read_while p s l col)) = true.
Proof.
  induction s as [|c r IH]; intros l col; [reflexivity|].
  cbn [read_while]. destruct (p c) eqn:Hp; [|reflexivity].
  destruct (advance_pos c l col) as [l' col']. specialize (IH l' col').
  destruct (read_while p r l' col') as [v lx]. cbn [fst all_chars] in *.
  rewrite Hp, IH. reflexivity.
Qed.

Lemma read_while_nonempty p c r l col :
  p c = true -> is_empty (fst (read_while p (String c r) l col)) = false.
Proof.
  intros Hp. cbn [read_while]. rewrite Hp.
  destruct (advance_pos c l col) as [l' col'].
  destruct (read_while p r l' col'). reflexivity.
Qed.

Lemma keywords_word_kind v : is_word_kind (dict_get keywords v IDENTIFIER) = true.
Proof.
  unfold keywords. simpl.
  repeat match goal with
         | |- context [if ?b then _ else _] => destruct b
         end; reflexivity.
Qed.

Lemma TokenType_eqb_refl ty : TokenType_eqb ty ty = true.
Proof. unfold TokenType_eqb. destruct (TokenType_eq_dec ty ty); congruence. Qed.

Lemma single_char_token_ok c ty l col :
  char_lookup single_char_tokens c = Some ty ->
  token_ok (mkToken ty (str1 c) l col) = true.
Proof.
  unfold single_char_tokens. cbn [char_lookup].
  repeat match goal with
         | |- context [Ascii.eqb ?k c] =>
             destruct (Ascii.eqb_spec k c);
             [intros H; inversion H; subst; reflexivity|]
         end.
  discriminate.
Qed.

(** The token that one iteration of the main loop appends is well formed. *)
Lemma tokenize_step_ok lx toks toks' lx' :
  tokenize_step lx toks = Some (toks', lx') ->
  toks' = toks \/ exists t, toks' = toks ++ [t] /\ token_ok t = true.
Proof.
  unfold tokenize_step.
  destruct (skip_whitespace lx) as [s l col].
  unfold current_char, peek_char. cbn [rest lx_line lx_column].
  destruct s as [|c r]; [discriminate|].
  destruct (Ascii.eqb c "/" && _).
  { destruct (read_comment _) as [t lx2] eqn:Hrc. intros H. inversion H. subst.
    right. exists t. split; [reflexivity|].
    unfold read_comment in Hrc.
    destruct (match current_char _, peek_char _ with
              | Some c0, Some d => _ | _, _ => false end).
    - destruct (read_while _ _ _ _). inversion Hrc. reflexivity.
    - inversion Hrc. reflexivity. }
  destruct (Ascii.eqb c NL) eqn:Hnl.
  { intros [= <- <-]. right. eexists. split; [reflexivity|].
    apply Ascii.eqb_eq in Hnl. subst c. reflexivity. }
  destruct (Ascii.eqb c DQUOTE || Ascii.eqb c SQUOTE).
  { unfold read_string. cbn [rest lx_line lx_column].
    destruct (read_string_from _ _ _ _) as [v lx2].
    intros [= <- <-]. right. eexists. split; reflexivity. }
  destruct (isdigit c || _) eqn:Hnum.
  { unfold read_number. cbn [rest lx_line lx_column].
    assert (Hp : (fun c => isdigit c || Ascii.eqb c ".") c = true).
    { apply orb_true_iff in Hnum. destruct Hnum as [H|H].
      - rewrite H. reflexivity.
      - apply andb_true_iff in H. destruct H as [H _]. rewrite H. apply orb_true_r. }
    pose proof (read_while_all (fun c => isdigit c || Ascii.eqb c ".") (String c r) l col) as Ha.
    pose proof (read_while_nonempty _ c r l col Hp) as Hne.
    destruct (read_while _ (String c r) l col) as [v lx2]. cbn [fst] in Ha, Hne.
    intros [= <- <-]. right. eexists. split; [reflexivity|].
    unfold token_ok, type, value. cbv beta iota.
    change (is_word_kind NUMBER) with false. cbv beta iota.
    rewrite Hne, Ha. reflexivity. }
  destruct (isalpha c || Ascii.eqb c "_") eqn:Hid.
  { unfold read_identifier. cbn [rest lx_line lx_column].
    assert (Hp : (fun c => isalnum c || Ascii.eqb c "_") c = true).
    { apply orb_true_iff in Hid. destruct Hid as [H|H].
      - unfold isalnum. rewrite H. reflexivity.
      - rewrite H. apply orb_true_r. }
    pose proof (read_while_all (fun c => isalnum c || Ascii.eqb c "_") (String c r) l col) as Ha.
    pose proof (read_while_nonempty _ c r l col Hp) as Hne.
    destruct (read_while _ (String c r) l col) as [v lx2]. cbn [fst] in Ha, Hne.
    intros [= <- <-]. right.
    exists (mkToken (dict_get keywords v IDENTIFIER) v l col). split; [reflexivity|].
    unfold token_ok, type, value. cbv beta iota.
    rewrite keywords_word_kind, Hne, Ha, TokenType_eqb_refl. reflexivity. }
  destruct (Ascii.eqb c "=" && _).
  { intros [= <- <-]. right. eexists. split; reflexivity. }
  destruct (char_lookup single_char_tokens c) as [ty|] eqn:Hty.
  { intros [= <- <-]. right. eexists. split; [reflexivity|].
    apply single_char_token_ok. exact Hty. }
  intros [= <- <-]. left. reflexivity.
Qed.

Lemma tokenize_loop_ok : forall fuel lx toks toks' lx',
  Forall (fun t => token_ok t = true) toks ->
  tokenize_loop fuel lx toks = Some (toks', lx') ->
  Forall (fun t => token_ok t = true) toks'.
Proof.
  induction fuel as [|fuel IH]; intros lx toks toks' lx' Hok H; cbn [tokenize_loop] in H.
  - destruct (current_char lx); [|inversion H; subst; exact Hok].
    destruct (tokenize_step lx toks) as [[t1 l1]|]; [discriminate|].
    inversion H. subst. exact Hok.
  - destruct (current_char lx); [|inversion H; subst; exact Hok].
    destruct (tokenize_step lx toks) as [[t1 l1]|] eqn:Hstep.
    + apply (IH l1 t1 toks' lx'); [|exact H].
      apply tokenize_step_ok in Hstep. destruct Hstep as [->|(t & -> & Ht)]; [exact Hok|].
      apply Forall_app. split; [exact Hok|]. constructor; [exact Ht|constructor].
    + inversion H. subst. exact Hok.
Qed.

(** X2. Every token that [tokenize] gives is well formed: a keyword token holds
    its keyword, an identifier holds a word that is no keyword, a number
    holds digits and dots, a punctuation mark holds its character. *)
Theorem tokens_well_formed :
  forall text toks,
    tokenize text = Some toks ->
    Forall (fun t => token_ok t = true) toks.
Proof.
  intros text toks H. unfold tokenize in H.
  destruct (tokenize_loop (String.length text) (mkLexer text 1 1) [])
    as [[ts lx]|] eqn:Hrun; [|discriminate].
  inversion H. subst.
  apply Forall_app. split.
  - exact (tokenize_loop_ok _ _ _ _ _ (Forall_nil _) Hrun).
  - constructor; [reflexivity|constructor].
Qed.

Lemma tokens_well_formed_witness :
  Forall (fun t => token_ok t = true)
    [mkToken LAYER "LAYER" 1 1; mkToken IDENTIFIER "M1" 1 7; mkToken NUMBER "50" 1 10;
     mkToken EOF EmptyString 1 12].
Proof. apply (tokens_well_formed "LAYER M1 50"). reflexivity. Defined.

End LexerMore.

(* ================================================================== *)
(** * Further properties of the structural parser *)
(* ================================================================== *)

Module ParserMore.

Import Py SvrfDrcParser ParserFacts ParserShape SvrfDrcAnalyzer.

Lemma bind_done {A B : Type} (m : Res A) (k : A -> Res B) (r : B) :
  bind m k = Done r -> exists a, m = Done a /\ k a = Done r.
Proof. destruct m; simpl; intros H; try discriminate. eauto. Qed.

(** What holds of the start of a loop and is kept by its body holds of its
    result. *)
Lemma while_keeps {S : Type} (P : S -> Prop) (cond : S -> bool) (body : S -> Res S) :
  (forall s s', P s -> body s = Done s' -> P s') ->
  forall fuel s r, P s -> while_ fuel cond body s = Done r -> P r.
Proof.
  intros Hbody. induction fuel as [|fuel IH]; intros s r Hs H; simpl in H.
  - destruct (cond s); [discriminate|]. inversion H. subst. exact Hs.
  - destruct (cond s); [|inversion H; subst; exact Hs].
    apply bind_done in H. destruct H as (s' & Hb & Hw).
    exact (IH s' r (Hbody s s' Hs Hb) Hw).
Qed.

Lemma core_advance p : core (p_advance p) = core p.
Proof. unfold p_advance. destruct (tokens p) as [|t [|u ts]]; reflexivity. Qed.

Lemma advance_loop_core fuel cond p r :
  while_ fuel cond (fun p => Done (p_advance p)) p = Done r -> core r = core p.
Proof.
  apply (while_keeps (fun q => core q = core p)); [|reflexivity].
  intros s s' Hs H. inversion H. subst. rewrite core_advance. exact Hs.
Qed.

Lemma skip_newlines_core fuel p r : skip_newlines fuel p = Done r -> core r = core p.
Proof. apply advance_loop_core. Qed.

Lemma skip_comments_core fuel p r : skip_comments fuel p = Done r -> core r = core p.
Proof. apply advance_loop_core. Qed.

Lemma parse_include_core p : core (parse_include p) = core p.
Proof.
  unfold parse_include. destruct (current_token (p_advance p)) as [t|].
  - destruct (TokenType_eqb (type t) STRING).
    + rewrite core_advance. unfold add_include, core. cbn. apply core_advance.
    + apply core_advance.
  - apply core_advance.
Qed.

Lemma take_value_if_core tys d p : core (snd (take_value_if tys d p)) = core p.
Proof.
  unfold take_value_if. destruct (current_token p) as [t|]; [|reflexivity].
  destruct (existsb _ tys); [apply core_advance|reflexivity].
Qed.

Lemma take_float_core d p x p' :
  take_float_if_number d p = Done (x, p') -> core p' = core p.
Proof.
  unfold take_float_if_number. destruct (current_token p) as [t|].
  - destruct (TokenType_eqb (type t) NUMBER).
    + destruct (float (value t)); [|discriminate].
      intros [= <- <-]. apply core_advance.
    + intros [= <- <-]. reflexivity.
  - intros [= <- <-]. reflexivity.
Qed.

Lemma parse_layer_expression_core fuel p e p' :
  parse_layer_expression fuel p = Done (e, p') -> core p' = core p.
Proof.
  unfold parse_layer_expression. intros H.
  apply bind_done in H. destruct H as ([parts q] & Hw & H).
  inversion H. subst.
  apply (while_keeps (fun st : list string * Parser => core (snd st) = core p)) in Hw;
    [exact Hw| |reflexivity].
  intros [a s] [a' s'] Hs Hb. cbn [snd] in *.
  destruct (current_token s); inversion Hb; subst; [rewrite core_advance|]; exact Hs.
Qed.

Lemma parse_measure_body_core fuel p b p' :
  parse_measure_body fuel p = Done (b, p') -> core p' = core p.
Proof.
  unfold parse_measure_body.
  pose proof (take_value_if_core [IDENTIFIER] EmptyString p) as H1.
  destruct (take_value_if [IDENTIFIER] EmptyString p) as [ly p1]. cbn [snd] in H1.
  pose proof (take_value_if_core [LT; GT; EQ] EmptyString p1) as H2.
  destruct (take_value_if [LT; GT; EQ] EmptyString p1) as [cs p2]. cbn [snd] in H2.
  intros H. apply bind_done in H. destruct H as ([x p3] & H3 & H).
  apply take_float_core in H3.
  apply bind_done in H. destruct H as ([ps p4] & Hw & H).
  inversion H. subst.
  apply (while_keeps (fun st : list (string * ParamValue) * Parser =>
                        core (snd st) = core p3)) in Hw; [| |reflexivity].
  - cbn [snd] in Hw. congruence.
  - intros [a s] [a' s'] Hs Hb. cbn [snd] in *.
    destruct (current_token s) as [t|]; [|inversion Hb; subst; exact Hs].
    destruct (TokenType_eqb (type t) IDENTIFIER); inversion Hb; subst;
      [rewrite core_advance|]; exact Hs.
Qed.

Lemma parse_area_body_core p b p' :
  parse_area_body p = Done (b, p') -> core p' = core p.
Proof.
  unfold parse_area_body.
  pose proof (take_value_if_core [IDENTIFIER] EmptyString p) as H1.
  destruct (take_value_if [IDENTIFIER] EmptyString p) as [ly p1]. cbn [snd] in H1.
  pose proof (take_value_if_core [LT; GT] EmptyString p1) as H2.
  destruct (take_value_if [LT; GT] EmptyString p1) as [cs p2]. cbn [snd] in H2.
  intros H. apply bind_done in H. destruct H as ([x p3] & H3 & H).
  apply take_float_core in H3. inversion H. subst. congruence.
Qed.

Lemma parse_density_body_core fuel p b p' :
  parse_density_body fuel p = Done (b, p') -> core p' = core p.
Proof.
  unfold parse_density_body.
  pose proof (take_value_if_core [IDENTIFIER] EmptyString p) as H1.
  destruct (take_value_if [IDENTIFIER] EmptyString p) as [ly p1]. cbn [snd] in H1.
  intros H. apply bind_done in H. destruct H as ([ps p2] & Hw & H).
  assert (H2 : core p2 = core p1).
  { destruct (cur_is WINDOW p1).
    - apply bind_done in Hw. destruct Hw as ([ws q] & Hw & Hd).
      inversion Hd. subst.
      apply (while_keeps (fun st : list Q * Parser => core (snd st) = core p1)) in Hw;
        [exact Hw| |cbn [snd]; apply core_advance].
      intros [a s] [a' s'] Hs Hb. cbn [snd] in *.
      destruct (current_token s) as [t|]; [|inversion Hb; subst; exact Hs].
      destruct (float (value t)); inversion Hb; subst.
      rewrite core_advance. exact Hs.
    - inversion Hw. reflexivity. }
  pose proof (take_value_if_core [LT; GT] EmptyString p2) as H3.
  destruct (take_value_if [LT; GT] EmptyString p2) as [cs p3]. cbn [snd] in H3.
  apply bind_done in H. destruct H as ([x p4] & H4 & H).
  apply take_float_core in H4. inversion H. subst. congruence.
Qed.

Lemma core_add_rule p r : core (add_rule p r) = core p.
Proof. reflexivity. Qed.

(** A rule block touches neither the layers nor the diagnostics. *)
Lemma parse_drc_rule_core fuel p r :
  parse_drc_rule fuel p = Done r -> core r = core p.
Proof.
  unfold parse_drc_rule. destruct (current_token p) as [t0|];
    [|intros [= <-]; apply core_advance].
  destruct (negb (TokenType_eqb (type t0) IDENTIFIER));
    [intros [= <-]; apply core_advance|].
  destruct (negb (cur_is LBRACE (p_advance p)));
    [intros [= <-]; apply core_advance|].
  intros H.
  apply bind_done in H. destruct H as (p1 & H1 & H). apply skip_newlines_core in H1.
  apply bind_done in H. destruct H as (p2 & H2 & H). apply skip_comments_core in H2.
  assert (Hd : forall d q,
             (if cur_is AT p2
              then take_value_if [STRING] EmptyString (p_advance p2)
              else (EmptyString, p2)) = (d, q) -> core q = core p2).
  { intros d q E. destruct (cur_is AT p2).
    - pose proof (take_value_if_core [STRING] EmptyString (p_advance p2)) as Hc.
      rewrite E in Hc. cbn [snd] in Hc. rewrite Hc. apply core_advance.
    - inversion E. reflexivity. }
  destruct (if cur_is AT p2 then _ else _) as [d p3].
  specialize (Hd d p3 eq_refl).
  apply bind_done in H. destruct H as (p4 & H4 & H). apply skip_newlines_core in H4.
  apply bind_done in H. destruct H as ([[rt b] p5] & H5 & H).
  assert (Hb : core p5 = core p4).
  { destruct (current_token p4) as [t|]; [|inversion H5; reflexivity].
    apply bind_done in H5. destruct H5 as ([b' q] & Hq & H5).
    inversion H5. subst.
    destruct (in_strings (value t) _).
    { apply parse_measure_body_core in Hq. rewrite Hq. apply core_advance. }
    destruct (String.eqb (value t) "AREA").
    { apply parse_area_body_core in Hq. rewrite Hq. apply core_advance. }
    destruct (String.eqb (value t) "DENSITY").
    { apply parse_density_body_core in Hq. rewrite Hq. apply core_advance. }
    inversion Hq. subst. apply core_advance. }
  apply bind_done in H. destruct H as (p6 & H6 & H). apply advance_loop_core in H6.
  inversion H. subst. rewrite core_add_rule.
  assert (Hl : core (if cur_is RBRACE p6 then p_advance p6 else p6) = core p6)
    by (destruct (cur_is RBRACE p6); [apply core_advance|reflexivity]).
  rewrite Hl, H6, Hb, H4, Hd, H2, H1, !core_advance. reflexivity.
Qed.

Lemma sound_add_layer p l :
  sound (core p) -> layer_ok l = true -> sound (core (add_layer p l)).
Proof.
  unfold sound, core, add_layer. cbn. intros (H1 & H2 & H3) Hl.
  repeat split; auto. apply Forall_app. split; [exact H1|]. constructor; auto.
Qed.

Lemma sound_add_error p n :
  sound (core p) ->
  sound (core (add_error p ("Expected layer name at line " ++ str_of_nat n)%string)).
Proof.
  unfold sound, core, add_error. cbn. intros (H1 & H2 & H3).
  repeat split; auto. apply Forall_app. split; [exact H2|]. constructor; auto.
Qed.

Lemma sound_eq p q : core q = core p -> sound (core p) -> sound (core q).
Proof. intros ->. auto. Qed.

Lemma parse_layer_definition_sound fuel p r :
  sound (core p) -> parse_layer_definition fuel p = Done r -> sound (core r).
Proof.
  intros Hs. unfold parse_layer_definition.
  destruct (current_token p) as [t0|]; [|discriminate].
  assert (Ha : sound (core (p_advance p))) by (rewrite core_advance; exact Hs).
  destruct (negb (cur_is IDENTIFIER (p_advance p))).
  { intros [= <-]. apply sound_add_error. exact Ha. }
  destruct (current_token (p_advance p)) as [t1|]; [|intros [= <-]; exact Ha].
  assert (Hb : sound (core (p_advance (p_advance p))))
    by (rewrite core_advance; exact Ha).
  destruct (current_token (p_advance (p_advance p))) as [t2|]; [|intros [= <-]; exact Hb].
  destruct (TokenType_eqb (type t2) NUMBER).
  { destruct (float (value t2)); [|discriminate].
    intros [= <-]. eapply sound_eq; [apply core_advance|].
    apply sound_add_layer; [exact Hb|reflexivity]. }
  destruct (TokenType_eqb (type t2) ASSIGN); [|intros [= <-]; exact Hb].
  intros H. apply bind_done in H. destruct H as ([e q] & He & H).
  apply parse_layer_expression_core in He. inversion H. subst.
  apply sound_add_layer; [|reflexivity].
  apply (sound_eq (p_advance (p_advance (p_advance p)))); [exact He|].
  rewrite core_advance. exact Hb.
Qed.

Lemma parse_derived_layer_sound fuel p r :
  sound (core p) -> parse_derived_layer fuel p = Done r -> sound (core r).
Proof.
  intros Hs. unfold parse_derived_layer.
  destruct (current_token p) as [t1|]; [|intros [= <-]; exact Hs].
  destruct (negb (TokenType_eqb (type t1) IDENTIFIER)); [intros [= <-]; exact Hs|].
  assert (Ha : sound (core (p_advance p))) by (rewrite core_advance; exact Hs).
  destruct (cur_is ASSIGN (p_advance p)); [|intros [= <-]; exact Ha].
  intros H. apply bind_done in H. destruct H as ([e q] & He & H).
  apply parse_layer_expression_core in He. inversion H. subst.
  apply sound_add_layer; [|reflexivity].
  apply (sound_eq (p_advance (p_advance p))); [exact He|].
  rewrite core_advance. exact Ha.
Qed.

Lemma parse_step_sound fuel p b r :
  sound (core p) -> parse_step fuel p = Done (b, r) -> sound (core r).
Proof.
  intros Hs. unfold parse_step. intros H.
  apply bind_done in H. destruct H as (p1 & H1 & H). apply skip_newlines_core in H1.
  apply bind_done in H. destruct H as (p2 & H2 & H). apply skip_comments_core in H2.
  assert (Hs2 : sound (core p2)) by (rewrite H2, H1; exact Hs).
  destruct (current_token p2) as [t|]; [|inversion H; subst; exact Hs2].
  destruct (TokenType_eqb (type t) EOF); [inversion H; subst; exact Hs2|].
  destruct (TokenType_eqb (type t) INCLUDE).
  { inversion H. subst. rewrite parse_include_core. exact Hs2. }
  destruct (TokenType_eqb (type t) LAYER).
  { apply bind_done in H. destruct H as (q & Hq & H). inversion H. subst.
    exact (parse_layer_definition_sound _ _ _ Hs2 Hq). }
  destruct (TokenType_eqb (type t) LAYOUT).
  { apply bind_done in H. destruct H as (q & Hq & H). inversion H. subst.
    apply advance_loop_core in Hq. rewrite Hq. exact Hs2. }
  destruct (TokenType_eqb (type t) IDENTIFIER);
    [|inversion H; subst; rewrite core_advance; exact Hs2].
  destruct (peek p2) as [nt|]; [|inversion H; subst; rewrite core_advance; exact Hs2].
  destruct (TokenType_eqb (type nt) ASSIGN).
  { apply bind_done in H. destruct H as (q & Hq & H). inversion H. subst.
    exact (parse_derived_layer_sound _ _ _ Hs2 Hq). }
  destruct (TokenType_eqb (type nt) LBRACE).
  { apply bind_done in H. destruct H as (q & Hq & H). inversion H. subst.
    apply parse_drc_rule_core in Hq. rewrite Hq. exact Hs2. }
  inversion H. subst. rewrite core_advance. exact Hs2.
Qed.

Lemma parse_loop_sound fuel : forall loops p r,
  sound (core p) -> parse_loop fuel loops p = Done r -> sound (core r).
Proof.
  induction loops as [|loops IH]; intros p r Hs H; cbn [parse_loop] in H.
  - destruct (cur_not_in [EOF] p); [discriminate|]. inversion H. subst. exact Hs.
  - destruct (cur_not_in [EOF] p); [|inversion H; subst; exact Hs].
    apply bind_done in H. destruct H as ([b q] & Hq & H).
    apply (parse_step_sound _ _ _ _ Hs) in Hq.
    destruct b; [exact (IH _ _ Hq H)|inversion H; subst; exact Hq].
Qed.

Lemma parse_sound fuel toks r :
  parse fuel toks = Done r ->
  sound (r_layers r, r_errors r, r_warnings r).
Proof.
  unfold parse. intros H. apply bind_done in H. destruct H as (p & Hp & H).
  inversion H. subst. cbn [r_layers r_errors r_warnings].
  apply (parse_loop_sound fuel fuel (new_parser toks) p); [|exact Hp].
  unfold sound, core, new_parser. cbn. auto.
Qed.

(** X3. Every layer record that [parse] returns has a GDS number or an
    expression, and not both. *)
Theorem parsed_layers_have_one_definition :
  forall fuel toks r,
    parse fuel toks = Done r ->
    Forall (fun l => layer_ok l = true) (r_layers r).
Proof. intros fuel toks r H. exact (proj1 (parse_sound fuel toks r H)). Qed.

(** X4. [parse] never writes a warning, and every error that it writes says that
    a layer name was expected. *)
Theorem parse_diagnostics :
  forall fuel toks r,
    parse fuel toks = Done r ->
    r_warnings r = [] /\
    Forall (fun e => expected_name_error e = true) (r_errors r).
Proof.
  intros fuel toks r H. destruct (parse_sound fuel toks r H) as (_ & H2 & H3). auto.
Qed.

Lemma count_partition (ls : list LayerDefinition) :
  Forall (fun l => layer_ok l = true) ls ->
  List.length ls
  = List.length (filter (fun l => is_some (gds_layer l)) ls)
    + List.length (filter (fun l => is_some (expression l)) ls).
Proof.
  induction 1 as [|l ls Hl _ IH]; [reflexivity|].
  cbn [filter List.length]. unfold layer_ok in Hl.
  destruct (gds_layer l), (expression l); try discriminate; cbn [is_some List.length]; lia.
Qed.

(** X5. In the statistics of a result of [parse], the primary layers and the
    derived layers add up to the total. *)
Theorem layer_stats_add_up :
  forall fuel toks r,
    parse fuel toks = Done r ->
    total_layers (get_layer_stats r)
    = primary_layers (get_layer_stats r) + derived_layers (get_layer_stats r).
Proof.
  intros fuel toks r H. unfold get_layer_stats.
  cbn [total_layers primary_layers derived_layers].
  apply count_partition. exact (proj1 (parse_sound fuel toks r H)).
Qed.

Lemma parsed_layers_have_one_definition_witness :
  Forall (fun l => layer_ok l = true) (r_layers sample_result).
Proof.
  apply (parsed_layers_have_one_definition 12 sample_tokens sample_result).
  vm_compute. reflexivity.
Defined.

Lemma parse_diagnostics_witness :
  r_warnings sample_result = [] /\
  Forall (fun e => expected_name_error e = true) (r_errors sample_result).
Proof.
  apply (parse_diagnostics 12 sample_tokens sample_result).
  vm_compute. reflexivity.
Defined.

Lemma layer_stats_add_up_witness :
  total_layers (get_layer_stats sample_result)
  = primary_layers (get_layer_stats sample_result)
    + derived_layers (get_layer_stats sample_result).
Proof.
  apply (layer_stats_add_up 12 sample_tokens sample_result).
  vm_compute. reflexivity.
Defined.

End ParserMore.

(* ================================================================== *)
(** * The structural parser ends when no rule block is met *)
(* ================================================================== *)

Module ParserEnds.

Import Py SvrfDrcParser ParserFacts ParserShape.

Lemma ends_bind {A B : Type} (m : Res A) (k : A -> Res B) (P : A -> Prop) (Q : B -> Prop) :
  ends m P -> (forall a, P a -> ends (k a) Q) -> ends (bind m k) Q.
Proof. destruct m; simpl; auto. Qed.

Lemma ends_weaken {A : Type} (m : Res A) (P Q : A -> Prop) :
  ends m P -> (forall a, P a -> Q a) -> ends m Q.
Proof. destruct m; simpl; auto. Qed.

Lemma good_nonempty p : good p -> 1 <= len p.
Proof.
  unfold good, len. intros [H _]. destruct (tokens p); [discriminate|simpl; lia].
Qed.

Lemma TokenType_eqb_eq a b : TokenType_eqb a b = true <-> a = b.
Proof. unfold TokenType_eqb. destruct (TokenType_eq_dec a b); split; congruence. Qed.

(** A current token that is not the end of input has a successor. *)
Lemma live_advance p :
  good p -> cur_not_in [EOF] p = true ->
  good (p_advance p) /\ len (p_advance p) + 1 = len p.
Proof.
  unfold good, len, cur_not_in, current_token, p_advance.
  intros [He Hb] Hlive.
  destruct (tokens p) as [|t [|u ts]] eqn:E; [discriminate| |].
  - exfalso. cbn [ends_with_eof] in He. cbn [existsb] in Hlive.
    rewrite He in Hlive. discriminate.
  - cbn [tokens set_tokens]. cbn [no_brace forallb] in Hb.
    apply andb_true_iff in Hb. destruct Hb as [_ Hb].
    repeat split; [exact He|exact Hb|cbn [List.length]; lia].
Qed.

Lemma advance_le p : good p -> good (p_advance p) /\ len (p_advance p) <= len p.
Proof.
  unfold good, len, p_advance. intros [He Hb].
  destruct (tokens p) as [|t [|u ts]] eqn:E.
  - rewrite E. auto.
  - rewrite E. auto.
  - cbn [tokens set_tokens]. cbn [no_brace forallb] in Hb.
    apply andb_true_iff in Hb. destruct Hb as [_ Hb].
    repeat split; [exact He|exact Hb|cbn [List.length]; lia].
Qed.

(** A loop that advances by one token at each turn, and whose condition
    fails on the end-of-input token, ends. *)
Lemma loop_ends {S : Type} (proj : S -> Parser) (cond : S -> bool) (body : S -> Res S) :
  (forall s, cond s = true -> cur_not_in [EOF] (proj s) = true) ->
  (forall s, cond s = true -> exists s', body s = Done s' /\ proj s' = p_advance (proj s)) ->
  forall fuel s,
    good (proj s) -> len (proj s) <= fuel ->
    ends (while_ fuel cond body s)
      (fun r => good (proj r) /\ len (proj r) <= len (proj s)).
Proof.
  intros Hcond Hbody. induction fuel as [|fuel IH]; intros s Hg Hlen.
  - pose proof (good_nonempty _ Hg). lia.
  - cbn [while_]. destruct (cond s) eqn:Hc; [|simpl; auto].
    destruct (Hbody s Hc) as (s' & Hb & Hp). rewrite Hb. cbn [bind].
    destruct (live_advance _ Hg (Hcond s Hc)) as [Hg' Hl'].
    rewrite <- Hp in Hg', Hl'.
    apply (ends_weaken _ _ _ (IH s' Hg' ltac:(lia))).
    intros r [H1 H2]. split; [exact H1|lia].
Qed.

Lemma cur_is_live ty p : ty <> EOF -> cur_is ty p = true -> cur_not_in [EOF] p = true.
Proof.
  unfold cur_is, cur_not_in. intros Hne. destruct (current_token p) as [t|]; [|discriminate].
  intros H. apply TokenType_eqb_eq in H. cbn [existsb]. rewrite H.
  unfold TokenType_eqb. destruct (TokenType_eq_dec ty EOF); [contradiction|reflexivity].
Qed.

Lemma advance_loop_ends fuel cond p :
  (forall q, cond q = true -> cur_not_in [EOF] q = true) ->
  good p -> len p <= fuel ->
  ends (while_ fuel cond (fun q => Done (p_advance q)) p)
    (fun r => good r /\ len r <= len p).
Proof.
  intros Hc. apply (loop_ends (fun q => q)); [exact Hc|].
  intros s _. eauto.
Qed.

Lemma skip_newlines_ends fuel p :
  good p -> len p <= fuel ->
  ends (skip_newlines fuel p) (fun r => good r /\ len r <= len p).
Proof.
  apply advance_loop_ends. intros q. apply cur_is_live. discriminate.
Qed.

Lemma skip_comments_ends fuel p :
  good p -> len p <= fuel ->
  ends (skip_comments fuel p) (fun r => good r /\ len r <= len p).
Proof.
  apply advance_loop_ends. intros q. apply cur_is_live. discriminate.
Qed.

Lemma cur_not_in_live tys p :
  In EOF tys -> cur_not_in tys p = true -> cur_not_in [EOF] p = true.
Proof.
  unfold cur_not_in. intros Hin. destruct (current_token p) as [t|]; [|discriminate].
  intros H. apply negb_true_iff in H. cbn [existsb]. rewrite orb_false_r.
  apply negb_true_iff. destruct (TokenType_eqb (type t) EOF) eqn:E; [|reflexivity].
  exfalso. apply TokenType_eqb_eq in E.
  assert (Hex : existsb (TokenType_eqb (type t)) tys = true).
  { apply existsb_exists. exists EOF. split; [exact Hin|].
    apply TokenType_eqb_eq. exact E. }
  congruence.
Qed.

Lemma parse_layer_expression_ends fuel p :
  good p -> len p <= fuel ->
  ends (parse_layer_expression fuel p)
    (fun r => good (snd r) /\ len (snd r) <= len p).
Proof.
  intros Hg Hl. unfold parse_layer_expression.
  eapply ends_bind.
  - apply (loop_ends (fun st : list string * Parser => snd st)); cbn [snd];
      [| |exact Hg|exact Hl].
    + intros s. apply cur_not_in_live. simpl. tauto.
    + intros [parts q] Hc. cbn [snd] in *.
      unfold cur_not_in in Hc. destruct (current_token q); [|discriminate]. eauto.
  - intros [parts q] H. cbn [snd] in *. simpl. exact H.
Qed.

(** A layer statement ends, and passes the keyword. *)
Lemma parse_layer_definition_ends fuel p :
  good p -> len p <= fuel -> cur_not_in [EOF] p = true ->
  ends (parse_layer_definition fuel p) (fun r => good r /\ len r < len p).
Proof.
  intros Hg Hl Hlive. unfold parse_layer_definition.
  destruct (current_token p) as [t0|] eqn:E0;
    [|unfold cur_not_in in Hlive; rewrite E0 in Hlive; discriminate].
  destruct (live_advance p Hg Hlive) as [Hg1 Hl1].
  destruct (negb (cur_is IDENTIFIER (p_advance p))).
  { simpl. split; [exact Hg1|]. unfold len, add_error in *. cbn [tokens]. lia. }
  destruct (current_token (p_advance p)) as [t1|]; [|simpl; split; [exact Hg1|lia]].
  destruct (advance_le _ Hg1) as [Hg2 Hl2].
  destruct (current_token (p_advance (p_advance p))) as [t2|];
    [|simpl; split; [exact Hg2|lia]].
  destruct (TokenType_eqb (type t2) NUMBER).
  { destruct (float (value t2)); [|exact I]. simpl.
    destruct (advance_le (add_layer (p_advance (p_advance p))
                            (mkLayerDefinition (value t1) (Some (int_of_float q)) None
                               (line t0)))) as [Hg3 Hl3]; [exact Hg2|].
    split; [exact Hg3|]. unfold len, add_layer in *. cbn [tokens] in *. lia. }
  destruct (TokenType_eqb (type t2) ASSIGN); [|simpl; split; [exact Hg2|lia]].
  destruct (advance_le _ Hg2) as [Hg3 Hl3].
  eapply ends_bind.
  - apply parse_layer_expression_ends; [exact Hg3|lia].
  - intros [e q] [H1 H2]. cbn [snd] in *. simpl.
    split; [exact H1|]. unfold len, add_layer in *. cbn [tokens] in *. lia.
Qed.

Lemma parse_derived_layer_ends fuel p :
  good p -> len p <= fuel -> cur_is IDENTIFIER p = true ->
  ends (parse_derived_layer fuel p) (fun r => good r /\ len r < len p).
Proof.
  intros Hg Hl Hid. unfold parse_derived_layer.
  assert (Hlive : cur_not_in [EOF] p = true)
    by (apply (cur_is_live IDENTIFIER); [discriminate|exact Hid]).
  unfold cur_is in Hid. destruct (current_token p) as [t1|]; [|discriminate].
  rewrite Hid. cbn [negb].
  destruct (live_advance p Hg Hlive) as [Hg1 Hl1].
  destruct (cur_is ASSIGN (p_advance p)); [|simpl; split; [exact Hg1|lia]].
  destruct (advance_le _ Hg1) as [Hg2 Hl2].
  eapply ends_bind.
  - apply parse_layer_expression_ends; [exact Hg2|lia].
  - intros [e q] [H1 H2]. cbn [snd] in *. simpl.
    split; [exact H1|]. unfold len, add_layer in *. cbn [tokens] in *. lia.
Qed.

Lemma parse_include_ends p :
  good p -> cur_not_in [EOF] p = true ->
  good (parse_include p) /\ len (parse_include p) < len p.
Proof.
  intros Hg Hlive. unfold parse_include.
  destruct (live_advance p Hg Hlive) as [Hg1 Hl1].
  destruct (current_token (p_advance p)) as [t|]; [|split; [exact Hg1|lia]].
  destruct (TokenType_eqb (type t) STRING); [|split; [exact Hg1|lia]].
  destruct (advance_le (add_include (p_advance p) (value t))) as [Hg2 Hl2]; [exact Hg1|].
  split; [exact Hg2|]. unfold len, add_include in *. cbn [tokens] in *. lia.
Qed.

(** The token behind the current one is no opening brace. *)
Lemma peek_no_brace p nt :
  good p -> peek p = Some nt -> TokenType_eqb (type nt) LBRACE = false.
Proof.
  unfold good, peek, no_brace. intros [_ Hb].
  destruct (tokens p) as [|t [|u ts]]; try discriminate.
  intros [= <-]. cbn [forallb] in Hb.
  apply andb_true_iff in Hb. destruct Hb as [_ Hb].
  apply andb_true_iff in Hb. destruct Hb as [Hb _].
  apply negb_true_iff in Hb. exact Hb.
Qed.

(** One turn of the main loop ends, and passes at least one token when the
    loop goes on. *)
Lemma parse_step_ends fuel p :
  good p -> len p <= fuel ->
  ends (parse_step fuel p)
    (fun r => good (snd r) /\ len (snd r) <= len p
              /\ (fst r = true -> len (snd r) < len p)).
Proof.
  intros Hg Hl. unfold parse_step.
  eapply ends_bind; [apply (skip_newlines_ends fuel p Hg Hl)|].
  intros p1 [Hg1 Hl1].
  eapply ends_bind; [apply (skip_comments_ends fuel p1 Hg1); lia|].
  intros p2 [Hg2 Hl2].
  destruct (current_token p2) as [t|] eqn:Ecur;
    [|simpl; repeat split; [apply Hg2|apply Hg2|lia|discriminate]].
  destruct (TokenType_eqb (type t) EOF) eqn:Eeof;
    [simpl; repeat split; [apply Hg2|apply Hg2|lia|discriminate]|].
  assert (Hlive : cur_not_in [EOF] p2 = true).
  { unfold cur_not_in. rewrite Ecur. cbn [existsb]. rewrite Eeof. reflexivity. }
  destruct (live_advance p2 Hg2 Hlive) as [Hga Hla].
  destruct (TokenType_eqb (type t) INCLUDE).
  { destruct (parse_include_ends p2 Hg2 Hlive) as [H1 H2].
    simpl. repeat split; [apply H1|apply H1|lia|lia]. }
  destruct (TokenType_eqb (type t) LAYER).
  { eapply ends_bind;
      [apply (parse_layer_definition_ends fuel p2 Hg2); [lia|exact Hlive]|].
    intros q [H1 H2]. simpl. repeat split; [apply H1|apply H1|lia|lia]. }
  destruct (TokenType_eqb (type t) LAYOUT) eqn:Elay.
  { assert (Hc : cur_not_in [NEWLINE; EOF] p2 = true).
    { unfold cur_not_in. rewrite Ecur. cbn [existsb].
      apply TokenType_eqb_eq in Elay. rewrite Elay. reflexivity. }
    destruct fuel as [|fuel']; [pose proof (good_nonempty _ Hg); lia|].
    rewrite while_unfold by exact Hc. cbn [bind].
    eapply ends_bind.
    - apply advance_loop_ends; [|exact Hga|lia].
      intros q. apply cur_not_in_live. simpl. tauto.
    - intros q [H1 H2]. simpl. repeat split; [apply H1|apply H1|lia|lia]. }
  destruct (TokenType_eqb (type t) IDENTIFIER) eqn:Eid;
    [|simpl; repeat split; [apply Hga|apply Hga|lia|lia]].
  destruct (peek p2) as [nt|] eqn:Epeek;
    [|simpl; repeat split; [apply Hga|apply Hga|lia|lia]].
  destruct (TokenType_eqb (type nt) ASSIGN).
  { eapply ends_bind.
    - apply (parse_derived_layer_ends fuel p2 Hg2); [lia|].
      unfold cur_is. rewrite Ecur. exact Eid.
    - intros q [H1 H2]. simpl. repeat split; [apply H1|apply H1|lia|lia]. }
  rewrite (peek_no_brace p2 nt Hg2 Epeek).
  simpl. repeat split; [apply Hga|apply Hga|lia|lia].
Qed.

Lemma parse_loop_ends fuel : forall loops p,
  good p -> len p <= fuel -> len p <= loops ->
  ends (parse_loop fuel loops p) (fun _ => True).
Proof.
  induction loops as [|loops IH]; intros p Hg Hf Hl.
  - pose proof (good_nonempty _ Hg). lia.
  - cbn [parse_loop]. destruct (cur_not_in [EOF] p); [|exact I].
    eapply ends_bind; [apply (parse_step_ends fuel p Hg Hf)|].
    intros [b q] (H1 & H2 & H3). cbn [fst snd] in *.
    destruct b; [|exact I].
    specialize (H3 eq_refl). apply IH; [exact H1|lia|lia].
Qed.

(** X6. On a token list that ends with the end-of-input token and holds no
    opening brace, so that no rule block is entered, [parse] returns or
    raises as soon as every loop is allowed as many turns as there are
    tokens: it does not run for ever. *)
Theorem parse_ends_without_braces :
  forall fuel toks,
    ends_with_eof toks = true ->
    no_brace toks = true ->
    List.length toks <= fuel ->
    parse fuel toks <> Timeout.
Proof.
  intros fuel toks He Hb Hl. unfold parse.
  pose proof (parse_loop_ends fuel fuel (new_parser toks)) as H.
  specialize (H (conj He Hb) Hl Hl).
  destruct (parse_loop fuel fuel (new_parser toks)); simpl in *;
    [discriminate|discriminate|contradiction].
Qed.

Lemma parse_ends_without_braces_witness : parse 13 sample_tokens <> Timeout.
Proof.
  apply (parse_ends_without_braces 13 sample_tokens); [reflexivity|reflexivity|].
  vm_compute. constructor.
Defined.

End ParserEnds.

(* ================================================================== *)
(** * The line-based translator: rule types, rule blocks, the file loop *)
(* ================================================================== *)

Module FinalMore.

Import Py Re FinalEnhancedTranslator FinalShape.

Lemma bind_float_done {A : Type} (s : string) (k : Q -> Res A) (a : A) :
  bind (to_float s) k = Done a -> exists v, float s = Some v /\ k v = Done a.
Proof.
  unfold to_float. destruct (float s) as [v|]; simpl; [eauto|discriminate].
Qed.

(** The outcome of the classification: the chain leaves the initial values
    as they are, or writes one of ten rule types. *)
Lemma classify_cases content c :
  classify content = Done c ->
  c = unclassified \/
  In (c_rule_type c)
    ["enclosure"; "antenna"; "pattern_matching"; "multi_patterning"; "external";
     "external1"; "density"; "area"; "internal2"; "internal1"]%string.
Proof.
  unfold classify. intros H.
  repeat match type of H with
  | match ?x with _ => _ end = _ => destruct x
  | (if ?x then _ else _) = _ => destruct x
  | bind (to_float _) _ = Done _ =>
      apply bind_float_done in H; destruct H as (? & _ & H)
  end;
  first [ injection H as <-; first [left; reflexivity | right; simpl; tauto]
        | discriminate H ].
Qed.

Section Translation.

Variable repr_float : Q -> string.

(** X7. Every rule that [parse_rule_content] builds has one of eleven rule
    types, and [translate_rule] falls back to its generic check for the
    type "unknown" and for no other. *)
Theorem classified_rule_types :
  forall nm content ln r,
    classified_rule nm content ln = Done r ->
    In (rule_type r) rule_types /\
    (operation (translate_rule repr_float r) = "generic check"%string
     <-> rule_type r = "unknown"%string).
Proof.
  intros nm content ln r H. unfold classified_rule in H.
  destruct (classify content) as [c| |] eqn:Hc; simpl in H; try discriminate.
  injection H as <-. cbn [rule_type].
  destruct (classify_cases _ _ Hc) as [-> | Hin].
  - split; [simpl; tauto|]. split; reflexivity.
  - unfold translate_rule. cbn [rule_type].
    simpl in Hin.
    repeat match type of Hin with
    | _ \/ _ => destruct Hin as [Hin | Hin]
    end; try contradiction; rewrite <- Hin;
    (split; [simpl; tauto|]); split; intros E; discriminate E.
Qed.

(** X8. A rule that none of the patterns matched is translated to a check
    without layer and without operator, on the value zero. *)
Theorem unknown_rule_translation :
  forall nm content ln r,
    classified_rule nm content ln = Done r ->
    rule_type r = "unknown"%string ->
    layer r = EmptyString /\ operator r = EmptyString /\
    icv_syntax (translate_rule repr_float r)
    = ("check()  " ++ repr_float 0%Q)%string.
Proof.
  intros nm content ln r H Hty. unfold classified_rule in H.
  destruct (classify content) as [c| |] eqn:Hc; simpl in H; try discriminate.
  injection H as <-. cbn [rule_type] in Hty.
  destruct (classify_cases _ _ Hc) as [-> | Hin].
  - repeat split.
  - exfalso. rewrite Hty in Hin. simpl in Hin.
    repeat match type of Hin with
    | _ \/ _ => destruct Hin as [Hin | Hin]
    end; try contradiction; discriminate Hin.
Qed.

End Translation.

Lemma classified_rule_types_witness :
  exists r,
    classified_rule "W1" "W1 { INTERNAL1 M1 < 0.1 }" 2 = Done r /\
    In (rule_type r) rule_types /\
    (operation (translate_rule sample_repr r) = "generic check"%string
     <-> rule_type r = "unknown"%string).
Proof.
  eexists. split; [vm_compute; reflexivity|].
  apply (classified_rule_types sample_repr "W1" "W1 { INTERNAL1 M1 < 0.1 }"%string 2).
  vm_compute. reflexivity.
Defined.

Lemma unknown_rule_translation_witness :
  exists r,
    classified_rule "R" "R { COPY M1 }" 4 = Done r /\
    layer r = EmptyString /\ operator r = EmptyString /\
    icv_syntax (translate_rule sample_repr r) = "check()  0.0"%string.
Proof.
  eexists. split; [vm_compute; reflexivity|].
  apply (unknown_rule_translation sample_repr "R" "R { COPY M1 }"%string 4);
    vm_compute; reflexivity.
Defined.

(** ** The lines of a rule block *)

Lemma kept_lines_cons n l ls :
  kept_lines (S n) (l :: ls)
  = (if is_empty (strip l) then [] else [strip l]) ++ kept_lines n ls.
Proof.
  unfold kept_lines. cbn [firstn map filter].
  destruct (is_empty (strip l)); reflexivity.
Qed.

(** The loop of [parse_rule_block] stops at or behind the line it starts
    from, and has collected the stripped, non-empty lines up to the one it
    stops at. *)
Lemma scan_block_spec : forall ls i acc b f j rl,
  scan_block ls i acc b f = (j, rl) ->
  i <= j /\ j <= i + List.length ls /\
  rl = acc ++ kept_lines (S (j - i)) ls.
Proof.
  induction ls as [|l ls IH]; intros i acc b f j rl H.
  - cbn [scan_block] in H. injection H as <- <-.
    cbn [List.length]. split; [lia|]. split; [lia|].
    unfold kept_lines. cbn. rewrite app_nil_r. reflexivity.
  - cbn [scan_block] in H. cbv zeta in H.
    match type of H with (if ?c then _ else _) = _ => destruct c end.
    + injection H as <- <-. cbn [List.length]. split; [lia|]. split; [lia|].
      rewrite Nat.sub_diag, kept_lines_cons.
      unfold kept_lines. cbn [firstn map filter]. rewrite app_nil_r.
      destruct (is_empty (strip l)); [rewrite app_nil_r|]; reflexivity.
    + apply IH in H. destruct H as (H1 & H2 & H3). cbn [List.length].
      split; [lia|]. split; [lia|].
      replace (j - i) with (S (j - S i)) by lia.
      rewrite kept_lines_cons, H3.
      destruct (is_empty (strip l)); [reflexivity|].
      rewrite <- app_assoc. reflexivity.
Qed.

Lemma rule_block_spec_index lines start nm content j :
  rule_block lines start = Done (nm, content, j) -> start <= j.
Proof.
  intros H. unfold rule_block in H.
  destruct (nth_error lines start) as [l|]; [|discriminate].
  destruct (scan_block (skipn start lines) start [] 0%Z false) as [i rl] eqn:Es.
  injection H as _ _ <-.
  apply scan_block_spec in Es. tauto.
Qed.

(** X9. The content that [parse_rule_block] hands to [parse_rule_content] is
    made of the lines from the first line of the block to the line where
    the scan stops, both included: each line stripped, the empty ones left
    out, joined by single spaces.  The index returned is not before the
    first line and not behind the end of the file. *)
Theorem rule_block_content :
  forall lines start nm content j,
    rule_block lines start = Done (nm, content, j) ->
    start <= j /\ j <= List.length lines /\
    content = join " " (kept_lines (S (j - start)) (skipn start lines)).
Proof.
  intros lines start nm content j H. unfold rule_block in H.
  destruct (nth_error lines start) as [l|] eqn:E; [|discriminate].
  assert (Hlt : start < List.length lines)
    by (apply nth_error_Some; congruence).
  destruct (scan_block (skipn start lines) start [] 0%Z false) as [i rl] eqn:Es.
  injection H as _ <- <-.
  apply scan_block_spec in Es. destruct Es as (H1 & H2 & H3).
  rewrite length_skipn in H2.
  split; [lia|]. split; [lia|]. rewrite H3. reflexivity.
Qed.

Lemma rule_block_content_witness :
  1 <= 4 /\ 4 <= List.length block_lines /\
  "W1 { INTERNAL1 M1 < 0.1 }"%string
  = join " " (kept_lines (S (4 - 1)) (skipn 1 block_lines)).
Proof.
  apply (rule_block_content block_lines 1 "W1"%string). vm_compute. reflexivity.
Defined.

(** ** The loop over the lines of the file *)

(** What is done for one line moves the index forward or leaves it, and
    writes no error. *)
Lemma parse_line_index self lines i line j self' :
  parse_line self lines i line = Done (j, self') ->
  i <= j /\ errors self' = errors self.
Proof.
  unfold parse_line. intros H.
  repeat match type of H with
  | (if ?c then _ else _) = _ => destruct c
  | match search ?a ?b ?c with _ => _ end = _ => destruct (search a b c)
  end;
  try (injection H as <- <-; split; [lia|reflexivity]).
  - destruct (split_ws line) as [|w0 [|w1 [|w2 ws]]];
      try (injection H as <- <-; split; [lia|reflexivity]).
    destruct (int w2); simpl in H; try discriminate.
    injection H as <- <-. split; [lia|reflexivity].
  - unfold parse_rule_block in H.
    destruct (rule_block lines i) as [[[nm content] k]| |] eqn:Eb;
      simpl in H; try discriminate.
    unfold parse_rule_content in H.
    destruct (classified_rule nm content (i + 1)); simpl in H; try discriminate.
    injection H as <- <-.
    apply rule_block_spec_index in Eb. split; [exact Eb|reflexivity].
Qed.

Lemma parse_lines_total : forall fuel self lines i,
  List.length lines - i <= fuel ->
  exists t, parse_lines fuel self lines i = Some t /\ errors t = errors self.
Proof.
  induction fuel as [|fuel IH]; intros self lines i Hf.
  - cbn [parse_lines]. destruct (nth_error lines i) eqn:E; [|eauto].
    assert (i < List.length lines) by (apply nth_error_Some; congruence). lia.
  - cbn [parse_lines]. destruct (nth_error lines i) as [l|] eqn:E; [|eauto].
    assert (Hlt : i < List.length lines) by (apply nth_error_Some; congruence).
    destruct (is_empty (strip l) || startswith "//" (strip l)).
    { apply IH. lia. }
    destruct (parse_line self lines i (strip l)) as [[j self']| |] eqn:Ep;
      try (apply IH; lia).
    apply parse_line_index in Ep. destruct Ep as [Hij He].
    destruct (IH self' lines (j + 1)) as (t & Ht & Hte); [lia|].
    exists t. split; [exact Ht|congruence].
Qed.

(** X10. [parse_file] comes to the end of every file it could open, whatever
    the lines are, and leaves the list of errors empty: an exception raised
    for a line is dropped without a record. *)
Theorem parse_file_total :
  forall lines, exists t, parse_file lines = Some t /\ errors t = [].
Proof.
  intros lines. unfold parse_file.
  apply (parse_lines_total (List.length lines) new_translator lines 0). lia.
Qed.

End FinalMore.

(* ================================================================== *)
(** * The pattern lists of the enhanced and of the simple parser *)
(* ================================================================== *)

Module ReMore.

Import Py Re ReFacts ReShape.

Lemma longest_first_range {A : Type} (min : nat) (k : nat -> option A) (r : A) :
  forall n, longest_first n min k = Some r ->
            exists j, min <= j /\ j <= n /\ k j = Some r.
Proof.
  induction n as [|n IH]; cbn [longest_first]; intros H.
  - destruct (0 <? min) eqn:E; [discriminate|]. apply Nat.ltb_ge in E.
    destruct (k 0) eqn:Ek; [|discriminate]. injection H as <-.
    exists 0. auto.
  - destruct (S n <? min) eqn:E; [discriminate|]. apply Nat.ltb_ge in E.
    destruct (k (S n)) eqn:Ek.
    + injection H as <-. exists (S n). auto.
    + destruct (IH H) as (j & H1 & H2 & H3). exists j. auto.
Qed.

Lemma longest_first_some {A : Type} (min : nat) (k : nat -> option A) :
  forall n j, min <= j -> j <= n -> k j <> None -> longest_first n min k <> None.
Proof.
  induction n as [|n IH]; intros j Hmin Hn Hk; cbn [longest_first].
  - assert (j = 0) by lia. subst j.
    destruct (0 <? min) eqn:E; [apply Nat.ltb_lt in E; lia|].
    destruct (k 0); [discriminate|contradiction].
  - destruct (S n <? min) eqn:E; [apply Nat.ltb_lt in E; lia|].
    destruct (k (S n)) eqn:Ek; [discriminate|].
    apply (IH j); [exact Hmin| |exact Hk].
    destruct (Nat.eq_dec j (S n)) as [->|]; [contradiction|lia].
Qed.

Lemma first_alt_range {A : Type} (k : string -> option A) (r : A) :
  forall alts, first_alt alts k = Some r -> exists l, In l alts /\ k l = Some r.
Proof.
  induction alts as [|l alts IH]; cbn [first_alt]; intros H; [discriminate|].
  destruct (k l) eqn:E.
  - injection H as <-. exists l. split; [left; reflexivity|exact E].
  - destruct (IH H) as (l' & H1 & H2). exists l'. split; [right; exact H1|exact H2].
Qed.

Lemma first_alt_some {A : Type} (k : string -> option A) :
  forall alts l, In l alts -> k l <> None -> first_alt alts k <> None.
Proof.
  induction alts as [|a alts IH]; intros l Hin Hk; [contradiction|].
  cbn [first_alt]. destruct (k a) eqn:E; [discriminate|].
  destruct Hin as [->|Hin]; [contradiction|]. apply (IH l Hin Hk).
Qed.

(** The ways in which a pattern matches at the start of a text. *)
Lemma match_here_cons ic captured a pat s m :
  match_here ic ((captured, a) :: pat)%list s = Some m ->
  exists n groups,
    match_here ic pat (drop n s) = Some groups /\
    m = with_group captured (take n s) groups /\
    match a with
    | Lit l => lit_at ic l s = true /\ n = String.length l
    | Alt alts => exists l, In l alts /\ lit_at ic l s = true /\ n = String.length l
    | Rep cls min => min <= n /\ n <= run cls s
    end.
Proof.
  cbn [match_here]. intros H. destruct a as [l|alts|cls min].
  - destruct (lit_at ic l s) eqn:El; [|discriminate].
    destruct (match_here ic pat (drop (String.length l) s)) as [g|] eqn:E; [|discriminate].
    injection H as <-. exists (String.length l), g. auto.
  - apply first_alt_range in H. destruct H as (l & Hin & H).
    destruct (lit_at ic l s) eqn:El; [|discriminate].
    destruct (match_here ic pat (drop (String.length l) s)) as [g|] eqn:E; [|discriminate].
    injection H as <-. exists (String.length l), g. eauto 6.
  - apply longest_first_range in H. destruct H as (j & H1 & H2 & H).
    destruct (match_here ic pat (drop j s)) as [g|] eqn:E; [|discriminate].
    injection H as <-. exists j, g. auto.
Qed.

(** The other way round: a way to match gives a match, maybe another one
    that comes earlier in the order of backtracking. *)
Lemma match_here_cons_some ic captured a pat s n :
  match_here ic pat (drop n s) <> None ->
  match a with
  | Lit l => lit_at ic l s = true /\ n = String.length l
  | Alt alts => exists l, In l alts /\ lit_at ic l s = true /\ n = String.length l
  | Rep cls min => min <= n /\ n <= run cls s
  end ->
  match_here ic ((captured, a) :: pat)%list s <> None.
Proof.
  intros Hk Ha. cbn [match_here]. destruct a as [l|alts|cls min].
  - destruct Ha as [-> ->].
    destruct (match_here ic pat (drop (String.length l) s)); [discriminate|contradiction].
  - destruct Ha as (l & Hin & Hl & ->).
    apply (first_alt_some _ alts l Hin). rewrite Hl.
    destruct (match_here ic pat (drop (String.length l) s)); [discriminate|contradiction].
  - destruct Ha as [H1 H2]. apply (longest_first_some _ _ _ n H1 H2).
    destruct (match_here ic pat (drop n s)); [discriminate|contradiction].
Qed.

(** A match has as many groups as the pattern. *)
Lemma match_groups_count ic : forall pat s m,
  match_here ic pat s = Some m -> List.length m = groups_count pat.
Proof.
  induction pat as [|[captured a] pat IH]; intros s m H.
  - injection H as <-. reflexivity.
  - apply match_here_cons in H. destruct H as (n & g & Hg & -> & _).
    apply IH in Hg. unfold groups_count in *. cbn [filter fst].
    destruct captured; cbn [with_group List.length]; congruence.
Qed.

Lemma search_groups_count ic pat : forall s m,
  search ic pat s = Some m -> List.length m = groups_count pat.
Proof.
  induction s as [|c s IH]; intros m H; cbn [search] in H.
  - destruct (match_here ic pat EmptyString) eqn:E; [|discriminate].
    injection H as <-. apply (match_groups_count _ _ _ _ E).
  - destruct (match_here ic pat (String c s)) eqn:E.
    + injection H as <-. apply (match_groups_count _ _ _ _ E).
    + apply IH. exact H.
Qed.

(** Where a pattern matches, each of its prefixes matches. *)
Lemma match_prefix ic q : forall p s m,
  match_here ic (p ++ q)%list s = Some m -> match_here ic p s <> None.
Proof.
  induction p as [|[captured a] p IH]; intros s m H; [discriminate|].
  rewrite <- List.app_comm_cons in H.
  apply match_here_cons in H. destruct H as (n & g & Hg & _ & Ha).
  apply (match_here_cons_some ic captured a p s n); [|exact Ha].
  apply (IH _ _ Hg).
Qed.

Lemma search_prefix ic p q : forall s m,
  search ic (p ++ q)%list s = Some m -> search ic p s <> None.
Proof.
  induction s as [|c s IH]; intros m H; cbn [search] in *.
  - destruct (match_here ic (p ++ q) EmptyString) eqn:E; [|discriminate].
    apply match_prefix in E. destruct (match_here ic p EmptyString); [discriminate|contradiction].
  - destruct (match_here ic (p ++ q) (String c s)) eqn:E.
    + apply match_prefix in E.
      destruct (match_here ic p (String c s)); [discriminate|contradiction].
    + destruct (match_here ic p (String c s)); [discriminate|]. apply (IH _ H).
Qed.

End ReMore.

Module EnhancedMore.

Import Py Re ReFacts ReShape ReMore EnhancedSvrfParser.

Lemma bind_float_rule {A : Type} (s : string) (k : Q -> Res A) (a : A) :
  bind (to_float s) k = Done a -> exists v, k v = Done a.
Proof.
  unfold to_float. destruct (float s) as [v|]; simpl; [eauto|discriminate].
Qed.

(** A match of six groups has no seventh group. *)
Lemma seventh_group_missing (m : list string) (k1 : string -> string -> Res Classified) :
  List.length m = 6 ->
  (op <- group_of m 6 ;; v <- group_of m 7 ;; k1 op v) = Raised "IndexError".
Proof.
  destruct m as [|g1 [|g2 [|g3 [|g4 [|g5 [|g6 [|g7 m]]]]]]]; try discriminate.
  intros _. reflexivity.
Qed.

(** The rule types that the loop over [enhanced_patterns] can write. *)
Lemma classify_rule_types content c :
  classify content = Done c -> In (c_rule_type c) enhanced_rule_types.
Proof.
  unfold classify, enhanced_patterns. cbn [first_match]. intros H.
  destruct (search true (keyword_re "INTERNAL1") content) as [m|] eqn:E1.
  { cbn in H. apply bind_float_rule in H. destruct H as [v H].
    injection H as <-. simpl. tauto. }
  destruct (search true (keyword_re "INTERNAL2") content) as [m|] eqn:E2.
  { cbn in H. apply bind_float_rule in H. destruct H as [v H].
    injection H as <-. simpl. tauto. }
  destruct (search true (keyword_re "EXTERNAL1") content) as [m|] eqn:E3.
  { cbn in H. apply bind_float_rule in H. destruct H as [v H].
    injection H as <-. simpl. tauto. }
  match type of H with match match ?x with _ => _ end with _ => _ end = _ =>
    destruct x as [m|] eqn:E4 end.
  { cbn in H. apply bind_float_rule in H. destruct H as [v H].
    injection H as <-. simpl. tauto. }
  destruct (search true (keyword_re "AREA") content) as [m|] eqn:E5.
  { cbn in H. apply bind_float_rule in H. destruct H as [v H].
    injection H as <-. simpl. tauto. }
  match type of H with match match ?x with _ => _ end with _ => _ end = _ =>
    destruct x as [m|] eqn:E6 end.
  { apply search_groups_count in E6.
    change (classify_match m "density")
      with (op <- group_of m 6 ;; v <- group_of m 7 ;;
            (fun op v => val <- to_float v ;;
               Done (simple_rule "density" (group m 2) op val [group m 3; group m 4]))
              op v) in H.
    rewrite (seventh_group_missing m _ E6) in H. discriminate. }
  match type of H with match match ?x with _ => _ end with _ => _ end = _ =>
    destruct x as [m|] eqn:E7 end.
  { apply search_groups_count in E7.
    change (classify_match m "density_simple")
      with (op <- group_of m 6 ;; v <- group_of m 7 ;;
            (fun op v => val <- to_float v ;;
               Done (simple_rule "density" (group m 2) op val [group m 3; group m 4]))
              op v) in H.
    rewrite (seventh_group_missing m _ E7) in H. discriminate. }
  match type of H with match match ?x with _ => _ end with _ => _ end = _ =>
    destruct x as [m|] eqn:E8 end.
  { cbn in H. apply bind_float_rule in H. destruct H as [v H].
    injection H as <-. simpl. tauto. }
  match type of H with match match ?x with _ => _ end with _ => _ end = _ =>
    destruct x as [m|] eqn:E9 end.
  { cbn in H. apply bind_float_rule in H. destruct H as [v H].
    apply bind_float_rule in H. destruct H as [v' H].
    injection H as <-. simpl. tauto. }
  match type of H with match match ?x with _ => _ end with _ => _ end = _ =>
    destruct x as [m|] eqn:E10 end.
  { cbn in H. apply bind_float_rule in H. destruct H as [v H].
    apply bind_float_rule in H. destruct H as [v' H].
    injection H as <-. simpl. tauto. }
  match type of H with match match ?x with _ => _ end with _ => _ end = _ =>
    destruct x as [m|] eqn:E11 end.
  { exfalso. apply search_prefix in E11. contradiction. }
  match type of H with match match ?x with _ => _ end with _ => _ end = _ =>
    destruct x as [m|] eqn:E12 end.
  { exfalso. apply search_prefix in E12. contradiction. }
  injection H as <-. simpl. tauto.
Qed.

Lemma first_match_in content m cat : forall ps,
  first_match ps content = Some (m, cat) ->
  exists p, In (p, cat) ps /\ search true p content = Some m.
Proof.
  induction ps as [|[p c] ps IH]; cbn [first_match]; intros H; [discriminate|].
  destruct (search true p content) as [m'|] eqn:E.
  - injection H as <- <-. exists p. split; [left; reflexivity|exact E].
  - destruct (IH H) as (p' & H1 & H2). exists p'. split; [right; exact H1|exact H2].
Qed.

(** X11. Whatever the content of a rule is, the rule that
    [extract_enhanced_rule_details] appends has one of nine rule types.  The
    types "density", "multi_patterning" and "advanced_constraint" are not
    among them, although the loop has a branch for each: the density branch
    asks for a seventh group of patterns that have six, and the patterns
    for SAME_MASK and OPPOSITE stand in the list behind patterns that match
    wherever they do. *)
Theorem enhanced_rule_types_closed :
  forall nm content ln r,
    extracted_rule nm content ln = Done r ->
    In (rule_type r) enhanced_rule_types /\
    rule_type r <> "density"%string /\
    rule_type r <> "multi_patterning"%string /\
    rule_type r <> "advanced_constraint"%string.
Proof.
  intros nm content ln r H. unfold extracted_rule in H.
  destruct (classify content) as [c| |] eqn:Hc; simpl in H; try discriminate.
  injection H as <-. cbn [rule_type].
  apply classify_rule_types in Hc. split; [exact Hc|].
  unfold enhanced_rule_types in Hc. simpl in Hc.
  repeat match type of Hc with
  | _ \/ _ => destruct Hc as [Hc | Hc]
  end; try contradiction; rewrite <- Hc; repeat split; discriminate.
Qed.

Lemma enhanced_rule_types_closed_witness :
  exists r,
    extracted_rule "DP" same_mask_content 1 = Done r /\
    In (rule_type r) enhanced_rule_types /\
    rule_type r <> "density"%string /\
    rule_type r <> "multi_patterning"%string /\
    rule_type r <> "advanced_constraint"%string.
Proof.
  eexists. split; [vm_compute; reflexivity|].
  apply (enhanced_rule_types_closed "DP"%string same_mask_content 1).
  vm_compute. reflexivity.
Defined.

(** X12. When the first pattern of the list that matches a rule is one of the
    two density patterns, [extract_enhanced_rule_details] raises
    [IndexError] and appends no rule. *)
Theorem enhanced_density_raises :
  forall nm content ln m cat,
    first_match enhanced_patterns content = Some (m, cat) ->
    In cat ["density"; "density_simple"]%string ->
    extracted_rule nm content ln = Raised "IndexError".
Proof.
  intros nm content ln m cat Hfm Hcat.
  assert (Hlen : List.length m = 6).
  { apply first_match_in in Hfm. destruct Hfm as (p & Hin & Hs).
    apply search_groups_count in Hs. rewrite Hs.
    destruct Hcat as [<-|[<-|[]]]; unfold enhanced_patterns in Hin; simpl in Hin;
      repeat match type of Hin with
      | _ \/ _ => destruct Hin as [Hin | Hin]
      end; try contradiction;
      first [ discriminate Hin | injection Hin as <-; reflexivity ]. }
  unfold extracted_rule, classify. rewrite Hfm.
  destruct m as [|g1 [|g2 [|g3 [|g4 [|g5 [|g6 [|g7 m]]]]]]]; try discriminate Hlen.
  destruct Hcat as [<-|[<-|[]]]; reflexivity.
Qed.

Lemma enhanced_density_raises_witness :
  extracted_rule "DENS" density_content 1 = Raised "IndexError".
Proof.
  eapply (enhanced_density_raises "DENS"%string density_content 1 _ "density"%string).
  - vm_compute. reflexivity.
  - left. reflexivity.
Defined.

End EnhancedMore.

Module SimpleMore.

Import Py Re ReFacts ReShape ReMore SimpleSvrfParser.

Lemma lower_idem c : lower (lower c) = lower c.
Proof.
  destruct c as [[] [] [] [] [] [] [] []]; reflexivity.
Qed.

(** Under [re.IGNORECASE], the text that a literal matched is the literal
    up to the case of its letters. *)
Lemma lit_at_lower l : forall s,
  lit_at true l s = true -> str_lower (take (String.length l) s) = str_lower l.
Proof.
  induction l as [|a l IH]; intros s H; [destruct s; reflexivity|].
  destruct s as [|b s]; [discriminate|].
  cbn [lit_at char_eq] in H. apply andb_true_iff in H. destruct H as [H1 H2].
  apply Ascii.eqb_eq in H1.
  cbn [String.length take str_lower]. rewrite (IH _ H2), H1. reflexivity.
Qed.

Lemma search_first_lit K p : forall s m,
  search true (grp (Lit K) :: p)%list s = Some m ->
  str_lower (group m 1) = str_lower K.
Proof.
  assert (Hm : forall s m, match_here true (grp (Lit K) :: p)%list s = Some m ->
                           str_lower (group m 1) = str_lower K).
  { intros s m H. apply match_here_cons in H.
    destruct H as (n & g & _ & -> & Hl & ->).
    cbn. apply lit_at_lower. exact Hl. }
  induction s as [|c s IH]; intros m H; cbn [search] in H.
  - destruct (match_here true (grp (Lit K) :: p) EmptyString) eqn:E; [|discriminate].
    injection H as <-. apply (Hm _ _ E).
  - destruct (match_here true (grp (Lit K) :: p) (String c s)) eqn:E.
    + injection H as <-. apply (Hm _ _ E).
    + apply IH. exact H.
Qed.

Lemma bind_float_simple {A : Type} (s : string) (k : Q -> Res A) (a : A) :
  bind (to_float s) k = Done a -> exists v, k v = Done a.
Proof.
  unfold to_float. destruct (float s) as [v|]; simpl; [eauto|discriminate].
Qed.

(** X13. [re.search] of [extract_rule_details] ignores the case of the
    letters, and the rule type is the matched keyword in small letters: for
    every content of ASCII characters, however its keyword is written, the
    rule appended has one of eight rule types.  (On other text a letter
    outside ASCII can match a letter of the keyword, and the rule type then
    holds that letter.) *)
Theorem simple_rule_types_closed :
  forall nm content ln r,
    ascii_text content = true ->
    extracted_rule nm content ln = Done r ->
    In (rule_type r) simple_rule_types.
Proof.
  intros nm content ln r _ H. unfold extracted_rule in H.
  unfold first_match, patterns, keyword_re in H.
  cbn [EnhancedSvrfParser.first_match app] in H.
  repeat match type of H with
  | match match search true (grp (Lit ?K) :: ?p)%list content with _ => _ end
    with _ => _ end = _ =>
      let E := fresh "E" in
      destruct (search true (grp (Lit K) :: p)%list content) as [m|] eqn:E;
      [ apply search_first_lit in E; cbn in H;
        apply bind_float_simple in H; destruct H as [v H];
        injection H as <-; cbn [rule_type]; rewrite E; simpl; tauto | ]
  | match match search true ?p content with _ => _ end with _ => _ end = _ =>
      destruct (search true p content) as [m|];
      [ cbn in H; apply bind_float_simple in H; destruct H as [v H];
        injection H as <-; simpl; tauto | ]
  end.
  injection H as <-. simpl. tauto.
Qed.

Lemma simple_rule_types_closed_witness :
  exists r,
    extracted_rule "W" small_letters_content 1 = Done r /\
    rule_type r = "internal1"%string /\
    In (rule_type r) simple_rule_types.
Proof.
  eexists. split; [vm_compute; reflexivity|]. split; [reflexivity|].
  apply (simple_rule_types_closed "W"%string small_letters_content 1).
  - reflexivity.
  - vm_compute. reflexivity.
Defined.

End SimpleMore.

(* ================================================================== *)
(** * The lexer and the structural parser, one after the other *)
(* ================================================================== *)

Module PipelineMore.

Import Py SvrfDrcParser LexerFacts TokenShape ParserShape ParserEnds.

Section Rest.

(** What the readers of the lexer leave of a text is a part of it: a
    property of all its characters holds of what is left. *)
Variable P : ascii -> bool.

Lemma advance_rest lx :
  all_chars P (rest lx) = true -> all_chars P (rest (advance lx)) = true.
Proof.
  unfold advance. destruct (rest lx) as [|c r]; [reflexivity|].
  cbn [all_chars]. intros H. apply andb_true_iff in H.
  destruct (advance_pos c (lx_line lx) (lx_column lx)). apply H.
Qed.

Lemma skip_whitespace_from_rest s : forall l col,
  all_chars P s = true -> all_chars P (rest (skip_whitespace_from s l col)) = true.
Proof.
  induction s as [|c r IH]; intros l col H; [reflexivity|].
  cbn [skip_whitespace_from]. destruct (is_blank c); [|exact H].
  cbn [all_chars] in H. apply andb_true_iff in H.
  destruct (advance_pos c l col). apply IH. apply H.
Qed.

Lemma read_while_rest p s : forall l col,
  all_chars P s = true -> all_chars P (rest (snd (read_while p s l col))) = true.
Proof.
  induction s as [|c r IH]; intros l col H; [reflexivity|].
  cbn [read_while]. destruct (p c); [|exact H].
  cbn [all_chars] in H. apply andb_true_iff in H.
  destruct (advance_pos c l col) as [l' col']. specialize (IH l' col' (proj2 H)).
  destruct (read_while p r l' col'). exact IH.
Qed.

Lemma read_string_from_rest q : forall n s l col,
  String.length s <= n ->
  all_chars P s = true -> all_chars P (rest (snd (read_string_from q s l col))) = true.
Proof.
  induction n as [|n IH]; intros s l col Hn H.
  - destruct s; [reflexivity|simpl in Hn; lia].
  - destruct s as [|c r]; [reflexivity|].
    cbn [all_chars] in H. apply andb_true_iff in H. destruct H as [_ H].
    cbn [read_string_from]. destruct (Ascii.eqb c q).
    + destruct (advance_pos c l col). exact H.
    + destruct (Ascii.eqb c BACKSLASH).
      * destruct (advance_pos c l col) as [l1 col1].
        destruct r as [|d r']; [reflexivity|].
        cbn [all_chars] in H. apply andb_true_iff in H. destruct H as [_ H].
        destruct (advance_pos d l1 col1) as [l2 col2].
        assert (Hr : String.length r' <= n) by (simpl in Hn; lia).
        specialize (IH r' l2 col2 Hr H).
        destruct (read_string_from q r' l2 col2). exact IH.
      * destruct (advance_pos c l col) as [l' col'].
        assert (Hr : String.length r <= n) by (simpl in Hn; lia).
        specialize (IH r l' col' Hr H).
        destruct (read_string_from q r l' col'). exact IH.
Qed.

End Rest.

Lemma keywords_not_LBRACE v : dict_get keywords v IDENTIFIER <> LBRACE.
Proof.
  unfold keywords. simpl.
  repeat match goal with
         | |- context [if ?b then _ else _] => destruct b
         end; discriminate.
Qed.

Lemma single_char_not_LBRACE c ty :
  not_open_brace c = true -> char_lookup single_char_tokens c = Some ty -> ty <> LBRACE.
Proof.
  unfold not_open_brace, single_char_tokens. cbn [char_lookup].
  intros Hc. apply negb_true_iff in Hc. rewrite Hc.
  repeat match goal with
         | |- context [if ?b then _ else _] => destruct b
         end; intros H; inversion H; discriminate.
Qed.

(** One iteration of the main loop on a text without opening brace leaves
    a text without opening brace and appends no opening-brace token. *)
Lemma tokenize_step_brace lx toks toks' lx' :
  no_open_brace (rest lx) = true ->
  tokenize_step lx toks = Some (toks', lx') ->
  no_open_brace (rest lx') = true /\
  (toks' = toks \/ exists t, toks' = toks ++ [t] /\ type t <> LBRACE).
Proof.
  unfold no_open_brace. intros Hnb. unfold tokenize_step.
  pose proof (skip_whitespace_from_rest not_open_brace (rest lx) (lx_line lx)
                (lx_column lx) Hnb) as Hsk.
  fold (skip_whitespace lx) in Hsk.
  destruct (skip_whitespace lx) as [s l col]. cbn [rest] in Hsk.
  unfold current_char, peek_char. cbn [rest lx_line lx_column].
  destruct s as [|c r]; [discriminate|].
  assert (Hc : not_open_brace c = true)
    by (cbn [all_chars] in Hsk; apply andb_true_iff in Hsk; apply Hsk).
  assert (Hr : all_chars not_open_brace r = true)
    by (cbn [all_chars] in Hsk; apply andb_true_iff in Hsk; apply Hsk).
  destruct (Ascii.eqb c "/" && _) eqn:Hcom.
  { apply andb_true_iff in Hcom. destruct Hcom as [Hc1 Hd].
    destruct r as [|d r2]; [discriminate|]. cbn [opt_is] in Hd.
    apply Ascii.eqb_eq in Hc1. apply Ascii.eqb_eq in Hd. subst c d.
    unfold read_comment, current_char, peek_char. simpl.
    cbn [all_chars] in Hr. apply andb_true_iff in Hr. destruct Hr as [_ Hr].
    pose proof (read_while_rest not_open_brace (fun c => negb (Ascii.eqb c NL)) r2 l
                  (col + 1 + 1) Hr) as Hle.
    destruct (read_while _ r2 l (col + 1 + 1)) as [v lx2]. cbn [snd] in Hle.
    intros H. inversion H. subst. split; [exact Hle|].
    right. eexists. split; [reflexivity|]. simpl. discriminate. }
  destruct (Ascii.eqb c NL).
  { unfold advance. simpl. destruct (advance_pos c l col) as [l1 col1].
    intros H. inversion H. subst. split; [exact Hr|].
    right. eexists. split; [reflexivity|]. simpl. discriminate. }
  destruct (Ascii.eqb c DQUOTE || Ascii.eqb c SQUOTE).
  { unfold read_string, advance. simpl.
    destruct (advance_pos c l col) as [l1 col1]. simpl.
    pose proof (read_string_from_rest not_open_brace c _ r l1 col1 (le_n _) Hr) as Hle.
    destruct (read_string_from c r l1 col1) as [v lx2]. cbn [snd] in Hle.
    intros H. inversion H. subst. split; [exact Hle|].
    right. eexists. split; [reflexivity|]. simpl. discriminate. }
  destruct (isdigit c || _).
  { unfold read_number. cbn [rest lx_line lx_column].
    pose proof (read_while_rest not_open_brace (fun c => isdigit c || Ascii.eqb c ".")
                  (String c r) l col Hsk) as Hle.
    destruct (read_while _ (String c r) l col) as [v lx2]. cbn [snd] in Hle.
    intros H. inversion H. subst. split; [exact Hle|].
    right. eexists. split; [reflexivity|]. simpl. discriminate. }
  destruct (isalpha c || Ascii.eqb c "_").
  { unfold read_identifier. cbn [rest lx_line lx_column].
    pose proof (read_while_rest not_open_brace (fun c => isalnum c || Ascii.eqb c "_")
                  (String c r) l col Hsk) as Hle.
    destruct (read_while _ (String c r) l col) as [v lx2]. cbn [snd] in Hle.
    intros H. inversion H. subst. split; [exact Hle|].
    right. eexists. split; [reflexivity|]. cbn [type]. apply keywords_not_LBRACE. }
  destruct (Ascii.eqb c "=" && _) eqn:Heq.
  { apply andb_true_iff in Heq. destruct Heq as [_ Hd].
    destruct r as [|d r2]; [discriminate|].
    unfold advance. simpl.
    destruct (advance_pos c l col) as [l1 col1]. simpl.
    destruct (advance_pos d l1 col1) as [l2 col2].
    cbn [all_chars] in Hr. apply andb_true_iff in Hr. destruct Hr as [_ Hr].
    intros H. inversion H. subst. split; [exact Hr|].
    right. eexists. split; [reflexivity|]. simpl. discriminate. }
  destruct (char_lookup single_char_tokens c) as [ty|] eqn:Hty.
  { unfold advance. simpl. destruct (advance_pos c l col) as [l1 col1].
    intros H. inversion H. subst. split; [exact Hr|].
    right. eexists. split; [reflexivity|]. cbn [type].
    apply (single_char_not_LBRACE c ty Hc Hty). }
  unfold advance. simpl. destruct (advance_pos c l col) as [l1 col1].
  intros H. inversion H. subst. split; [exact Hr|]. left. reflexivity.
Qed.

Lemma no_brace_app ts us : no_brace (ts ++ us) = no_brace ts && no_brace us.
Proof. unfold no_brace. apply forallb_app. Qed.

Lemma tokenize_loop_brace : forall fuel lx toks toks' lx',
  no_open_brace (rest lx) = true -> no_brace toks = true ->
  tokenize_loop fuel lx toks = Some (toks', lx') ->
  no_brace toks' = true.
Proof.
  induction fuel as [|fuel IH]; intros lx toks toks' lx' Hnb Ht H;
    cbn [tokenize_loop] in H;
    destruct (current_char lx); try (injection H as <- _; exact Ht);
    destruct (tokenize_step lx toks) as [[toks1 lx1]|] eqn:Es;
    try (injection H as <- _; exact Ht); [discriminate|].
  apply (tokenize_step_brace _ _ _ _ Hnb) in Es. destruct Es as [Hnb1 Hts].
  apply (IH lx1 toks1 toks' lx' Hnb1); [|exact H].
  destruct Hts as [->|(t & -> & Hty)]; [exact Ht|].
  rewrite no_brace_app, Ht. cbn. unfold TokenType_eqb.
  destruct (TokenType_eq_dec (type t) LBRACE); [contradiction|reflexivity].
Qed.

Lemma ends_with_eof_app ts t :
  type t = EOF -> ends_with_eof (ts ++ [t]) = true.
Proof.
  intros Ht. induction ts as [|a ts IH].
  - cbn. rewrite Ht. reflexivity.
  - cbn [app ends_with_eof]. destruct (ts ++ [t]) eqn:E; [|exact IH].
    destruct ts; discriminate.
Qed.

Lemma contains_open_brace s :
  contains "{" s = false -> no_open_brace s = true.
Proof.
  unfold no_open_brace. induction s as [|c s IH]; intros H; [reflexivity|].
  cbn [contains startswith] in H. apply orb_false_iff in H. destruct H as [H1 H2].
  cbn [all_chars]. rewrite (IH H2). unfold not_open_brace.
  destruct (Ascii.eqb "{" c); [discriminate|reflexivity].
Qed.

(** X14. A text without opening brace goes through the lexer and the
    structural parser: [tokenize] gives its tokens, and [parse] returns or
    raises on them as soon as each of its loops is allowed as many turns as
    there are tokens.  Rule blocks, which an opening brace starts, are the
    only place where the parser can run for ever. *)
Theorem text_without_brace_is_parsed :
  forall text,
    contains "{" text = false ->
    exists toks,
      tokenize text = Some toks /\
      forall fuel, List.length toks <= fuel -> parse fuel toks <> Timeout.
Proof.
  intros text Hb. apply contains_open_brace in Hb.
  destruct (tokenize_loop_total (String.length text) (mkLexer text 1 1) [] (le_n _))
    as (new & lx' & Hl & _ & _).
  cbn [app] in Hl. unfold tokenize. rewrite Hl.
  eexists. split; [reflexivity|]. intros fuel Hf.
  assert (Hg : good (new_parser (new ++ [mkToken EOF EmptyString (lx_line lx') (lx_column lx')]))).
  { split; cbn [new_parser tokens].
    - apply ends_with_eof_app. reflexivity.
    - rewrite no_brace_app.
      rewrite (tokenize_loop_brace _ (mkLexer text 1 1) [] _ _ Hb eq_refl Hl).
      reflexivity. }
  pose proof (parse_loop_ends fuel fuel _ Hg Hf Hf) as H.
  unfold parse.
  destruct (parse_loop fuel fuel _); simpl in *; [discriminate|discriminate|contradiction].
Qed.

Lemma text_without_brace_is_parsed_witness :
  exists toks,
    tokenize sample_text = Some toks /\
    forall fuel, List.length toks <= fuel -> parse fuel toks <> Timeout.
Proof.
  apply (text_without_brace_is_parsed sample_text). reflexivity.
Defined.

End PipelineMore.

(* ================================================================== *)
(** * The expression rewriter on a connective between two names *)
(* ================================================================== *)

Module RewriterMore.

Import Py ReFacts RewriterShape.
Local Open Scope string_scope.

Lemma startswith_count c p : forall s,
  startswith p s = true -> (count c p <= count c s)%nat.
Proof.
  induction p as [|a p IH]; intros s H; [cbn; lia|].
  destruct s as [|b s]; [discriminate|].
  cbn [startswith] in H. apply andb_true_iff in H. destruct H as [H1 H2].
  apply Ascii.eqb_eq in H1. subst b. cbn [count]. specialize (IH _ H2). lia.
Qed.

Lemma spaceless_no_startswith p s :
  (0 < count " " p)%nat -> count " " s = 0%nat -> startswith p s = false.
Proof.
  intros Hp Hs. destruct (startswith p s) eqn:E; [|reflexivity].
  apply (startswith_count " ") in E. lia.
Qed.

Lemma spaceless_no_contains p : forall s,
  (0 < count " " p)%nat -> count " " s = 0%nat -> contains p s = false.
Proof.
  induction s as [|c s IH]; intros Hp Hs; cbn [contains].
  - rewrite (spaceless_no_startswith p EmptyString Hp Hs). reflexivity.
  - rewrite (spaceless_no_startswith p (String c s) Hp Hs).
    apply IH; [exact Hp|]. cbn [count] in Hs. lia.
Qed.

Lemma startswith_app p t : startswith p (p ++ t) = true.
Proof.
  induction p as [|a p IH]; [reflexivity|].
  cbn [append startswith]. rewrite Ascii.eqb_refl. exact IH.
Qed.

(** Where [old] starts in [m ++ b]: inside [m], or on the end of [m] and
    over it. *)
Lemma startswith_split b : forall m old,
  startswith old (m ++ b) = true ->
  startswith old m = true \/
  (startswith m old = true /\ startswith (drop (String.length m) old) b = true).
Proof.
  induction m as [|c m IH]; intros old H.
  - right. split; [destruct old; reflexivity|exact H].
  - destruct old as [|a old]; [left; reflexivity|].
    cbn [append startswith] in H. apply andb_true_iff in H. destruct H as [H1 H2].
    cbn [startswith String.length drop]. rewrite H1.
    apply Ascii.eqb_eq in H1. subst c. rewrite Ascii.eqb_refl. cbn [andb].
    apply IH. exact H2.
Qed.

Lemma contains_clear old b : forall mid,
  count " " b = 0%nat -> clear_of old mid = true -> contains old (mid ++ b) = false.
Proof.
  intros mid Hb. induction mid as [|c mid IH]; intros H.
  - cbn [clear_of] in H. apply andb_true_iff in H. destruct H as [H _].
    apply andb_true_iff in H. destruct H as [_ H].
    cbn [startswith String.length drop andb] in H. apply negb_true_iff in H.
    apply Nat.eqb_neq in H.
    apply spaceless_no_contains; [lia|exact Hb].
  - cbn [clear_of] in H. apply andb_true_iff in H. destruct H as [H H3].
    apply andb_true_iff in H. destruct H as [H1 H2].
    apply negb_true_iff in H1. apply negb_true_iff in H2.
    change (String c mid ++ b) with (String c (mid ++ b)).
    cbn [contains]. rewrite (IH H3), orb_false_r.
    destruct (startswith old (String c (mid ++ b))) eqn:E; [|reflexivity].
    apply (startswith_split b (String c mid) old) in E.
    destruct E as [E|[E1 E2]]; [congruence|].
    rewrite E1 in H2. cbn [andb] in H2. apply Nat.eqb_neq in H2.
    apply (startswith_count " ") in E2. lia.
Qed.

(** [replace] passes over a text without space when [old] starts with a
    space. *)
Lemma replace_spaceless_prefix o new t : forall a,
  count " " a = 0%nat ->
  replace (String " " o) new (a ++ t) = a ++ replace (String " " o) new t.
Proof.
  unfold replace. induction a as [|c a IH]; intros Ha; [reflexivity|].
  cbn [count] in Ha. cbn [append replace_from startswith].
  destruct (Ascii.eqb_spec " " c) as [<-|Hc]; [cbn in Ha; lia|].
  cbn [andb]. rewrite IH; [reflexivity|].
  destruct (Ascii.eqb c " "); cbn in Ha; lia.
Qed.

Lemma replace_skip old new t : forall x,
  replace_from old new (String.length x) (x ++ t) = replace_from old new 0 t.
Proof.
  induction x as [|c x IH]; [reflexivity|].
  cbn [String.length append replace_from]. exact IH.
Qed.

(** [replace] at an occurrence of [old]. *)
Lemma replace_at c o new t :
  replace (String c o) new (String c o ++ t) = new ++ replace (String c o) new t.
Proof.
  unfold replace. change (String c o ++ t) with (String c (o ++ t)).
  cbn [replace_from].
  change (String c (o ++ t)) with (String c o ++ t).
  rewrite startswith_app. cbn [String.length Nat.sub].
  rewrite Nat.sub_0_r, replace_skip. reflexivity.
Qed.

Lemma replace_none old new s : contains old s = false -> replace old new s = s.
Proof.
  unfold replace. induction s as [|c s IH]; intros H; [reflexivity|].
  cbn [contains] in H. apply orb_false_iff in H. destruct H as [H1 H2].
  cbn [replace_from]. rewrite H1, (IH H2). reflexivity.
Qed.

(** [replace] between two texts without space: the occurrence of [old] is
    replaced, ... *)
Lemma replace_hit o new a b :
  count " " a = 0%nat -> count " " b = 0%nat ->
  replace (String " " o) new (a ++ String " " o ++ b) = a ++ new ++ b.
Proof.
  intros Ha Hb. rewrite (replace_spaceless_prefix o new _ a Ha), replace_at.
  rewrite (replace_none _ _ b); [reflexivity|].
  apply spaceless_no_contains; [cbn; lia|exact Hb].
Qed.

(** ... and a text [mid] that is clear of [old] is left as it is. *)
Lemma replace_miss o new a mid b :
  count " " a = 0%nat -> count " " b = 0%nat ->
  clear_of (String " " o) mid = true ->
  replace (String " " o) new (a ++ mid ++ b) = a ++ mid ++ b.
Proof.
  intros Ha Hb Hm. rewrite (replace_spaceless_prefix o new _ a Ha).
  rewrite (replace_none _ _ (mid ++ b)); [reflexivity|].
  apply contains_clear; [exact Hb|exact Hm].
Qed.

Lemma not_empty_app a c t : is_empty (a ++ String c t) = false.
Proof. destruct a; reflexivity. Qed.

(** X15. A connective between two operands without space, such as two layer
    names, becomes its symbol, and the operands stay as they are: this
    holds of [translate_layer_expression] and of the rewriting that
    [translate_to_icv] does for derived layers. *)
Theorem binary_connective_rewritten :
  forall a b kw sym,
    In (kw, sym) connectives ->
    count " " a = 0%nat -> count " " b = 0%nat ->
    SvrfToIcvTranslator.translate_layer_expression (a ++ " " ++ kw ++ " " ++ b)
    = a ++ " " ++ sym ++ " " ++ b
    /\
    FinalEnhancedTranslator.translate_expression (a ++ " " ++ kw ++ " " ++ b)
    = a ++ " " ++ sym ++ " " ++ b.
Proof.
  intros a b kw sym Hin Ha Hb.
  unfold SvrfToIcvTranslator.translate_layer_expression,
    FinalEnhancedTranslator.translate_expression.
  change (a ++ " " ++ kw ++ " " ++ b) with (a ++ String " " (kw ++ " " ++ b)).
  rewrite not_empty_app.
  unfold connectives in Hin. simpl in Hin.
  destruct Hin as [Hin|[Hin|[Hin|[]]]]; injection Hin as <- <-.
  - change (a ++ String " " ("AND" ++ " " ++ b)) with (a ++ " AND " ++ b).
    rewrite (replace_hit "AND " " & " a b Ha Hb).
    rewrite (replace_miss "OR " " | " a " & " b Ha Hb eq_refl).
    rewrite (replace_miss "NOT " " ! " a " & " b Ha Hb eq_refl).
    split; reflexivity.
  - change (a ++ String " " ("OR" ++ " " ++ b)) with (a ++ " OR " ++ b).
    rewrite (replace_miss "AND " " & " a " OR " b Ha Hb eq_refl).
    rewrite (replace_hit "OR " " | " a b Ha Hb).
    rewrite (replace_miss "NOT " " ! " a " | " b Ha Hb eq_refl).
    split; reflexivity.
  - change (a ++ String " " ("NOT" ++ " " ++ b)) with (a ++ " NOT " ++ b).
    rewrite (replace_miss "AND " " & " a " NOT " b Ha Hb eq_refl).
    rewrite (replace_miss "OR " " | " a " NOT " b Ha Hb eq_refl).
    rewrite (replace_hit "NOT " " ! " a b Ha Hb).
    split; reflexivity.
Qed.

Lemma binary_connective_rewritten_witness :
  SvrfToIcvTranslator.translate_layer_expression "POLY OR ACTIVE" = "POLY | ACTIVE"
  /\
  FinalEnhancedTranslator.translate_expression "POLY OR ACTIVE" = "POLY | ACTIVE".
Proof.
  apply (binary_connective_rewritten "POLY" "ACTIVE" "OR" "|");
    [right; left; reflexivity|reflexivity|reflexivity].
Defined.

End RewriterMore.

(* ================================================================== *)
(** * Area, length and width rules, from the text to the ICV check *)
(* ================================================================== *)

Module MeasureMore.

Import Py Re ReFacts FinalEnhancedTranslator ClassifierFacts RewriterMore MeasureRules.
Local Open Scope string_scope.

Ltac split_ok H :=
  unfold measure_ok in H;
  repeat match type of H with
         | _ && _ = true => let H1 := fresh "Hok" in
                            apply andb_true_iff in H; destruct H as [H H1]
         end.

(** The operator group of the measurement patterns. *)
Lemma match_measure_op o pat t groups :
  in_strings o ["<"; ">"; "=="] = true ->
  match_here false pat t = Some groups ->
  match_here false (grp (Alt ["<"; ">"; "=="]) :: pat)%list (o ++ t)
  = Some (o :: groups)%list.
Proof.
  intros Ho Hrest. unfold in_strings in Ho. simpl in Ho.
  destruct (String.eqb_spec o "<") as [->|_];
    [|destruct (String.eqb_spec o ">") as [->|_];
      [|destruct (String.eqb_spec o "==") as [->|_]; [|discriminate]]];
    cbn [match_here grp first_alt]; simpl; rewrite Hrest; reflexivity.
Qed.

Lemma measure_op_stops o t (cls : ascii -> bool) :
  cls "<"%char = false -> cls ">"%char = false -> cls "="%char = false ->
  in_strings o ["<"; ">"; "=="] = true -> stops cls (o ++ t) = true.
Proof.
  intros H1 H2 H3 Ho. unfold in_strings in Ho. simpl in Ho.
  destruct (String.eqb_spec o "<") as [->|_]; [cbn; rewrite H1; reflexivity|].
  destruct (String.eqb_spec o ">") as [->|_]; [cbn; rewrite H2; reflexivity|].
  destruct (String.eqb_spec o "==") as [->|_]; [cbn; rewrite H3; reflexivity|discriminate].
Qed.

(** The pattern of a keyword matches a text of the shape at its start, and
    its groups are the layer name, the operator and the number. *)
Lemma measure_matches_shape kw sh post :
  measure_ok sh = true -> stops digit_dot post = true ->
  match_here false (keyword_re kw) (measure_text kw sh post)
  = Some [m_layer sh; m_op sh; m_number sh]%list.
Proof.
  intros Hok Hpost. split_ok Hok.
  unfold keyword_re, op_value, measure_text. cbn [app].
  apply match_lit_raw.
  apply match_rep_raw; [assumption| |apply nonempty_length; assumption|].
  { apply (stops_disjoint word space); auto using word_not_space. }
  apply match_rep_grp; [assumption| |apply nonempty_length; assumption|].
  { destruct (m_sp2 sh) as [|x s2] eqn:E2.
    - cbn [append].
      apply measure_op_stops; [reflexivity|reflexivity|reflexivity|assumption].
    - apply (stops_disjoint space word); auto using space_not_word. }
  apply match_rep_raw; [assumption| |lia|].
  { apply measure_op_stops; [reflexivity|reflexivity|reflexivity|assumption]. }
  apply match_measure_op; [assumption|].
  apply match_rep_raw; [assumption| |lia|].
  { apply (stops_disjoint digit_dot space); auto using digit_dot_not_space. }
  apply match_rep_grp; [assumption|assumption|apply nonempty_length; assumption|].
  reflexivity.
Qed.

Lemma prefix_all_in (cls : ascii -> bool) : forall q k,
  startswith q k = true -> all_in cls k = true -> all_in cls q = true.
Proof.
  induction q as [|a q IH]; intros k H Hk; [reflexivity|].
  destruct k as [|b k]; [discriminate|].
  cbn [startswith] in H. apply andb_true_iff in H. destruct H as [H1 H2].
  apply Ascii.eqb_eq in H1. subst b.
  cbn [all_in] in *. apply andb_true_iff in Hk. destruct Hk as [Ha Hk].
  rewrite Ha, (IH _ H2 Hk). reflexivity.
Qed.

Lemma all_in_ends_inside (cls : ascii -> bool) : forall q,
  nonempty q = true -> all_in cls q = true -> ends_outside cls q = false.
Proof.
  induction q as [|a q IH]; intros Hne H; [discriminate|].
  cbn [all_in] in H. apply andb_true_iff in H. destruct H as [Ha Hq].
  destruct q as [|b q]; [cbn; rewrite Ha; reflexivity|].
  change (ends_outside cls (String a (String b q))) with (ends_outside cls (String b q)).
  apply IH; [reflexivity|exact Hq].
Qed.

(** A keyword does not start inside a text that does not hold it and does
    not end inside a word. *)
Lemma keyword_not_in_prefix kw q t :
  all_in word kw = true ->
  nonempty q = true -> contains kw q = false -> ends_outside word q = true ->
  lit_at false kw (q ++ t) = false.
Proof.
  intros Hkw Hne Hc He. rewrite lit_at_startswith.
  destruct (startswith kw (q ++ t)) eqn:E; [|reflexivity].
  apply startswith_split in E. destruct E as [E|[E _]].
  - apply startswith_contains in E. congruence.
  - apply (prefix_all_in word _ _ E) in Hkw.
    rewrite (all_in_ends_inside word q Hne Hkw) in He. discriminate.
Qed.

(** [re.search] finds the shape behind such a text. *)
Lemma search_finds_measure kw sh post :
  all_in word kw = true ->
  measure_ok sh = true -> stops digit_dot post = true ->
  forall pre,
    contains kw pre = false -> ends_outside word pre = true ->
    search false (keyword_re kw) (pre ++ measure_text kw sh post)
    = Some [m_layer sh; m_op sh; m_number sh]%list.
Proof.
  intros Hkw Hok Hpost. induction pre as [|c pre IH]; intros Hc He.
  - cbn [append].
    assert (Hm := measure_matches_shape kw sh post Hok Hpost).
    destruct (measure_text kw sh post); cbn [search]; rewrite Hm; reflexivity.
  - change (String c pre ++ measure_text kw sh post)
      with (String c (pre ++ measure_text kw sh post)).
    cbn [search].
    change (String c (pre ++ measure_text kw sh post))
      with (String c pre ++ measure_text kw sh post).
    assert (Hno : match_here false (keyword_re kw)
                    (String c pre ++ measure_text kw sh post) = None).
    { unfold keyword_re. cbn [app]. apply match_lit_none.
      apply keyword_not_in_prefix; [exact Hkw|reflexivity|exact Hc|exact He]. }
    rewrite Hno. apply IH.
    + apply (contains_drop kw (String c pre) 1 Hc).
    + apply (ends_outside_drop word (String c pre) 1 He).
Qed.

Lemma no_enclosure content :
  contains "NOT" content = false -> search false enclosure_re content = None.
Proof.
  intros Hnot.
  destruct (search false enclosure_re content) as [m|] eqn:E; [|reflexivity].
  assert (Hin : In (false, Lit "NOT") enclosure_re)
    by (unfold enclosure_re, raw; simpl; tauto).
  rewrite (search_shows_literals _ _ _ Hin _ _ E) in Hnot. discriminate.
Qed.

(** X16. An area, a length or a width rule, from the text to the check.  The
    content of the rule holds [KEYWORD LAYER <op> <number>], the keyword
    being AREA, INTERNAL2 or INTERNAL1, behind a text that does not hold
    the keyword and does not end inside a word; the content holds no [NOT]
    and none of the keywords that [parse_rule_content] looks for first.
    Then the rule has the type of the keyword, the layer, the operator and
    the value of the text, and [translate_rule] writes the call of [area],
    [length] or [width] on them. *)
Theorem measure_rule_translated :
  forall (ms : Measure) (nm pre post : string) (sh : MeasureShape) (ln : nat) (v : Q)
         (repr_float : Q -> string),
    In ms measures ->
    measure_ok sh = true ->
    contains (keyword ms) pre = false ->
    ends_outside word pre = true ->
    stops digit_dot post = true ->
    float (m_number sh) = Some v ->
    contains "NOT" (pre ++ measure_text (keyword ms) sh post) = false ->
    absent (tested_before ms) (pre ++ measure_text (keyword ms) sh post) = true ->
    exists r,
      classified_rule nm (pre ++ measure_text (keyword ms) sh post) ln = Done r /\
      rule_type r = measure_type ms /\
      layer r = m_layer sh /\
      operator r = m_op sh /\
      value r = v /\
      icv_syntax (translate_rule repr_float r)
      = icv_function ms ++ "(" ++ m_layer sh ++ ") " ++ m_op sh ++ " " ++ repr_float v.
Proof.
  intros ms nm pre post sh ln v repr_float Hin Hok Hpre Hend Hpost Hv Hnot Habs.
  set (content := pre ++ measure_text (keyword ms) sh post) in *.
  assert (Hs : search false (keyword_re (keyword ms)) content
               = Some [m_layer sh; m_op sh; m_number sh]%list).
  { apply search_finds_measure; try assumption.
    unfold measures in Hin. simpl in Hin.
    destruct Hin as [<-|[<-|[<-|[]]]]; reflexivity. }
  apply no_enclosure in Hnot.
  unfold absent in Habs.
  unfold measures in Hin. simpl in Hin.
  destruct Hin as [<-|[<-|[<-|[]]]];
    cbn [tested_before keyword measure_type icv_function forallb] in *;
    repeat (apply andb_true_iff in Habs; destruct Habs as [?Hk Habs]);
    repeat match goal with
           | Hx : negb _ = true |- _ => apply negb_true_iff in Hx
           end;
    unfold classified_rule, classify; rewrite Hnot;
    repeat match goal with
           | Hx : contains ?k content = false |- context [contains ?k content] =>
               rewrite Hx
           end;
    cbn [andb];
    match goal with
    | |- context [contains ?k content] =>
        assert (Hfound : contains k content = true)
          by (eapply (search_lit_contains false k); exact Hs);
        rewrite Hfound
    end;
    try (fold (keyword_re "AREA")); try (fold (keyword_re "INTERNAL2"));
    try (fold (keyword_re "INTERNAL1"));
    rewrite Hs; unfold group; cbn [Nat.sub nth]; unfold to_float; rewrite Hv;
    cbn [bind]; eexists; (split; [reflexivity|]);
    repeat split.
Qed.

Lemma measure_rule_translated_witness :
  exists r,
    classified_rule "M1_W" ("M1_W { " ++ measure_text "INTERNAL1" width_shape " }") 3
    = Done r /\
    rule_type r = "internal1" /\
    layer r = "M1" /\
    operator r = "<" /\
    value r = 0.1%Q /\
    icv_syntax (translate_rule FinalShape.sample_repr r) = "width(M1) < 0.1".
Proof.
  apply (measure_rule_translated
           (mkMeasure "INTERNAL1" "internal1" "width"
              ["ANTENNA"; "RECTANGLE"; "SAME_MASK"; "EXTERNAL"; "DENSITY"; "AREA";
               "INTERNAL2"])
           "M1_W" "M1_W { " " }" width_shape 3 0.1%Q FinalShape.sample_repr);
    try reflexivity.
  right. right. left. reflexivity.
Defined.

End MeasureMore.

(* ================================================================== *)
(** * The structural parser on a measurement rule *)
(* ================================================================== *)

Module RuleMore.

Import Py SvrfDrcParser ParserFacts ParserShape ParserEnds.

Lemma p_advance_app p t pre u ts :
  p_advance (set_tokens p (t :: pre ++ u :: ts)) = set_tokens p (pre ++ u :: ts).
Proof. destruct pre; reflexivity. Qed.

(** A loop that only advances passes the tokens on which its condition
    holds and stops on the first one on which it does not. *)
Lemma advance_loop_run p (cond : Parser -> bool) t ts : forall pre fuel,
  (forall x xs, In x pre -> cond (set_tokens p (x :: xs)) = true) ->
  cond (set_tokens p (t :: ts)) = false ->
  List.length pre <= fuel ->
  while_ fuel cond (fun q => Done (p_advance q)) (set_tokens p (pre ++ t :: ts))
  = Done (set_tokens p (t :: ts)).
Proof.
  induction pre as [|x pre IH]; intros fuel Hpre Ht Hf.
  - apply while_done. exact Ht.
  - destruct fuel as [|fuel]; [simpl in Hf; lia|].
    cbn [app]. rewrite while_unfold by (apply Hpre; left; reflexivity).
    cbn [bind]. rewrite p_advance_app.
    apply IH; [|exact Ht|simpl in Hf; lia].
    intros y ys Hy. apply Hpre. right. exact Hy.
Qed.

Lemma of_kind_eq ty t : of_kind ty t = true -> type t = ty.
Proof. unfold of_kind. apply TokenType_eqb_eq. Qed.

Lemma cur_is_cons ty p t ts : cur_is ty (set_tokens p (t :: ts)) = of_kind ty t.
Proof. reflexivity. Qed.

Lemma skip_newlines_run p t ts pre fuel :
  forallb (of_kind NEWLINE) pre = true -> of_kind NEWLINE t = false ->
  List.length pre <= fuel ->
  skip_newlines fuel (set_tokens p (pre ++ t :: ts)) = Done (set_tokens p (t :: ts)).
Proof.
  intros Hpre Ht Hf. unfold skip_newlines.
  apply advance_loop_run; [|exact Ht|exact Hf].
  intros x xs Hx. rewrite cur_is_cons.
  rewrite forallb_forall in Hpre. apply Hpre. exact Hx.
Qed.

Lemma skip_comments_none fuel p t ts :
  of_kind COMMENT t = false ->
  skip_comments fuel (set_tokens p (t :: ts)) = Done (set_tokens p (t :: ts)).
Proof. intros H. apply while_done. exact H. Qed.

Ltac split_head H :=
  unfold rule_head_ok in H;
  repeat match type of H with
         | _ && _ = true => let H1 := fresh "Hh" in
                            apply andb_true_iff in H; destruct H as [H H1]
         end.

Lemma of_kind_other ty ty' t : of_kind ty t = true -> ty <> ty' -> of_kind ty' t = false.
Proof.
  intros H Hne. apply of_kind_eq in H. unfold of_kind. rewrite H.
  unfold TokenType_eqb. destruct (TokenType_eq_dec ty ty'); [contradiction|reflexivity].
Qed.

(** The parameters: the loop takes the identifiers, and stops in front of
    a closing brace or a newline. *)
Lemma params_loop_run p t ts : forall params fuel d,
  forallb (of_kind IDENTIFIER) params = true ->
  of_kind RBRACE t || of_kind NEWLINE t = true ->
  List.length params <= fuel ->
  while_ fuel
    (fun st : list (string * ParamValue) * Parser =>
       cur_not_in [RBRACE; NEWLINE] (snd st))
    (fun st =>
       let (params, p) := st in
       match current_token p with
       | Some t =>
           if TokenType_eqb (type t) IDENTIFIER
           then Done (dict_set params (value t) PTrue, p_advance p)
           else Done st
       | None => Done st
       end)
    (d, set_tokens p (params ++ t :: ts))
  = Done (fold_left (fun d t => dict_set d (value t) PTrue) params d,
          set_tokens p (t :: ts)).
Proof.
  induction params as [|x params IH]; intros fuel d Hp Ht Hf.
  - apply while_done. cbn [snd app]. unfold cur_not_in. cbn [current_token set_tokens tokens existsb].
    unfold of_kind in Ht. rewrite orb_false_r, Ht. reflexivity.
  - cbn [forallb] in Hp. apply andb_true_iff in Hp. destruct Hp as [Hx Hp].
    destruct fuel as [|fuel]; [simpl in Hf; lia|].
    rewrite while_unfold.
    2:{ cbn [snd app]. unfold cur_not_in. cbn [current_token set_tokens tokens existsb].
        fold (of_kind RBRACE x). fold (of_kind NEWLINE x).
        rewrite (of_kind_other IDENTIFIER RBRACE x Hx) by discriminate.
        rewrite (of_kind_other IDENTIFIER NEWLINE x Hx) by discriminate.
        reflexivity. }
    cbn [app]. cbn [current_token set_tokens tokens].
    fold (of_kind IDENTIFIER x). rewrite Hx. cbn [bind].
    change (mkParser (x :: params ++ t :: ts) (layers p) (rules p) (includes p)
              (errors p) (warnings p))
      with (set_tokens p (x :: params ++ t :: ts)).
    rewrite p_advance_app. cbn [fold_left].
    apply IH; [exact Hp|exact Ht|simpl in Hf; lia].
Qed.

(** The same loop in front of a token that is neither: it takes the
    identifiers and then turns for ever. *)
Lemma params_loop_stuck p t ts : forall params fuel d,
  forallb (of_kind IDENTIFIER) params = true ->
  stuck_token t = true ->
  while_ fuel
    (fun st : list (string * ParamValue) * Parser =>
       cur_not_in [RBRACE; NEWLINE] (snd st))
    (fun st =>
       let (params, p) := st in
       match current_token p with
       | Some t =>
           if TokenType_eqb (type t) IDENTIFIER
           then Done (dict_set params (value t) PTrue, p_advance p)
           else Done st
       | None => Done st
       end)
    (d, set_tokens p (params ++ t :: ts))
  = Timeout.
Proof.
  unfold stuck_token.
  induction params as [|x params IH]; intros fuel d Hp Ht.
  - apply andb_true_iff in Ht. destruct Ht as [Ht H3].
    apply andb_true_iff in Ht. destruct Ht as [H1 H2].
    apply negb_true_iff in H1. apply negb_true_iff in H2. apply negb_true_iff in H3.
    apply while_stuck.
    + cbn [snd app]. unfold cur_not_in. cbn [current_token set_tokens tokens existsb].
      fold (of_kind RBRACE t). fold (of_kind NEWLINE t). rewrite H2, H3. reflexivity.
    + cbn [app current_token set_tokens tokens].
      fold (of_kind IDENTIFIER t). rewrite H1. reflexivity.
  - cbn [forallb] in Hp. apply andb_true_iff in Hp. destruct Hp as [Hx Hp].
    destruct fuel as [|fuel].
    + cbn [while_ snd app]. unfold cur_not_in. cbn [current_token set_tokens tokens existsb].
      fold (of_kind RBRACE x). fold (of_kind NEWLINE x).
      rewrite (of_kind_other IDENTIFIER RBRACE x Hx) by discriminate.
      rewrite (of_kind_other IDENTIFIER NEWLINE x Hx) by discriminate.
      reflexivity.
    + rewrite while_unfold.
      2:{ cbn [snd app]. unfold cur_not_in. cbn [current_token set_tokens tokens existsb].
          fold (of_kind RBRACE x). fold (of_kind NEWLINE x).
          rewrite (of_kind_other IDENTIFIER RBRACE x Hx) by discriminate.
          rewrite (of_kind_other IDENTIFIER NEWLINE x Hx) by discriminate.
          reflexivity. }
      cbn [app]. cbn [current_token set_tokens tokens].
      fold (of_kind IDENTIFIER x). rewrite Hx. cbn [bind].
      change (mkParser (x :: params ++ t :: ts) (layers p) (rules p) (includes p)
                (errors p) (warnings p))
        with (set_tokens p (x :: params ++ t :: ts)).
      rewrite p_advance_app.
      apply IH; [exact Hp|exact Ht].
Qed.

(** The measurement: layer, operator and number are taken, and the loop
    over the parameters is entered. *)
Lemma measure_body_start fuel p lay op num v rest :
  of_kind IDENTIFIER lay = true ->
  existsb (TokenType_eqb (type op)) [LT; GT; EQ] = true ->
  of_kind NUMBER num = true -> float (value num) = Some v ->
  rest <> [] ->
  parse_measure_body fuel (set_tokens p (lay :: op :: num :: rest))
  = ('(additional_params, q) <-
       while_ fuel
         (fun st : list (string * ParamValue) * Parser =>
            cur_not_in [RBRACE; NEWLINE] (snd st))
         (fun st =>
            let (params, p) := st in
            match current_token p with
            | Some t =>
                if TokenType_eqb (type t) IDENTIFIER
                then Done (dict_set params (value t) PTrue, p_advance p)
                else Done st
            | None => Done st
            end)
         ([], set_tokens p rest) ;;
     Done (mkRuleBody (value lay) (value op) v additional_params, q)).
Proof.
  intros Hl Ho Hn Hv Hr. destruct rest as [|r0 rest]; [contradiction|].
  unfold parse_measure_body, take_value_if, take_float_if_number.
  cbn [current_token set_tokens tokens existsb].
  fold (of_kind IDENTIFIER lay). rewrite Hl. cbn [orb].
  cbn [p_advance set_tokens tokens layers rules includes errors warnings current_token].
  cbn [existsb] in Ho. rewrite Ho.
  cbn [p_advance set_tokens tokens layers rules includes errors warnings current_token].
  fold (of_kind NUMBER num). rewrite Hn, Hv.
  cbn [bind p_advance set_tokens tokens layers rules includes errors warnings].
  reflexivity.
Qed.

Lemma forallb_app_true {A : Type} (f : A -> bool) (l1 l2 : list A) :
  forallb f l1 = true -> forallb f l2 = true -> forallb f (l1 ++ l2) = true.
Proof. intros H1 H2. rewrite forallb_app, H1, H2. reflexivity. Qed.

(** The head of the block: the name, the brace, the description when
    there is one, and the keyword of the measurement. *)
Lemma rule_header fuel p name lbrace nls1 descr nls2 kw w0 ws :
  of_kind IDENTIFIER name = true -> of_kind LBRACE lbrace = true ->
  forallb (of_kind NEWLINE) nls1 = true -> descr_ok descr = true ->
  forallb (of_kind NEWLINE) nls2 = true ->
  in_strings (value kw) ["INTERNAL1"; "INTERNAL2"; "EXTERNAL"; "EXTERNAL1"]%string = true ->
  of_kind NEWLINE kw = false -> of_kind COMMENT kw = false -> of_kind AT kw = false ->
  List.length nls1 + List.length nls2 <= fuel ->
  parse_drc_rule fuel
    (set_tokens p (name :: lbrace :: nls1 ++ descr ++ nls2 ++ kw :: w0 :: ws))
  = ('(body, q) <- parse_measure_body fuel (set_tokens p (w0 :: ws)) ;;
     q <- while_ fuel
            (fun p => match current_token p with
                      | Some t => negb (TokenType_eqb (type t) RBRACE)
                      | None => false
                      end)
            (fun p => Done (p_advance p)) q ;;
     let q := if cur_is RBRACE q then p_advance q else q in
     Done (add_rule q
             (mkDRCRule (value name)
                (match descr with [_; s] => value s | _ => EmptyString end)
                (value kw) (b_layer body) (b_constraint body) (b_value body)
                (line name) (b_additional_params body)))).
Proof.
  intros Hname Hlb Hn1 Hd Hn2 Hkw Hk1 Hk2 Hk3 Hf.
  unfold parse_drc_rule.
  cbn [current_token set_tokens tokens].
  fold (of_kind IDENTIFIER name). rewrite Hname. cbn [negb].
  rewrite (p_advance_cons p name lbrace).
  rewrite cur_is_cons, Hlb. cbn [negb].
  destruct descr as [|a [|s [|x descr]]]; try discriminate Hd.
  - (* no description *)
    cbn [app].
    rewrite (p_advance_app p lbrace (nls1 ++ nls2) kw (w0 :: ws)
             : p_advance (set_tokens p (lbrace :: (nls1 ++ nls2) ++ kw :: w0 :: ws)) = _)
      || (rewrite app_assoc; rewrite p_advance_app).
    rewrite (skip_newlines_run p kw (w0 :: ws) (nls1 ++ nls2) fuel)
      by (try apply forallb_app_true; try assumption; rewrite length_app; lia).
    cbn [bind]. rewrite (skip_comments_none fuel p kw (w0 :: ws) Hk2). cbn [bind].
    rewrite cur_is_cons, Hk3.
    rewrite (skip_newlines_run p kw (w0 :: ws) [] fuel eq_refl Hk1 (Nat.le_0_l _)
             : skip_newlines fuel (set_tokens p (kw :: w0 :: ws)) = _).
    cbn [bind current_token set_tokens tokens].
    rewrite (p_advance_cons p kw w0 ws). rewrite Hkw.
    destruct (parse_measure_body fuel (set_tokens p (w0 :: ws))) as [[body q]| |];
      reflexivity.
  - (* a description *)
    cbn [descr_ok] in Hd. apply andb_true_iff in Hd. destruct Hd as [Ha Hs].
    cbn [app].
    rewrite (p_advance_app p lbrace nls1 a (s :: nls2 ++ kw :: w0 :: ws)).
    rewrite (skip_newlines_run p a (s :: nls2 ++ kw :: w0 :: ws) nls1 fuel Hn1)
      by (first [apply (of_kind_other AT NEWLINE a Ha); discriminate | lia]).
    cbn [bind].
    rewrite (skip_comments_none fuel p a _ (of_kind_other AT COMMENT a Ha ltac:(discriminate))).
    cbn [bind]. rewrite cur_is_cons, Ha.
    rewrite (p_advance_cons p a s).
    unfold take_value_if. cbn [current_token set_tokens tokens existsb].
    fold (of_kind STRING s). rewrite Hs. cbn [orb].
    change (mkParser (s :: nls2 ++ kw :: w0 :: ws) (layers p) (rules p) (includes p)
              (errors p) (warnings p))
      with (set_tokens p (s :: nls2 ++ kw :: w0 :: ws)).
    rewrite (p_advance_app p s nls2 kw (w0 :: ws)).
    rewrite (skip_newlines_run p kw (w0 :: ws) nls2 fuel Hn2 Hk1) by lia.
    cbn [bind current_token set_tokens tokens].
    rewrite (p_advance_cons p kw w0 ws). rewrite Hkw.
    destruct (parse_measure_body fuel (set_tokens p (w0 :: ws))) as [[body q]| |];
      reflexivity.
Qed.

Lemma skip_to_brace_run p rbrace ts nls fuel :
  forallb (of_kind NEWLINE) nls = true -> of_kind RBRACE rbrace = true ->
  List.length nls <= fuel ->
  while_ fuel
    (fun p => match current_token p with
              | Some t => negb (TokenType_eqb (type t) RBRACE)
              | None => false
              end)
    (fun p => Done (p_advance p)) (set_tokens p (nls ++ rbrace :: ts))
  = Done (set_tokens p (rbrace :: ts)).
Proof.
  intros Hn Hr Hf. apply advance_loop_run; [| |exact Hf].
  - intros x xs Hx. cbn [current_token set_tokens tokens].
    rewrite forallb_forall in Hn. specialize (Hn x Hx).
    fold (of_kind RBRACE x).
    rewrite (of_kind_other NEWLINE RBRACE x Hn) by discriminate. reflexivity.
  - cbn [current_token set_tokens tokens]. fold (of_kind RBRACE rbrace).
    rewrite Hr. reflexivity.
Qed.

(** X17. A rule block around one measurement is read into one rule.  The
    tokens are the name of the rule, the opening brace, an optional
    description, one of the keywords INTERNAL1, INTERNAL2, EXTERNAL and
    EXTERNAL1, a layer name, an operator, a number that [float] accepts,
    identifiers, and the closing brace, with newlines where a rule may be
    broken into lines; some token follows the block.  Then [parse_drc_rule]
    appends the rule of this name, description, keyword, layer, operator,
    value and line, each identifier being a parameter set to [True], and
    goes on behind the closing brace. *)
Theorem measure_rule_parsed :
  forall fuel p sh next rest v,
    rule_shape_ok sh = true ->
    float (value (s_num sh)) = Some v ->
    List.length (rule_shape_tokens sh) <= fuel ->
    parse_drc_rule fuel (set_tokens p (rule_shape_tokens sh ++ next :: rest))
    = Done (add_rule (set_tokens p (next :: rest))
              (mkDRCRule (value (s_name sh)) (shape_description sh)
                 (value (s_kw sh)) (value (s_layer sh)) (value (s_op sh)) v
                 (line (s_name sh)) (shape_params sh))).
Proof.
  intros fuel p sh next rest v Hok Hv Hf.
  unfold rule_shape_ok in Hok.
  apply andb_true_iff in Hok. destruct Hok as [Hok Hrb].
  apply andb_true_iff in Hok. destruct Hok as [Hok Hn3].
  split_head Hok.
  apply negb_true_iff in Hh5. apply negb_true_iff in Hh4. apply negb_true_iff in Hh3.
  destruct sh as [name lbrace nls1 descr nls2 kw lay op num params nls3 rbrace].
  unfold shape_description, shape_params, rule_shape_tokens, rule_shape_head in *.
  cbn [s_name s_lbrace s_nls1 s_descr s_nls2 s_kw s_layer s_op s_num s_params
       s_nls3 s_rbrace] in *.
  assert (Hlen : List.length nls1 + List.length nls2 <= fuel
                 /\ List.length params <= fuel /\ List.length nls3 <= fuel).
  { cbn [List.length] in Hf.
    repeat (rewrite length_app in Hf; cbn [List.length] in Hf). lia. }
  destruct Hlen as (Hf1 & Hf2 & Hf3).
  replace (((name :: lbrace :: nls1 ++ descr ++ nls2
               ++ kw :: lay :: op :: num :: params) ++ nls3 ++ [rbrace]) ++ next :: rest)
    with (name :: lbrace :: nls1 ++ descr ++ nls2
            ++ kw :: lay :: op :: num :: params ++ nls3 ++ rbrace :: next :: rest).
  2:{ cbn [app]. repeat (rewrite <- List.app_assoc; cbn [app]). reflexivity. }
  rewrite rule_header by assumption.
  rewrite (measure_body_start fuel p lay op num v _ Hh2 Hh1 Hh0 Hv)
    by (destruct params; [destruct nls3|]; discriminate).
  destruct nls3 as [|n0 nls3].
  - cbn [app].
    rewrite (params_loop_run p rbrace (next :: rest) params fuel [] Hh)
      by (first [rewrite Hrb; reflexivity | exact Hf2]).
    cbn [bind].
    rewrite (skip_to_brace_run p rbrace (next :: rest) [] fuel eq_refl Hrb (Nat.le_0_l _)
             : while_ fuel _ _ (set_tokens p (rbrace :: next :: rest)) = _).
    cbn [bind]. rewrite cur_is_cons, Hrb, p_advance_cons. reflexivity.
  - cbn [forallb] in Hn3. pose proof Hn3 as Hn3'.
    apply andb_true_iff in Hn3'. destruct Hn3' as [Hn0 _].
    cbn [app].
    rewrite (params_loop_run p n0 (nls3 ++ rbrace :: next :: rest) params fuel [] Hh)
      by (first [rewrite Hn0; apply orb_true_r | exact Hf2]).
    cbn [bind].
    rewrite (skip_to_brace_run p rbrace (next :: rest) (n0 :: nls3) fuel Hn3 Hrb Hf3
             : while_ fuel _ _ (set_tokens p (n0 :: nls3 ++ rbrace :: next :: rest)) = _).
    cbn [bind]. rewrite cur_is_cons, Hrb, p_advance_cons. reflexivity.
Qed.

Lemma measure_rule_parsed_witness :
  parse_drc_rule 12
    (set_tokens (new_parser [])
       (rule_shape_tokens width_rule_shape ++ [mkToken EOF EmptyString 3 2]))
  = Done (add_rule (set_tokens (new_parser []) [mkToken EOF EmptyString 3 2])
            (mkDRCRule "W1" "w" "INTERNAL1" "M1" "<" 0.1%Q 1 [("OPPOSITE"%string, PTrue)])).
Proof.
  apply (measure_rule_parsed 12 (new_parser []) width_rule_shape
           (mkToken EOF EmptyString 3 2) [] 0.1%Q).
  - reflexivity.
  - reflexivity.
  - vm_compute. repeat constructor.
Defined.

(** X18. The same block with, behind the number and the parameters, a token
    that is neither an identifier nor a closing brace nor a newline: the
    loop of [parse_drc_rule] over the parameters stands on this token for
    ever, and [parse_drc_rule] does not return, however many turns its
    loops are allowed.  The word SINGULAR is such a token: the lexer has it
    in its keyword table. *)
Theorem measure_rule_hangs :
  forall fuel p sh x rest v,
    rule_head_ok sh = true ->
    float (value (s_num sh)) = Some v ->
    stuck_token x = true ->
    List.length (rule_shape_head sh) <= fuel ->
    parse_drc_rule fuel (set_tokens p (rule_shape_head sh ++ x :: rest)) = Timeout.
Proof.
  intros fuel p sh x rest v Hok Hv Hx Hf.
  split_head Hok.
  apply negb_true_iff in Hh5. apply negb_true_iff in Hh4. apply negb_true_iff in Hh3.
  destruct sh as [name lbrace nls1 descr nls2 kw lay op num params nls3 rbrace].
  unfold rule_shape_head in *.
  cbn [s_name s_lbrace s_nls1 s_descr s_nls2 s_kw s_layer s_op s_num s_params] in *.
  assert (Hf1 : List.length nls1 + List.length nls2 <= fuel).
  { cbn [List.length] in Hf.
    repeat (rewrite length_app in Hf; cbn [List.length] in Hf). lia. }
  replace ((name :: lbrace :: nls1 ++ descr ++ nls2
              ++ kw :: lay :: op :: num :: params) ++ x :: rest)
    with (name :: lbrace :: nls1 ++ descr ++ nls2
            ++ kw :: lay :: op :: num :: params ++ x :: rest)
    by (cbn [app]; repeat (rewrite <- List.app_assoc; cbn [app]); reflexivity).
  rewrite rule_header by assumption.
  rewrite (measure_body_start fuel p lay op num v _ Hh2 Hh1 Hh0 Hv)
    by (destruct params; discriminate).
  rewrite (params_loop_stuck p x rest params fuel [] Hh Hx). reflexivity.
Qed.

Lemma measure_rule_hangs_witness :
  parse_drc_rule 12
    (set_tokens (new_parser [])
       (rule_shape_head width_rule_shape
        ++ [singular_token; mkToken RBRACE "}" 3 1; mkToken EOF EmptyString 3 2]))
  = Timeout.
Proof.
  apply (measure_rule_hangs 12 (new_parser []) width_rule_shape singular_token
           [mkToken RBRACE "}" 3 1; mkToken EOF EmptyString 3 2] 0.1%Q).
  - reflexivity.
  - reflexivity.
  - reflexivity.
  - vm_compute. repeat constructor.
Defined.

End RuleMore.

(* ================================================================== *)
(** * Descriptions, unclassified rules and expressions left as they are *)
(* ================================================================== *)

Module FurtherMore.

Import Py Re ReFacts FinalEnhancedTranslator.
Local Open Scope string_scope.

(** X19. The description of a rule is the text between the double quotes that
    follow the first [@] of its content, white space between the [@] and
    the opening quote being passed over: here [pre] holds no [@], [sp] is
    white space and [d] is a non-empty text without double quote. *)
Theorem description_between_quotes :
  forall pre sp d post,
    count "@" pre = 0%nat ->
    all_in space sp = true ->
    nonempty d = true -> all_in not_dquote d = true ->
    extract_description (pre ++ "@" ++ sp ++ dq ++ d ++ dq ++ post) = d.
Proof.
  intros pre sp d post Hpre Hsp Hne Hd.
  exact (ClassifierClaims.description_extracted pre sp d post Hpre Hsp Hne Hd).
Qed.

Lemma description_between_quotes_witness :
  extract_description
    ("W1 { " ++ "@" ++ " " ++ dq ++ "Min width" ++ dq ++ " INTERNAL1 M1 < 0.1 }")
  = "Min width".
Proof.
  apply (description_between_quotes "W1 { " " " "Min width" " INTERNAL1 M1 < 0.1 }");
    reflexivity.
Defined.

(** X20. A content that holds neither [NOT] nor any of the eight keywords that
    [parse_rule_content] looks for gives a rule of type "unknown", with its
    name, its description and its line, an empty layer and operator, the
    value zero and no parameters. *)
Theorem content_without_keyword_is_unknown :
  forall nm content ln,
    contains "NOT" content = false ->
    existsb (fun k => contains k content)
      ["ANTENNA"; "RECTANGLE"; "SAME_MASK"; "EXTERNAL"; "DENSITY"; "AREA";
       "INTERNAL2"; "INTERNAL1"]%list = false ->
    classified_rule nm content ln
    = Done (mkDRCRule nm (extract_description content) "unknown" EmptyString
              EmptyString 0%Q ln None None None).
Proof.
  intros nm content ln Hnot Hk. unfold classified_rule.
  rewrite (ClassifierClaims.no_keyword_unclassified content Hnot Hk). reflexivity.
Qed.

Lemma content_without_keyword_is_unknown_witness :
  classified_rule "R" "R { COPY M1 }" 4
  = Done (mkDRCRule "R" (extract_description "R { COPY M1 }") "unknown" EmptyString
            EmptyString 0%Q 4 None None None).
Proof.
  apply (content_without_keyword_is_unknown "R" "R { COPY M1 }" 4); reflexivity.
Defined.

(** X21. An expression in which no connective stands between two spaces comes
    back as it is, from [translate_layer_expression] and from the rewriting
    that [translate_to_icv] does for derived layers. *)
Theorem expression_without_connective_unchanged :
  forall expression,
    contains " AND " expression = false ->
    contains " OR " expression = false ->
    contains " NOT " expression = false ->
    SvrfToIcvTranslator.translate_layer_expression expression = expression /\
    translate_expression expression = expression.
Proof.
  intros expression Ha Ho Hn. split.
  - exact (RewriterClaims.rewrite_without_connective expression Ha Ho Hn).
  - unfold translate_expression.
    rewrite (RewriterClaims.replace_absent _ _ _ Ha),
      (RewriterClaims.replace_absent _ _ _ Ho),
      (RewriterClaims.replace_absent _ _ _ Hn).
    reflexivity.
Qed.

Lemma expression_without_connective_unchanged_witness :
  SvrfToIcvTranslator.translate_layer_expression "(A)AND(B)" = "(A)AND(B)" /\
  translate_expression "(A)AND(B)" = "(A)AND(B)".
Proof.
  apply (expression_without_connective_unchanged "(A)AND(B)"); reflexivity.
Defined.

End FurtherMore.
